(** * update_skills.py: a shallow embedding and its verified properties

    The script keeps installed skill directories in step with the sources
    recorded in a JSON registry.  This development embeds, function by
    function, the parts of [skills/skill-update/scripts/update_skills.py]
    that carry its guarantees:

    - [_validate_repo_path] over POSIX path strings ([os.path.isabs],
      [os.path.normpath], [str.startswith]);
    - [_hash_directory] over a directory tree whose entry lists are in the
      order the file system enumerates them;
    - [_is_same_skill], [_install_from_github], [_replace_skill],
      [_update_one], [_load_sources], [_save_sources], [_cmd_remove] and
      [_cmd_update] in a state-and-exception monad over a world made of a
      file-system tree, the output streams and a record of the library calls
      issued;
    - [_cmd_add], [_cmd_list] and [main], in the same monad, from the
      command line as [argparse] has parsed it.

    Names follow the Python source.  Strings are byte strings: a Python [str]
    is represented by its UTF-8 encoding, whose byte-wise order is the
    code-point order Python compares by.  What the script takes from outside
    (the digest function, the JSON codec, the copy [shutil.copytree] makes,
    the installer script, the expansion of user paths) is a parameter of the
    program, gathered in the record [env].

    The first part holds the definitions; the second the properties, one
    section for each function of the script. *)

From Stdlib Require Import List Bool Arith PeanoNat NArith ZArith Lia.
From Stdlib.Strings Require Import String Ascii Byte.
From Stdlib Require Import Permutation.
Import ListNotations.
Open Scope string_scope.
Open Scope list_scope.

Set Implicit Arguments.
Set Warnings "-register-all,-abstract-large-number".

(** ** Exceptions and results *)

Inductive exn : Type :=
| ValueError (msg : string)
| FileNotFoundError (msg : string)
| FileExistsError (msg : string)
| TypeError (msg : string)
| AttributeError (msg : string)
| KeyError (msg : string)
| OSError (msg : string)
| ShutilError (msg : string)
| JSONDecodeError
| CalledProcessError (cmd : list string).

Inductive result (A : Type) : Type :=
| Ok (a : A)
| Raise (e : exn).

Arguments Ok {A} a.
Arguments Raise {A} e.

(** ** Strings as Python uses them *)

Module PyStr.

(** [s.startswith(p)] *)
Definition startswith (s p : string) : bool := String.prefix p s.

Fixpoint rev_onto (s acc : string) : string :=
  match s with
  | EmptyString => acc
  | String c s' => rev_onto s' (String c acc)
  end.

Definition rev (s : string) : string := rev_onto s EmptyString.

(** [s.endswith(p)] *)
Definition endswith (s p : string) : bool := String.prefix (rev p) (rev s).

(** [s.split("/")]: never empty, one more field than there are slashes. *)
Fixpoint split_slash (s : string) : list string :=
  match s with
  | EmptyString => [EmptyString]
  | String c s' =>
      if Ascii.eqb c "/" then EmptyString :: split_slash s'
      else match split_slash s' with
           | [] => [String c EmptyString]
           | w :: ws => String c w :: ws
           end
  end.

(** ["/".join(comps)] *)
Definition join_slash (comps : list string) : string := String.concat "/" comps.

Fixpoint has_slash (s : string) : bool :=
  match s with
  | EmptyString => false
  | String c s' => Ascii.eqb c "/" || has_slash s'
  end.

(** [name in names] for a set of strings *)
Definition mem (name : string) (names : list string) : bool :=
  existsb (String.eqb name) names.

End PyStr.

(** ** posixpath *)

Module PosixPath.
Import PyStr.

(** [os.path.isabs] *)
Definition isabs (path : string) : bool := startswith path "/".

Definition is_nil {A} (l : list A) : bool :=
  match l with [] => true | _ => false end.

(** One turn of the loop of [normpath] over the components:
<<
    if comp in ('', '.'): continue
    if (comp != '..' or (not initial_slashes and not new_comps) or
            (new_comps and new_comps[-1] == '..')):
        new_comps.append(comp)
    elif new_comps:
        new_comps.pop()
>> *)
Definition normpath_step (initial_slashes : nat)
           (new_comps : list string) (comp : string) : list string :=
  if (comp =? "") || (comp =? ".") then new_comps
  else if negb (comp =? "..")
          || ((initial_slashes =? 0)%nat && is_nil new_comps)
          || (negb (is_nil new_comps) && (last new_comps "" =? ".."))
       then new_comps ++ [comp]
       else if negb (is_nil new_comps) then removelast new_comps
            else new_comps.

Definition initial_slashes (path : string) : nat :=
  if startswith path "/" then
    if startswith path "//" && negb (startswith path "///") then 2 else 1
  else 0.

Fixpoint slashes (n : nat) : string :=
  match n with
  | O => EmptyString
  | S n' => String "/" (slashes n')
  end.

(** [os.path.normpath] *)
Definition normpath (path : string) : string :=
  if path =? "" then "."
  else
    let i := initial_slashes path in
    let comps := fold_left (normpath_step i) (split_slash path) [] in
    let p := (slashes i ++ join_slash comps)%string in
    if p =? "" then "." else p.

End PosixPath.

(** ** [_validate_repo_path] *)

Definition msg_repo_path : string := "仓库路径必须是仓库内相对路径".

Definition _validate_repo_path (path : string) : result unit :=
  if PosixPath.isabs path || PyStr.startswith (PosixPath.normpath path) ".."
  then Raise (ValueError msg_repo_path)
  else Ok tt.

(** A path escapes the repository root after normalization when the first
    component of its normal form is the parent directory. *)
Definition escapes_root (path : string) : Prop :=
  hd_error (PyStr.split_slash (PosixPath.normpath path)) = Some "..".

(** The same read off the path itself, without [normpath]: following the
    components from left to right, a [..] is met while no level has been
    gained that it could give back.  [depth] counts the levels gained. *)
Fixpoint climbs_above (depth : nat) (comps : list string) : bool :=
  match comps with
  | [] => false
  | c :: rest =>
      if (c =? "") || (c =? ".") then climbs_above depth rest
      else if c =? ".." then
             match depth with
             | O => true
             | S d => climbs_above d rest
             end
           else climbs_above (S depth) rest
  end.

Definition leaves_root (path : string) : bool :=
  climbs_above 0 (PyStr.split_slash path).

(** ** The file system

    A node is a regular file with its bytes, a symbolic link with its target
    string, or a directory.  The entries of a directory are kept in the order
    in which [os.scandir] reports them, which the file system chooses.
    Symbolic links are leaves: what a link points to lies outside the tree, so
    the one fact the calls of this program need about it, the kind of thing
    it resolves to, is recorded with the link. *)

Inductive link_target : Type := LinkDir | LinkFile | LinkBroken.

Inductive node : Type :=
| File (content : list byte)
| Symlink (target : string) (resolves : link_target)
| Dir (entries : list (string * node)).

Definition entries := list (string * node).

(** Association lists keyed by names: directory listings and JSON objects.
    [assoc] finds the first binding, [set_assoc] rebinds in place or appends
    (a Python [dict] keeps the position of a key that is assigned again),
    [del_assoc] drops the name. *)
Fixpoint assoc {V : Type} (name : string) (es : list (string * V)) : option V :=
  match es with
  | [] => None
  | (k, v) :: es' => if k =? name then Some v else assoc name es'
  end.

Fixpoint set_assoc {V : Type} (name : string) (v : V) (es : list (string * V))
  : list (string * V) :=
  match es with
  | [] => [(name, v)]
  | (k, x) :: es' =>
      if k =? name then (k, v) :: es' else (k, x) :: set_assoc name v es'
  end.

Definition del_assoc {V : Type} (name : string) (es : list (string * V))
  : list (string * V) :=
  filter (fun e => negb (fst e =? name)) es.

(** [entry.is_dir()] with links followed, as [os.walk] asks it. *)
Definition is_dir_entry (n : node) : bool :=
  match n with
  | Dir _ => true
  | Symlink _ LinkDir => true
  | _ => false
  end.

(** The two name lists [os.walk] builds from one [scandir] pass. *)
Definition walk_dirs (es : entries) : list string :=
  map fst (filter (fun e => is_dir_entry (snd e)) es).

Definition walk_nondirs (es : entries) : list string :=
  map fst (filter (fun e => negb (is_dir_entry (snd e))) es).

(** ** Sorting names: [list.sort] and [sorted] on strings *)

Fixpoint insert_sorted (x : string) (l : list string) : list string :=
  match l with
  | [] => [x]
  | y :: l' => if String.leb x y then x :: l else y :: insert_sorted x l'
  end.

Definition sorted (l : list string) : list string :=
  fold_right insert_sorted [] l.

(** ** [_hash_directory] *)

Definition IGNORED_DIRS : list string := [".git"; "__pycache__"].
Definition IGNORED_FILES : list string := [".DS_Store"].
Definition IGNORED_SUFFIXES : list string := [".pyc"].

(** The hasher is represented by the bytes fed to it so far; [update]
    appends, and the digest is a function of the whole stream. *)
Definition hasher := list byte.

Definition update (h : hasher) (data : list byte) : hasher := h ++ data.

(** [s.encode("utf-8")] of a string held as its UTF-8 bytes. *)
Definition encode (s : string) : list byte := list_byte_of_string s.

Definition tag_D : list byte := encode "D".
Definition tag_F : list byte := encode "F".
Definition tag_L : list byte := encode "L".

Definition CHUNK : nat := 8192.

(** The read loop: [chunk = read(8192)] until the chunk is empty.  Every
    turn but the last consumes at least one byte, so one turn more than the
    number of bytes left is enough. *)
Fixpoint read_chunks (turns : nat) (rest : list byte) (h : hasher) : hasher :=
  match turns with
  | O => h
  | S turns' =>
      match firstn CHUNK rest with
      | [] => h
      | chunk => read_chunks turns' (skipn CHUNK rest) (update h chunk)
      end
  end.

Definition hash_content (content : list byte) (h : hasher) : hasher :=
  read_chunks (S (List.length content)) content h.

(** [os.path.relpath] of a place below the walked root, from its components;
    the root itself is ["."]. *)
Definition relpath (rel : list string) : string :=
  match rel with
  | [] => "."
  | _ => PyStr.join_slash rel
  end.

Definition keep_dir (d : string) : bool := negb (PyStr.mem d IGNORED_DIRS).

Definition keep_file (name : string) : bool :=
  negb (PyStr.mem name IGNORED_FILES)
  && negb (existsb (PyStr.endswith name) IGNORED_SUFFIXES).

(** The body of [for name in sorted(filtered)], for the directory with
    entries [es] at [rel].  A name of [filenames] is a regular file or a link
    in [es]; the last case does not arise. *)
Definition hash_file (es : entries) (rel : list string)
           (h : hasher) (name : string) : hasher :=
  let h := update (update h tag_F) (encode (relpath (rel ++ [name]))) in
  match assoc name es with
  | Some (Symlink target _) => update (update h tag_L) (encode target)
  | Some (File content) => hash_content content h
  | _ => h
  end.

(** The loop over [os.walk(path)], top down.  For the directory at [rel] the
    body prunes and sorts [dirnames] in place, feeds the directory tag (except
    at the root) and the files; [os.walk] then descends into the names left in
    [dirnames], in their new order, skipping those that are links. *)
Fixpoint walk_hash (n : node) (rel : list string) (h : hasher) {struct n} : hasher :=
  match n with
  | Dir es =>
      let dirnames := sorted (filter keep_dir (walk_dirs es)) in
      let h :=
        match rel with
        | [] => h
        | _ => update (update h tag_D) (encode (relpath rel))
        end in
      let filtered := filter keep_file (walk_nondirs es) in
      let h := fold_left (hash_file es rel) (sorted filtered) h in
      let below := map (fun e => let '(name, child) := e in (name, walk_hash child)) es in
      fold_left
        (fun h d =>
           match assoc d below with
           | Some descend => descend (rel ++ [d]) h
           | None => h
           end)
        dirnames h
  | File _ => h
  | Symlink _ _ => h
  end.

(** ** Paths and operations on the tree

    A path of the file system is the list of its components below the root;
    [os.path.join(d, name)] with a one-component [name] is [d ++ [name]]. *)

Definition path := list string.

Definition dirname (p : path) : path := removelast p.
Definition basename (p : path) : string := last p "".

Definition path_eqb (p q : path) : bool :=
  if list_eq_dec string_dec p q then true else false.

Fixpoint is_prefix (p q : path) : bool :=
  match p, q with
  | [], _ => true
  | c :: p', d :: q' => (c =? d) && is_prefix p' q'
  | _ :: _, [] => false
  end.

(** The string of a path, for command lines and messages. *)
Definition path_str (p : path) : string := ("/" ++ PyStr.join_slash p)%string.

(** What a path names.  Links are not followed on the way. *)
Fixpoint fs_lookup (p : path) (n : node) : option node :=
  match p with
  | [] => Some n
  | c :: p' =>
      match n with
      | Dir es =>
          match assoc c es with
          | Some child => fs_lookup p' child
          | None => None
          end
      | _ => None
      end
  end.

(** Replace the node at [p] by [f] of it; [None] when [p] names nothing or
    [f] refuses. *)
Fixpoint fs_alter (p : path) (f : node -> option node) (n : node) : option node :=
  match p with
  | [] => f n
  | c :: p' =>
      match n with
      | Dir es =>
          match assoc c es with
          | Some child =>
              match fs_alter p' f child with
              | Some child' => Some (Dir (set_assoc c child' es))
              | None => None
              end
          | None => None
          end
      | _ => None
      end
  end.

Definition dir_bind (name : string) (v : node) (d : node) : option node :=
  match d with
  | Dir es => Some (Dir (set_assoc name v es))
  | _ => None
  end.

Definition dir_unbind (name : string) (d : node) : option node :=
  match d with
  | Dir es => Some (Dir (del_assoc name es))
  | _ => None
  end.

(** Bind, or unbind, [name] in the directory at [parent]. *)
Definition fs_bind (parent : path) (name : string) (v : node) : node -> option node :=
  fs_alter parent (dir_bind name v).

Definition fs_unbind (parent : path) (name : string) : node -> option node :=
  fs_alter parent (dir_unbind name).

(** [os.makedirs(p, exist_ok=True)] on the tree: directories that are missing
    along [p] are created, one that exists is kept, anything else in the way
    refuses. *)
Fixpoint fs_makedirs (p : path) (n : node) : option node :=
  match p with
  | [] => if is_dir_entry n then Some n else None
  | c :: p' =>
      match n with
      | Dir es =>
          match fs_makedirs p' (match assoc c es with
                                | Some child => child
                                | None => Dir []
                                end) with
          | Some child' => Some (Dir (set_assoc c child' es))
          | None => None
          end
      | _ => None
      end
  end.

(** [os.path.exists], [isdir], [isfile] of what a path names; they follow a
    final link. *)
Definition node_exists (o : option node) : bool :=
  match o with
  | Some (Symlink _ LinkBroken) => false
  | Some _ => true
  | None => false
  end.

Definition node_isdir (o : option node) : bool :=
  match o with
  | Some n => is_dir_entry n
  | None => false
  end.

Definition node_isfile (o : option node) : bool :=
  match o with
  | Some (File _) => true
  | Some (Symlink _ LinkFile) => true
  | _ => false
  end.

(** [shutil.move(src, dst)] when the operating system refuses nothing: a
    path moved onto itself stays; a destination that is a directory receives
    [src] under its own name (unless that name is taken), otherwise [src] is
    renamed to [dst]; a directory does not replace an existing non-directory
    nor move into itself, and a directory moved below missing directories
    gets them created (the copy-and-delete path of [shutil.move]).  A
    destination that is a link to a directory leads outside the tree and is
    refused here. *)
Definition move_tree (src dst : path) (root : node) : result node :=
  let dst_isdir := node_isdir (fs_lookup dst root) in
  if path_eqb src dst then
    match fs_lookup src root with
    | Some _ => Ok root
    | None => Raise (FileNotFoundError "No such file or directory")
    end
  else
    let real_dst := if dst_isdir then dst ++ [basename src] else dst in
    if dst_isdir && node_exists (fs_lookup real_dst root)
    then Raise (ShutilError "Destination path already exists")
    else
      match fs_lookup src root with
      | None => Raise (FileNotFoundError "No such file or directory")
      | Some n =>
          if is_prefix src real_dst
          then Raise (ShutilError "Cannot move a directory into itself")
          else
            match fs_lookup real_dst root, n with
            | Some _, Dir _ => Raise (FileExistsError "File exists")
            | _, _ =>
                match fs_unbind (dirname src) (basename src) root with
                | None => Raise (OSError "rename")
                | Some root1 =>
                    let prepared :=
                      match n with
                      | Dir _ => fs_makedirs (dirname real_dst) root1
                      | _ => Some root1
                      end in
                    match prepared with
                    | None => Raise (FileNotFoundError "No such file or directory")
                    | Some root2 =>
                        match fs_bind (dirname real_dst) (basename real_dst) n root2 with
                        | Some root3 => Ok root3
                        | None => Raise (FileNotFoundError "No such file or directory")
                        end
                    end
                end
            end
      end.

(** ** JSON values as Python holds them *)

Inductive json : Type :=
| JNull
| JBool (b : bool)
| JNum (n : Z)
| JStr (s : string)
| JList (items : list json)
| JObj (fields : list (string * json)).

Module Py.

(** Truth value of an object, as [if x:] and [not x] take it. *)
Definition truthy (v : json) : bool :=
  match v with
  | JNull => false
  | JBool b => b
  | JNum n => negb (Z.eqb n 0)
  | JStr s => negb (s =? "")
  | JList items => negb (PosixPath.is_nil items)
  | JObj fields => negb (PosixPath.is_nil fields)
  end.

Fixpoint is_substring (k s : string) : bool :=
  String.prefix k s
  || match s with
     | EmptyString => false
     | String _ s' => is_substring k s'
     end.

Definition is_str (k : string) (v : json) : bool :=
  match v with
  | JStr s => s =? k
  | _ => false
  end.

(** [k in v] for a string [k]: key of a dict, element of a list,
    substring of a string; other objects are not containers. *)
Definition contains (k : string) (v : json) : result bool :=
  match v with
  | JObj fields => Ok (match assoc k fields with Some _ => true | None => false end)
  | JList items => Ok (existsb (is_str k) items)
  | JStr s => Ok (is_substring k s)
  | _ => Raise (TypeError "argument is not iterable")
  end.

(** [v.get(k)] *)
Definition get (v : json) (k : string) : result json :=
  match v with
  | JObj fields => Ok (match assoc k fields with Some x => x | None => JNull end)
  | _ => Raise (AttributeError "object has no attribute 'get'")
  end.

(** [v[k]] for a string [k] *)
Definition getitem (v : json) (k : string) : result json :=
  match v with
  | JObj fields =>
      match assoc k fields with
      | Some x => Ok x
      | None => Raise (KeyError k)
      end
  | _ => Raise (TypeError "indices must be integers")
  end.

End Py.

(** ** The world and the monad of the program *)

(** Calls into [os], [shutil], [tempfile], [subprocess] and [open], in the
    order they are issued. *)
Inductive call : Type :=
| C_stat (p : path)
| C_open_r (p : path)
| C_open_w (p : path)
| C_makedirs (p : path)
| C_mkdtemp (prefix : string)
| C_copytree (src dst : path)
| C_move (src dst : path)
| C_rmtree (p : path)
| C_walk (p : path)
| C_run (cmd : list json).

(** [move_faults] is the operating system's verdict on the coming calls of
    [shutil.move], first call first: [Some e] makes that call raise [e] and
    leave the tree as it was; a call beyond the list is not refused.
    [temp_names] are the random names [tempfile] will propose. *)
Record world : Type := World {
  fs : node;
  move_faults : list (option exn);
  temp_names : list string;
  clock : string;
  calls : list call;
  stdout : list string;
  stderr : list string
}.

Definition set_fs (root : node) (w : world) : world :=
  World root (move_faults w) (temp_names w) (clock w) (calls w) (stdout w) (stderr w).

Definition set_move_faults (l : list (option exn)) (w : world) : world :=
  World (fs w) l (temp_names w) (clock w) (calls w) (stdout w) (stderr w).

Definition set_temp_names (l : list string) (w : world) : world :=
  World (fs w) (move_faults w) l (clock w) (calls w) (stdout w) (stderr w).

Definition log (c : call) (w : world) : world :=
  World (fs w) (move_faults w) (temp_names w) (clock w) (calls w ++ [c]) (stdout w) (stderr w).

Definition M (A : Type) : Type := world -> result A * world.

Definition ret {A} (a : A) : M A := fun w => (Ok a, w).

Definition raise {A} (e : exn) : M A := fun w => (Raise e, w).

Definition bind {A B} (m : M A) (k : A -> M B) : M B :=
  fun w =>
    match m w with
    | (Ok a, w') => k a w'
    | (Raise e, w') => (Raise e, w')
    end.

Definition lift {A} (r : result A) : M A := fun w => (r, w).

(** [try: body  except Exception as e: handler(e)] *)
Definition try_except {A} (body : M A) (handler : exn -> M A) : M A :=
  fun w =>
    match body w with
    | (Ok a, w') => (Ok a, w')
    | (Raise e, w') => handler e w'
    end.

(** [try: body  finally: cleanup] *)
Definition try_finally {A} (body : M A) (cleanup : M unit) : M A :=
  fun w =>
    match body w with
    | (r, w') =>
        match cleanup w' with
        | (Ok _, w'') => (r, w'')
        | (Raise e, w'') => (Raise e, w'')
        end
    end.

Declare Scope monad_scope.
Delimit Scope monad_scope with monad.
Notation "x <- m ;; k" := (bind m (fun x => k))
  (at level 61, m at next level, right associativity) : monad_scope.
Notation "m ;; k" := (bind m (fun _ => k))
  (at level 61, right associativity) : monad_scope.
Open Scope monad_scope.

(** ** What the program takes from its environment

    [sha256_hex] is [hashlib.sha256(...).hexdigest()] as a function of the
    bytes fed; [json_loads] and [json_dumps] are the [json] codec
    ([json_dumps] with [ensure_ascii=False, indent=2]); [copy_tree] is the
    tree [shutil.copytree] builds from a source, with the error it reports at
    the end, if any; [run_installer] is the external installer script: for a
    command line, the skill directory it leaves under the destination, if
    any, and whether it exits with status zero; [expand_path] is
    [os.path.abspath(os.path.expanduser(...))]. *)
Record env : Type := Env {
  sha256_hex : list byte -> string;
  json_loads : list byte -> option json;
  json_dumps : json -> list byte;
  copy_tree : node -> node * option exn;
  run_installer : list string -> option node * bool;
  expand_path : string -> path;
  codex_home : path;
  temp_dir : path;
  sys_executable : string
}.

Section Program.

Variable E : env.

(** *** Library calls *)

Definition os_path_exists (p : path) : M bool :=
  fun w => (Ok (node_exists (fs_lookup p (fs w))), log (C_stat p) w).

Definition os_path_isdir (p : path) : M bool :=
  fun w => (Ok (node_isdir (fs_lookup p (fs w))), log (C_stat p) w).

Definition os_path_isfile (p : path) : M bool :=
  fun w => (Ok (node_isfile (fs_lookup p (fs w))), log (C_stat p) w).

Definition os_makedirs (p : path) : M unit :=
  fun w =>
    let w := log (C_makedirs p) w in
    match fs_makedirs p (fs w) with
    | Some root => (Ok tt, set_fs root w)
    | None => (Raise (FileExistsError (path_str p)), w)
    end.

(** [tempfile.mkdtemp(prefix=...)]: the first proposed name that is free
    in the temporary directory is created there. *)
Fixpoint mkdtemp_from (prefix : string) (names : list string) (root : node)
  : result (path * node) * list string :=
  match names with
  | [] => (Raise (FileExistsError "No usable temporary directory name found"), [])
  | nm :: rest =>
      let name := (prefix ++ nm)%string in
      match fs_lookup (temp_dir E ++ [name]) root with
      | Some _ => mkdtemp_from prefix rest root
      | None =>
          match fs_bind (temp_dir E) name (Dir []) root with
          | Some root' => (Ok (temp_dir E ++ [name], root'), rest)
          | None => (Raise (FileNotFoundError (path_str (temp_dir E))), rest)
          end
      end
  end.

Definition tempfile_mkdtemp (prefix : string) : M path :=
  fun w =>
    let w := log (C_mkdtemp prefix) w in
    match mkdtemp_from prefix (temp_names w) (fs w) with
    | (Ok (p, root), rest) => (Ok p, set_fs root (set_temp_names rest w))
    | (Raise e, rest) => (Raise e, set_temp_names rest w)
    end.

(** [shutil.rmtree(p, ignore_errors=True)] *)
Definition shutil_rmtree (p : path) : M unit :=
  fun w =>
    let w := log (C_rmtree p) w in
    match p, fs_lookup p (fs w) with
    | _ :: _, Some (Dir _) =>
        match fs_unbind (dirname p) (basename p) (fs w) with
        | Some root => (Ok tt, set_fs root w)
        | None => (Ok tt, w)
        end
    | _, _ => (Ok tt, w)
    end.

(** [shutil.copytree(src, dst)]: [dst] must not exist, its missing parents
    are created, and what was copied stays when an error is reported. *)
Definition shutil_copytree (src dst : path) : M unit :=
  fun w =>
    let w := log (C_copytree src dst) w in
    match fs_lookup src (fs w) with
    | Some n =>
        if negb (is_dir_entry n) then (Raise (OSError "Not a directory"), w)
        else
          match fs_lookup dst (fs w) with
          | Some _ => (Raise (FileExistsError (path_str dst)), w)
          | None =>
              let (copy, err) := copy_tree E n in
              match fs_makedirs (dirname dst) (fs w) with
              | None => (Raise (FileExistsError (path_str (dirname dst))), w)
              | Some root1 =>
                  match fs_bind (dirname dst) (basename dst) copy root1 with
                  | None => (Raise (OSError "mkdir"), w)
                  | Some root2 =>
                      (match err with Some e => Raise e | None => Ok tt end,
                       set_fs root2 w)
                  end
              end
          end
    | None => (Raise (FileNotFoundError (path_str src)), w)
    end.

(** [shutil.move(src, dst)] *)
Definition shutil_move (src dst : path) : M unit :=
  fun w =>
    let w := log (C_move src dst) w in
    let verdict := hd None (move_faults w) in
    let w := set_move_faults (tl (move_faults w)) w in
    match verdict with
    | Some e => (Raise e, w)
    | None =>
        match move_tree src dst (fs w) with
        | Ok root => (Ok tt, set_fs root w)
        | Raise e => (Raise e, w)
        end
    end.

Definition time_strftime : M string := fun w => (Ok (clock w), w).

Definition print (line : string) : M unit :=
  fun w => (Ok tt, World (fs w) (move_faults w) (temp_names w) (clock w)
                         (calls w) (stdout w ++ [line]) (stderr w)).

Definition eprint (line : string) : M unit :=
  fun w => (Ok tt, World (fs w) (move_faults w) (temp_names w) (clock w)
                         (calls w) (stdout w) (stderr w ++ [line])).

Fixpoint all_strings (cmd : list json) : option (list string) :=
  match cmd with
  | [] => Some []
  | JStr s :: rest =>
      match all_strings rest with
      | Some l => Some (s :: l)
      | None => None
      end
  | _ :: _ => None
  end.

(** [subprocess.run(cmd, check=True)] for the installer, which is asked
    to leave the skill at [out]. *)
Definition subprocess_run (cmd : list json) (out : path) : M unit :=
  fun w =>
    let w := log (C_run cmd) w in
    match all_strings cmd with
    | None => (Raise (TypeError "expected str, bytes or os.PathLike object"), w)
    | Some argv =>
        let (left, ok) := run_installer E argv in
        let w :=
          match left with
          | Some tree =>
              match fs_bind (dirname out) (basename out) tree (fs w) with
              | Some root => set_fs root w
              | None => w
              end
          | None => w
          end in
        (if ok then Ok tt else Raise (CalledProcessError argv), w)
    end.

(** [with open(path) as f: json.load(f)] *)
Definition json_load (p : path) : M json :=
  fun w =>
    let w := log (C_open_r p) w in
    match fs_lookup p (fs w) with
    | Some (File content) =>
        match json_loads E content with
        | Some v => (Ok v, w)
        | None => (Raise JSONDecodeError, w)
        end
    | Some _ => (Raise (OSError "Is a directory"), w)
    | None => (Raise (FileNotFoundError (path_str p)), w)
    end.

(** [with open(path, "w") as f: f.write(data)] *)
Definition write_file (p : path) (data : list byte) : M unit :=
  fun w =>
    let w := log (C_open_w p) w in
    match fs_lookup p (fs w) with
    | Some (Dir _) => (Raise (OSError "Is a directory"), w)
    | _ =>
        match fs_bind (dirname p) (basename p) (File data) (fs w) with
        | Some root => (Ok tt, set_fs root w)
        | None => (Raise (FileNotFoundError (path_str p)), w)
        end
    end.

(** *** The functions of [update_skills.py] *)

Definition DEFAULT_SOURCES_NAME : string := ".skill-sources.json".

Definition _default_sources (dest_root : path) : path :=
  dest_root ++ [DEFAULT_SOURCES_NAME].

Definition _expand_path (p : string) : path := expand_path E p.

Definition msg_top_level : string := "来源文件格式错误：顶层必须是对象".
Definition msg_skills_shape : string := "来源文件格式错误：skills 必须是对象".

Definition empty_registry : json :=
  JObj [("version", JNum 1); ("skills", JObj [])].

Definition _load_sources (p : path) : M json :=
  ex <- os_path_exists p ;;
  if negb ex then ret empty_registry
  else
    data <- json_load p ;;
    match data with
    | JObj fields =>
        fields <-
          match assoc "skills" fields with
          | None | Some JNull => ret (set_assoc "skills" (JObj []) fields)
          | Some (JObj _) => ret fields
          | Some _ => raise (ValueError msg_skills_shape)
          end ;;
        ret (JObj (match assoc "version" fields with
                   | Some _ => fields
                   | None => set_assoc "version" (JNum 1) fields
                   end))
    | _ => raise (ValueError msg_top_level)
    end.

Definition newline : list byte := encode (String "010" EmptyString).

Definition _save_sources (p : path) (data : json) : M unit :=
  os_makedirs (dirname p) ;;
  write_file p (json_dumps E data ++ newline).

Definition msg_no_skill_dir (p : path) : string :=
  ("技能目录不存在: " ++ path_str p)%string.
Definition msg_no_skill_md (p : path) : string :=
  ("SKILL.md 不存在: " ++ path_str p)%string.

Definition _validate_skill_dir (p : path) : M unit :=
  d <- os_path_isdir p ;;
  if negb d then raise (ValueError (msg_no_skill_dir p))
  else
    f <- os_path_isfile (p ++ ["SKILL.md"]) ;;
    if negb f then raise (ValueError (msg_no_skill_md p)) else ret tt.

(** The digest of what [p] names.  When [p] is not a directory the walk
    yields nothing ([os.walk] ignores the error of [scandir]) and the
    digest is that of the empty stream.  A path that is itself a link to a
    directory leads outside the tree and is walked as an empty one here. *)
Definition fingerprint (at_path : option node) : string :=
  sha256_hex E
    match at_path with
    | Some n => walk_hash n [] []
    | None => []
    end.

Definition _hash_directory (p : path) : M string :=
  fun w => (Ok (fingerprint (fs_lookup p (fs w))), log (C_walk p) w).

Definition _is_same_skill (dest_path new_path : path) : M bool :=
  d <- os_path_isdir dest_path ;;
  if negb d then ret false
  else
    h_dest <- _hash_directory dest_path ;;
    h_new <- _hash_directory new_path ;;
    ret (h_dest =? h_new).

Definition msg_no_installer : string :=
  "未找到安装脚本，请使用 --installer 指定 install-skill-from-github.py".

Definition default_installer : path :=
  codex_home E ++ ["skills"; ".system"; "skill-installer"; "scripts";
                   "install-skill-from-github.py"].

(** The path [_resolve_installer_path] settles on before it checks it:
    [user_path] when one is given, the installer of the system skills
    otherwise. *)
Definition installer_path_of (user_path : option string) : path :=
  match user_path with
  | Some u => if u =? "" then default_installer else _expand_path u
  | None => default_installer
  end.

Definition _resolve_installer_path (user_path : option string) : M path :=
  let installer_path := installer_path_of user_path in
  f <- os_path_isfile installer_path ;;
  if negb f then raise (FileNotFoundError msg_no_installer)
  else ret installer_path.

Definition msg_one_path : string := "来源记录的 path 只能包含一个路径".
Definition msg_missing_fields : string := "来源记录缺少 repo/path 或 url".

Definition _install_from_github (entry : json) (name : string)
           (stage_root installer_path : path) : M unit :=
  let cmd := [JStr (sys_executable E); JStr (path_str installer_path);
              JStr "--dest"; JStr (path_str stage_root);
              JStr "--name"; JStr name] in
  has_url <- lift (Py.contains "url" entry) ;;
  cmd <-
    (if has_url : bool then
       url <- lift (Py.getitem entry "url") ;;
       ret (cmd ++ [JStr "--url"; url])
     else
       repo <- lift (Py.get entry "repo") ;;
       repo_path <- lift (Py.get entry "path") ;;
       repo_path <-
         match repo_path with
         | JList items =>
             if negb (List.length items =? 1)%nat
             then raise (ValueError msg_one_path)
             else ret (nth 0 items JNull)
         | _ => ret repo_path
         end ;;
       if negb (Py.truthy repo) || negb (Py.truthy repo_path)
       then raise (ValueError msg_missing_fields)
       else
         match repo_path with
         | JStr s => lift (_validate_repo_path s)
         | _ => raise (TypeError "expected str, bytes or os.PathLike object")
         end ;;
         ret (cmd ++ [JStr "--repo"; repo; JStr "--path"; repo_path])) ;;
  ref <- lift (Py.get entry "ref") ;;
  method <- lift (Py.get entry "method") ;;
  let cmd := if Py.truthy ref then cmd ++ [JStr "--ref"; ref] else cmd in
  let cmd := if Py.truthy method then cmd ++ [JStr "--method"; method] else cmd in
  subprocess_run cmd (stage_root ++ [name]).

Definition backup_name (name timestamp : string) : string :=
  (name ++ ".bak-" ++ timestamp)%string.

Definition _replace_skill (dest_root : path) (name : string)
           (new_path : path) (keep_backup : bool) : M unit :=
  os_makedirs dest_root ;;
  let dest_path := dest_root ++ [name] in
  installed <- os_path_exists dest_path ;;
  backup_path <-
    (if installed : bool then
       timestamp <- time_strftime ;;
       let backup_path := dest_root ++ [backup_name name timestamp] in
       shutil_move dest_path backup_path ;;
       ret (Some backup_path)
     else ret None) ;;
  try_except
    (shutil_move new_path dest_path)
    (fun e =>
       match backup_path with
       | Some b =>
           have_backup <- os_path_exists b ;;
           if have_backup : bool then
             occupied <- os_path_exists dest_path ;;
             if negb occupied then shutil_move b dest_path else ret tt
           else ret tt
       | None => ret tt
       end ;;
       raise e) ;;
  match backup_path with
  | Some b => if negb keep_backup then shutil_rmtree b else ret tt
  | None => ret tt
  end.

(** The options of the [update] subcommand. *)
Record update_args : Type := UpdateArgs {
  arg_sources : option path;
  arg_all : bool;
  arg_name : option (list string);
  arg_installer : option string;
  arg_keep_backup : bool
}.

(** Lines 180 to 190 of [_update_one]: the candidate is put under
    [<tmp_root>/stage/<name>] and validated there. *)
Definition stage_candidate (name : string) (entry : json)
           (args : update_args) (tmp_root : path) : M path :=
  let stage_root := tmp_root ++ ["stage"] in
  os_makedirs stage_root ;;
  has_local <- lift (Py.contains "local_path" entry) ;;
  (if has_local : bool then
     local <- lift (Py.getitem entry "local_path") ;;
     match local with
     | JStr s =>
         let local_path := _expand_path s in
         _validate_skill_dir local_path ;;
         shutil_copytree local_path (stage_root ++ [name])
     | _ => raise (TypeError "expected str, bytes or os.PathLike object")
     end
   else
     installer_path <- _resolve_installer_path (arg_installer args) ;;
     _install_from_github entry name stage_root installer_path) ;;
  let new_path := stage_root ++ [name] in
  _validate_skill_dir new_path ;;
  ret new_path.

Definition _update_one (name : string) (entry : json) (dest_root : path)
           (args : update_args) : M bool :=
  tmp_root <- tempfile_mkdtemp "skill-update-" ;;
  try_finally
    (new_path <- stage_candidate name entry args tmp_root ;;
     let dest_path := dest_root ++ [name] in
     same <- _is_same_skill dest_path new_path ;;
     if same : bool then ret false
     else
       _replace_skill dest_root name new_path (arg_keep_backup args) ;;
       ret true)
    (shutil_rmtree tmp_root).

(** [data.get("skills", {})] of a loaded registry. *)
Definition skills_of (data : json) : list (string * json) :=
  match data with
  | JObj fields =>
      match assoc "skills" fields with
      | Some (JObj skills) => skills
      | _ => []
      end
  | _ => []
  end.

Definition has_key {V} (name : string) (d : list (string * V)) : bool :=
  match assoc name d with Some _ => true | None => false end.

Definition sources_path_of (sources : option path) (dest_root : path) : path :=
  match sources with
  | Some p => p
  | None => _default_sources dest_root
  end.

Definition msg_removed (name : string) : string :=
  ("已移除来源记录: " ++ name)%string.
Definition msg_none_removed : string := "未找到可移除的来源记录".

(** The loop of [_cmd_remove] over [args.name]: [skills] is the mapping
    inside [data], popped in place, and [removed] the names popped. *)
Definition remove_names (names : list string) (skills : list (string * json))
  : list (string * json) * list string :=
  fold_left
    (fun (acc : list (string * json) * list string) name =>
       let (skills, removed) := acc in
       if has_key name skills then (del_assoc name skills, removed ++ [name])
       else (skills, removed))
    names (skills, []).

Fixpoint for_each {A} (l : list A) (body : A -> M unit) : M unit :=
  match l with
  | [] => ret tt
  | a :: l' => body a ;; for_each l' body
  end.

Definition _cmd_remove (sources : option path) (names : list string)
           (dest_root : path) : M nat :=
  let sources_path := sources_path_of sources dest_root in
  data <- _load_sources sources_path ;;
  let (skills, removed) := remove_names names (skills_of data) in
  (if negb (PosixPath.is_nil removed) then
     let data :=
       match data with
       | JObj fields => JObj (set_assoc "skills" (JObj skills) fields)
       | _ => data
       end in
     _save_sources sources_path data ;;
     for_each removed (fun name => print (msg_removed name))
   else print msg_none_removed) ;;
  ret 0%nat.

(** [str(exc)] *)
Definition exn_str (e : exn) : string :=
  match e with
  | ValueError m | FileNotFoundError m | FileExistsError m | TypeError m
  | AttributeError m | KeyError m | OSError m | ShutilError m => m
  | JSONDecodeError => "Expecting value"
  | CalledProcessError _ => "Command returned non-zero exit status"
  end.

Definition msg_no_sources : string := "来源文件不存在，请先使用 add 写入来源记录".
Definition msg_no_targets : string := "请使用 --all 或 --name 指定更新范围".
Definition msg_missing (name : string) : string :=
  ("来源记录缺失，跳过: " ++ name)%string.
Definition msg_updated (name : string) : string := ("更新完成: " ++ name)%string.
Definition msg_up_to_date (name : string) : string := ("已是最新: " ++ name)%string.
Definition msg_failed (name : string) (e : exn) : string :=
  ("更新失败: " ++ name ++ " - " ++ exn_str e)%string.

(** The [try] statement in the loop of [_cmd_update]; the value is whether
    the update raised. *)
Definition update_and_report (name : string) (entry : json)
           (dest_root : path) (args : update_args) : M bool :=
  try_except
    (updated <- _update_one name entry dest_root args ;;
     (if updated : bool then print (msg_updated name)
      else print (msg_up_to_date name)) ;;
     ret false)
    (fun exc => eprint (msg_failed name exc) ;; ret true).

(** [skills.get(name)] *)
Definition entry_of (skills : list (string * json)) (name : string) : json :=
  match assoc name skills with
  | Some entry => entry
  | None => JNull
  end.

(** The loop [for name in targets], carrying [errors]. *)
Fixpoint update_loop (skills : list (string * json)) (dest_root : path)
         (args : update_args) (targets : list string) (errors : bool) : M bool :=
  match targets with
  | [] => ret errors
  | name :: rest =>
      let entry := entry_of skills name in
      if negb (Py.truthy entry)
      then update_loop skills dest_root args rest errors
      else
        failed <- update_and_report name entry dest_root args ;;
        update_loop skills dest_root args rest (errors || failed)
  end.

Definition targets_of (args : update_args) (skills : list (string * json))
  : list string :=
  if arg_all args then sorted (map fst skills)
  else match arg_name args with
       | Some names => names
       | None => []
       end.

Definition _cmd_update (args : update_args) (dest_root : path) : M nat :=
  let sources_path := sources_path_of (arg_sources args) dest_root in
  ex <- os_path_exists sources_path ;;
  if negb ex then eprint msg_no_sources ;; ret 1%nat
  else
    data <- _load_sources sources_path ;;
    let skills := skills_of data in
    let targets := targets_of args skills in
    if PosixPath.is_nil targets then eprint msg_no_targets ;; ret 1%nat
    else
      let missing := filter (fun name => negb (has_key name skills)) targets in
      for_each missing (fun name => eprint (msg_missing name)) ;;
      errors <- update_loop skills dest_root args targets false ;;
      ret (if errors : bool then 1%nat else 0%nat).

End Program.

(** ** Vocabulary of the statements *)

(** [m] leaves the observation [f] of the world as it found it, whatever it
    returns. *)
Definition preserves {A X : Type} (f : world -> X) (m : M A) : Prop :=
  forall w r w', m w = (r, w') -> f w' = f w.

(** Observations of the record of calls: the calls that satisfy [keep]. *)
Definition calls_where (keep : call -> bool) (w : world) : list call :=
  filter keep (calls w).

Definition writing_call (c : call) : bool :=
  match c with
  | C_open_w _ | C_makedirs _ | C_move _ _ | C_rmtree _ | C_copytree _ _
  | C_mkdtemp _ | C_run _ => true
  | _ => false
  end.

(** [m] relates the world it starts in to the world it ends in by [R]. *)
Definition keeps {A : Type} (R : world -> world -> Prop) (m : M A) : Prop :=
  forall w r w', m w = (r, w') -> R w w'.

(** The directory [t] under [td] stays a directory, and what lies outside
    it stays what it was. *)
Definition confined (td : path) (t : string) (w w' : world) : Prop :=
  forall es, fs_lookup (td ++ [t]) (fs w) = Some (Dir es) ->
             (exists es', fs_lookup (td ++ [t]) (fs w') = Some (Dir es'))
             /\ fs_unbind td t (fs w') = fs_unbind td t (fs w).

(** The final move fails: the operating system refuses it, or the move
    cannot be done on the tree the backup step left. *)
Definition final_move_fails (verdict : option exn) (dest_root : path)
           (name : string) (new_path : path) (w : world) (e : exn) : Prop :=
  verdict = Some e
  \/ (verdict = None
      /\ forall root1,
          move_tree (dest_root ++ [name])
                    (dest_root ++ [backup_name name (clock w)]) (fs w) = Ok root1 ->
          move_tree new_path (dest_root ++ [name]) root1 = Raise e).

Definition and_then (f g : node -> option node) (x : node) : option node :=
  match f x with
  | Some y => g y
  | None => None
  end.

Definition files_kept (n n' : node) : Prop :=
  forall q m, fs_lookup q n = Some m -> is_dir_entry m = false ->
              fs_lookup q n' = Some m.

Definition is_move (c : call) : bool :=
  match c with
  | C_move _ _ => true
  | _ => false
  end.

Definition staging_call (c : call) : bool :=
  match c with
  | C_copytree _ _ | C_run _ => true
  | _ => false
  end.

(** Names are unique within a directory, at every level: what every file
    system guarantees of a tree. *)
Fixpoint nodupb (l : list string) : bool :=
  match l with
  | [] => true
  | x :: l' => negb (PyStr.mem x l') && nodupb l'
  end.

Fixpoint well_formed (n : node) : bool :=
  match n with
  | Dir es =>
      nodupb (map fst es)
      && forallb (fun e => let '(_, child) := e in well_formed child) es
  | _ => true
  end.

(** The same tree enumerated in another order: the entries of a directory
    come permuted, at the top or anywhere below. *)
Inductive reorder : node -> node -> Prop :=
| reorder_refl : forall t, reorder t t
| reorder_here : forall es es', Permutation es es' -> reorder (Dir es) (Dir es')
| reorder_below : forall pre name child child' post,
    reorder child child' ->
    reorder (Dir (pre ++ (name, child) :: post))
            (Dir (pre ++ (name, child') :: post))
| reorder_trans : forall a b c, reorder a b -> reorder b c -> reorder a c.

Definition raised {A} (r : result A) : bool :=
  match r with
  | Raise _ => true
  | Ok _ => false
  end.

(** The updates a batch runs, in order: for each target whose entry the
    loop does not pass over, the name and what [_update_one] returns in the
    world the loop has reached by then. *)
Fixpoint attempts (E : env) (skills : list (string * json)) (dest_root : path)
         (args : update_args) (targets : list string) (w : world)
  : list (string * result bool) :=
  match targets with
  | [] => []
  | name :: rest =>
      let entry := entry_of skills name in
      if negb (Py.truthy entry) then attempts E skills dest_root args rest w
      else
        (name, fst (_update_one E name entry dest_root args w))
          :: attempts E skills dest_root args rest
               (snd (update_and_report E name entry dest_root args w))
  end.

(** The names of a batch that are not in the registry, as line 291 takes
    them. *)
Definition missing_names (skills : list (string * json)) (targets : list string)
  : list string :=
  filter (fun name => negb (has_key name skills)) targets.

(** ** A sample environment and sample worlds

    One concrete instance to run the program on: a digest that is the
    stream itself, a codec that knows three registry texts, a copy that
    duplicates the tree, an installer that is off line. *)

Module Sample.

Definition dq : string := String "034" EmptyString.

Definition quoted (s : string) : string := (dq ++ s ++ dq)%string.

Definition registry_text (skills_text : string) : string :=
  ("{" ++ quoted "version" ++ ": 1, " ++ quoted "skills" ++ ": {"
       ++ skills_text ++ "}}")%string.

Definition text_local : string :=
  registry_text (quoted "foo" ++ ": {" ++ quoted "local_path" ++ ": "
                        ++ quoted "/src/foo" ++ "}")%string.

Definition text_empty : string := registry_text "".

Definition text_empty_entry : string :=
  registry_text (quoted "foo" ++ ": {}")%string.

Definition registry (skills : list (string * json)) : json :=
  JObj [("version", JNum 1); ("skills", JObj skills)].

Definition local_entry : json := JObj [("local_path", JStr "/src/foo")].

Definition loads (content : list byte) : option json :=
  let s := string_of_list_byte content in
  if s =? text_local then Some (registry [("foo", local_entry)])
  else if s =? text_empty then Some (registry [])
  else if s =? text_empty_entry then Some (registry [("foo", JObj [])])
  else None.

Definition components (s : string) : path :=
  filter (fun c => negb (c =? "")) (PyStr.split_slash s).

Definition environment : env :=
  Env string_of_list_byte
      loads
      (fun _ => encode text_empty)
      (fun n => (n, None))
      (fun _ => (None, false))
      components
      ["home"]
      ["tmp"]
      "python3".

Definition skill : node :=
  Dir [("SKILL.md", File (encode "# foo"));
       ("a.txt", File (encode "hi"));
       ("docs", Dir [("b.txt", File (encode "b")); ("a.lnk", Symlink "../a.txt" LinkFile)])].

(** The same skill as another file system would enumerate it. *)
Definition skill_reordered : node :=
  Dir [("docs", Dir [("a.lnk", Symlink "../a.txt" LinkFile); ("b.txt", File (encode "b"))]);
       ("a.txt", File (encode "hi"));
       ("SKILL.md", File (encode "# foo"))].

Definition skill_old : node :=
  Dir [("SKILL.md", File (encode "# foo")); ("a.txt", File (encode "old"))].

Definition dest_root : path := ["home"; "skills"].

Definition root (text : string) (installed : list (string * node)) : node :=
  Dir [("tmp", Dir []);
       ("src", Dir [("foo", skill)]);
       ("home",
        Dir [("skills",
              Dir ((DEFAULT_SOURCES_NAME, File (encode text))
                     :: (".system",
                         Dir [("skill-installer",
                               Dir [("scripts",
                                     Dir [("install-skill-from-github.py",
                                           File (encode "#!python"))])])])
                     :: installed))])].

Definition start (tree : node) (faults : list (option exn)) : world :=
  World tree faults ["abc123"] "20240101000000" [] [] [].

Definition default_args : update_args :=
  UpdateArgs None false (Some ["foo"]) None false.

Definition all_args : update_args := UpdateArgs None true None None false.

Definition multi_path_fields : list (string * json) :=
  [("repo", JStr "CcooLcyy/skills"); ("path", JList [JStr "a"; JStr "b"])].

Definition escaping_fields : list (string * json) :=
  [("repo", JStr "CcooLcyy/skills"); ("path", JStr "../x")].

Definition refused_twice : list (option exn) :=
  [None; Some (OSError "final move refused"); Some (OSError "restore refused")].

End Sample.

(** ** The other commands: [add], [list] and [main]

    The functions below take the command line as [argparse] leaves it: one
    record for each subcommand.  An option that was not given is [None], and
    an option given as the empty string is as false as one not given,
    since the script tests them with [if args.x]. *)

Definition _codex_home (E : env) : path := codex_home E.

Definition _default_dest (E : env) : path := _codex_home E ++ ["skills"].

Definition DEFAULT_REPO : string := "CcooLcyy/skills".

(** [bool(args.x)] for an optional string. *)
Definition given (o : option string) : bool :=
  match o with
  | Some s => negb (s =? "")
  | None => false
  end.

Definition text_of (o : option string) : string :=
  match o with
  | Some s => s
  | None => ""
  end.

(** The options of the [add] subcommand; [--ref] and [--method] have
    defaults, so they are always strings. *)
Record add_args : Type := AddArgs {
  add_sources : option path;
  add_name : string;
  add_local_path : option string;
  add_repo : option string;
  add_url : option string;
  add_path : option string;
  add_ref : string;
  add_method : string
}.

Definition msg_repo_needs_path : string := "使用 --repo 时必须提供 --path".
Definition msg_default_needs_path : string :=
  ("使用默认仓库时必须提供 --path（默认: " ++ DEFAULT_REPO ++ "）")%string.
Definition msg_written (name : string) : string :=
  ("已写入来源记录: " ++ name)%string.

(** Lines 204 to 222 of [_cmd_add]: the record for the source the options
    describe.  A local path is recorded expanded, as the string of the
    absolute path. *)
Definition add_entry (E : env) (args : add_args) : M json :=
  if given (add_local_path args) then
    let local_path := _expand_path E (text_of (add_local_path args)) in
    _validate_skill_dir local_path ;;
    ret (JObj [("local_path", JStr (path_str local_path))])
  else if given (add_url args) then
    ret (JObj [("url", JStr (text_of (add_url args)));
               ("ref", JStr (add_ref args));
               ("method", JStr (add_method args))])
  else
    let repo := if given (add_repo args) then text_of (add_repo args)
                else DEFAULT_REPO in
    if negb (given (add_path args)) then
      if given (add_repo args) then raise (ValueError msg_repo_needs_path)
      else raise (ValueError msg_default_needs_path)
    else
      lift (_validate_repo_path (text_of (add_path args))) ;;
      ret (JObj [("repo", JStr repo);
                 ("path", JStr (text_of (add_path args)));
                 ("ref", JStr (add_ref args));
                 ("method", JStr (add_method args))]).

(** [data] with its [skills] mapping replaced: the mapping is mutated in
    place inside [data], so the other fields and the position of [skills]
    stay. *)
Definition with_skills (data : json) (skills : list (string * json)) : json :=
  match data with
  | JObj fields => JObj (set_assoc "skills" (JObj skills) fields)
  | _ => data
  end.

Definition _cmd_add (E : env) (args : add_args) (dest_root : path) : M nat :=
  let sources_path := sources_path_of (add_sources args) dest_root in
  data <- _load_sources E sources_path ;;
  entry <- add_entry E args ;;
  let data := with_skills data (set_assoc (add_name args) entry (skills_of data)) in
  _save_sources E sources_path data ;;
  print (msg_written (add_name args)) ;;
  ret 0%nat.

Definition msg_no_records : string := "暂无来源记录".

(** [str(v)] as an f-string takes it.  [repr] stands for the text Python
    gives numbers, lists and dicts. *)
Definition py_str (repr : json -> string) (v : json) : string :=
  match v with
  | JStr s => s
  | JNull => "None"
  | JBool true => "True"
  | JBool false => "False"
  | _ => repr v
  end.

(** [v.get(k, default)] *)
Definition get_or (v : json) (k : string) (default : json) : result json :=
  match v with
  | JObj fields => Ok (match assoc k fields with Some x => x | None => default end)
  | _ => Raise (AttributeError "object has no attribute 'get'")
  end.

(** [" ".join([item for item in [ref, method] if item])] *)
Definition suffix_of (ref method : json) : result string :=
  match all_strings (filter Py.truthy [ref; method]) with
  | Some items => Ok (String.concat " " items)
  | None => Raise (TypeError "sequence item: expected str instance")
  end.

Definition with_suffix (line suffix : string) : string :=
  if suffix =? "" then line else (line ++ " (" ++ suffix ++ ")")%string.

(** The body of the loop of [_cmd_list], up to the [print]. *)
Definition list_line (repr : json -> string) (name : string) (entry : json)
  : M string :=
  has_local <- lift (Py.contains "local_path" entry) ;;
  if has_local : bool then
    local <- lift (Py.getitem entry "local_path") ;;
    ret (name ++ ": 本地 " ++ py_str repr local)%string
  else
    has_url <- lift (Py.contains "url" entry) ;;
    if has_url : bool then
      ref <- lift (get_or entry "ref" (JStr "")) ;;
      method <- lift (get_or entry "method" (JStr "")) ;;
      suffix <- lift (suffix_of ref method) ;;
      url <- lift (Py.getitem entry "url") ;;
      ret (with_suffix (name ++ ": GitHub URL " ++ py_str repr url) suffix)
    else
      ref <- lift (get_or entry "ref" (JStr "")) ;;
      method <- lift (get_or entry "method" (JStr "")) ;;
      suffix <- lift (suffix_of ref method) ;;
      repo <- lift (Py.get entry "repo") ;;
      repo_path <- lift (Py.get entry "path") ;;
      ret (with_suffix (name ++ ": GitHub " ++ py_str repr repo ++ " "
                             ++ py_str repr repo_path) suffix).

Definition _cmd_list (E : env) (repr : json -> string) (sources : option path)
           (dest_root : path) : M nat :=
  let sources_path := sources_path_of sources dest_root in
  data <- _load_sources E sources_path ;;
  let skills := skills_of data in
  if PosixPath.is_nil skills then print msg_no_records ;; ret 0%nat
  else
    for_each (sorted (map fst skills))
             (fun name =>
                entry <- lift (Py.getitem (JObj skills) name) ;;
                line <- list_line repr name entry ;;
                print line) ;;
    ret 0%nat.

(** The subcommand [argparse] selected, with its options.  The parser
    requires one of the four, so the last lines of the [try] block of [main]
    ([parser.print_help()]) are not reached. *)
Inductive command : Type :=
| Cmd_add (args : add_args)
| Cmd_list (sources : option path)
| Cmd_remove (sources : option path) (names : list string)
| Cmd_update (args : update_args).

Definition msg_error (e : exn) : string := ("错误: " ++ exn_str e)%string.

(** Line 367 of [main]: the skills directory the commands work on. *)
Definition dest_root_of (E : env) (dest : option string) : path :=
  if given dest then _expand_path E (text_of dest) else _default_dest E.

(** The body of the [try] statement of [main]. *)
Definition dispatch (E : env) (repr : json -> string) (cmd : command)
           (dest_root : path) : M nat :=
  match cmd with
  | Cmd_add args => _cmd_add E args dest_root
  | Cmd_list sources => _cmd_list E repr sources dest_root
  | Cmd_remove sources names => _cmd_remove E sources names dest_root
  | Cmd_update args => _cmd_update E args dest_root
  end.

(** [main] from line 367 on. *)
Definition main (E : env) (repr : json -> string) (dest : option string)
           (cmd : command) : M nat :=
  let dest_root := dest_root_of E dest in
  try_except
    (dispatch E repr cmd dest_root)
    (fun exc => eprint (msg_error exc) ;; ret 1%nat).

(** ** Vocabulary of the further statements *)

(** An entry [_hash_directory] passes over: a directory whose name is in
    [IGNORED_DIRS], a link to a directory (listed among the directories by
    [os.walk] and not descended into), a file or link whose name is in
    [IGNORED_FILES] or ends with one of [IGNORED_SUFFIXES]. *)
Definition unseen (name : string) (child : node) : bool :=
  match child with
  | Dir _ => negb (keep_dir name)
  | Symlink _ LinkDir => true
  | _ => negb (keep_file name)
  end.

(** The tree with some of those entries taken out, at the top or anywhere
    below. *)
Inductive sheds : node -> node -> Prop :=
| sheds_refl : forall t, sheds t t
| sheds_here : forall pre name child post,
    unseen name child = true ->
    sheds (Dir (pre ++ (name, child) :: post)) (Dir (pre ++ post))
| sheds_below : forall pre name child child' post,
    sheds child child' ->
    sheds (Dir (pre ++ (name, child) :: post))
          (Dir (pre ++ (name, child') :: post))
| sheds_trans : forall a b c, sheds a b -> sheds b c -> sheds a c.

(** Two paths neither of which lies at or below the other. *)
Definition apart (p q : path) : Prop :=
  is_prefix p q = false /\ is_prefix q p = false.


(** The line an attempted update is reported with: on the standard output
    when [_update_one] returned, on the standard error when it raised. *)
Definition report_out (a : string * result bool) : list string :=
  match snd a with
  | Ok true => [msg_updated (fst a)]
  | Ok false => [msg_up_to_date (fst a)]
  | Raise _ => []
  end.

Definition report_err (a : string * result bool) : list string :=
  match snd a with
  | Raise e => [msg_failed (fst a) e]
  | Ok _ => []
  end.

(** An observation of the world that no library call other than
    [shutil.move] changes: the verdicts on the coming moves are such. *)
Definition still {X : Type} (f : world -> X) : Prop :=
  (forall c w, f (log c w) = f w)
  /\ (forall root w, f (set_fs root w) = f w)
  /\ (forall l w, f (set_temp_names l w) = f w).

(** An observation of the world that no library call changes: the output
    streams and the clock are such. *)
Definition silent {X : Type} (f : world -> X) : Prop :=
  (forall c w, f (log c w) = f w)
  /\ (forall root w, f (set_fs root w) = f w)
  /\ (forall l w, f (set_move_faults l w) = f w)
  /\ (forall l w, f (set_temp_names l w) = f w).

(** A path component that is a name: not empty, not [.] or [..], without
    a slash. *)
Definition plain (c : string) : bool :=
  negb (c =? "") && negb (c =? ".") && negb (c =? "..")
  && negb (PyStr.has_slash c).

(** The message [_cmd_add] refuses a repository source with, read off its
    options. *)
Definition add_refusal (args : add_args) : string :=
  if given (add_path args) then msg_repo_path
  else if given (add_repo args) then msg_repo_needs_path
  else msg_default_needs_path.

(** An option of the installer's command line, present when its value is
    not empty. *)
Definition flag (name value : string) : list json :=
  if value =? "" then [] else [JStr name; JStr value].

(** The command line for the source the options of [add] describe. *)
Definition added_command (E : env) (args : add_args) (name : string)
           (stage_root installer_path : path) : list json :=
  [JStr (sys_executable E); JStr (path_str installer_path);
   JStr "--dest"; JStr (path_str stage_root); JStr "--name"; JStr name]
    ++ (if given (add_url args) then [JStr "--url"; JStr (text_of (add_url args))]
        else [JStr "--repo";
              JStr (if given (add_repo args) then text_of (add_repo args)
                    else DEFAULT_REPO);
              JStr "--path"; JStr (text_of (add_path args))])
    ++ flag "--ref" (add_ref args) ++ flag "--method" (add_method args).

(** ** Sample trees and worlds for the further statements *)

Module Cases.

(** A skill as a working copy holds it, with the clutter the digest passes
    over, and the same skill without. *)
Definition skill_cluttered : node :=
  Dir [(".git", Dir [("HEAD", File (encode "ref: refs/heads/main"))]);
       ("SKILL.md", File (encode "# foo"));
       ("lib", Dir [("__pycache__", Dir [("m.cpython-312.pyc", File (encode "x"))]);
                    ("m.py", File (encode "pass"));
                    ("m.pyc", File (encode "y"))]);
       (".DS_Store", File (encode "z"));
       ("latest", Symlink "../releases/3" LinkDir)].

Definition skill_clean : node :=
  Dir [("SKILL.md", File (encode "# foo"));
       ("lib", Dir [("m.py", File (encode "pass"))])].

(** The clean skill as another file system would enumerate it. *)
Definition skill_clean_reordered : node :=
  Dir [("lib", Dir [("m.py", File (encode "pass"))]);
       ("SKILL.md", File (encode "# foo"))].

Definition holding (tree : node) : world :=
  Sample.start (Dir [("s", tree)]) [].

Definition holding_both (installed candidate : node) : world :=
  Sample.start (Dir [("installed", installed); ("staged", candidate)]) [].

(** A codec that writes the two registry texts of [Sample] and reads them
    back, the final newline included. *)
Fixpoint chomp (s : string) : string :=
  match s with
  | EmptyString => EmptyString
  | String c s' =>
      if s' =? String "010" EmptyString then String c EmptyString
      else String c (chomp s')
  end.

Definition loads (content : list byte) : option json :=
  Sample.loads (encode (chomp (string_of_list_byte content))).

Definition dumps (v : json) : list byte :=
  match skills_of v with
  | [] => encode Sample.text_empty
  | _ => encode Sample.text_local
  end.

Definition environment : env :=
  Env string_of_list_byte loads dumps
      (fun n => (n, None))
      (fun _ => (None, false))
      Sample.components
      ["home"]
      ["tmp"]
      "python3".

Definition sources_path : path := Sample.dest_root ++ [DEFAULT_SOURCES_NAME].

Definition add_local : add_args :=
  AddArgs None "foo" (Some "/src/foo") None None None "main" "auto".

Definition add_climbing : add_args :=
  AddArgs None "bar" None (Some "octo/skills") None (Some "a/../../b") "main" "auto".

Definition add_repo_path : add_args :=
  AddArgs None "bar" None None None (Some "skills/bar") "v2" "".

Definition remote_fields : list (string * json) :=
  [("repo", JStr DEFAULT_REPO); ("path", JStr "skills/bar"); ("ref", JStr "v2")].

Definition fields_foo : list (string * json) :=
  [("version", JNum 1); ("skills", JObj [("foo", Sample.local_entry)])].

End Cases.

(** * Properties *)

Unset Implicit Arguments.

Example normpath_ex1 : PosixPath.normpath "a/../../x" = "../x".
Proof. reflexivity. Qed.
Example normpath_ex2 : PosixPath.normpath "a//b/./c/.." = "a/b".
Proof. reflexivity. Qed.
Example normpath_ex3 : PosixPath.normpath "//a/../.." = "//".
Proof. reflexivity. Qed.
Example normpath_ex4 : PosixPath.normpath "..data" = "..data".
Proof. reflexivity. Qed.

(** ** Strings and [normpath] *)

Lemma split_slash_no_slash (s : string) :
  PyStr.has_slash s = false -> PyStr.split_slash s = [s].
Proof.
  induction s as [|c s IH]; simpl; [reflexivity|].
  intros H. apply orb_false_iff in H. destruct H as [Hc Hs].
  rewrite Hc, (IH Hs). reflexivity.
Qed.

Lemma split_slash_head_prefix (s c : string) :
  hd_error (PyStr.split_slash s) = Some c -> PyStr.startswith s c = true.
Proof.
  unfold PyStr.startswith. revert c.
  induction s as [|a s IH]; simpl; intros c H.
  - inversion H. reflexivity.
  - destruct (Ascii.eqb a "/").
    + inversion H. reflexivity.
    + destruct (PyStr.split_slash s) as [|w ws] eqn:Hsp; simpl in H; inversion H; subst.
      * simpl. destruct (ascii_dec a a); [destruct s; reflexivity | congruence].
      * simpl. destruct (ascii_dec a a); [|congruence].
        apply IH. reflexivity.
Qed.

(** A single name that is neither empty nor a dot name is its own normal
    form. *)
Lemma normpath_plain_name (name : string) :
  PyStr.has_slash name = false ->
  name <> "" -> name <> "." -> name <> ".." ->
  PosixPath.normpath name = name.
Proof.
  intros Hs H0 H1 H2.
  unfold PosixPath.normpath.
  apply String.eqb_neq in H0. apply String.eqb_neq in H1. apply String.eqb_neq in H2.
  rewrite H0.
  assert (Hi : PosixPath.initial_slashes name = 0).
  { unfold PosixPath.initial_slashes, PyStr.startswith.
    destruct name as [|a s]; [reflexivity|].
    simpl in Hs. apply orb_false_iff in Hs. destruct Hs as [Ha _].
    change (String.prefix "/" (String a s))
      with (if ascii_dec "/" a then String.prefix "" s else false).
    destruct (ascii_dec "/" a) as [<-|]; [discriminate Ha | reflexivity]. }
  rewrite Hi, (split_slash_no_slash _ Hs). simpl.
  unfold PosixPath.normpath_step. rewrite H0, H1, H2. simpl.
  change (PyStr.join_slash [name]) with name.
  rewrite H0. reflexivity.
Qed.

Lemma has_slash_app (a b : string) :
  PyStr.has_slash (a ++ b)%string = PyStr.has_slash a || PyStr.has_slash b.
Proof.
  induction a as [|c a IH]; simpl; [reflexivity|].
  rewrite IH. apply orb_assoc.
Qed.

(** ** [_validate_repo_path] *)

Lemma normpath_keeps_leading_parent (comps acc : list string) :
  hd_error acc = Some ".." ->
  hd_error (fold_left (PosixPath.normpath_step 0) comps acc) = Some "..".
Proof.
  revert acc. induction comps as [|c comps IH]; intros acc Hacc; simpl; [exact Hacc|].
  apply IH. unfold PosixPath.normpath_step.
  destruct ((c =? "") || (c =? ".")); [exact Hacc|].
  destruct acc as [|a acc]; [discriminate|]. inversion Hacc; subst a.
  destruct (negb (c =? "..")); simpl; [reflexivity|].
  destruct acc as [|b acc]; simpl; [reflexivity|].
  destruct (_ =? ".."); reflexivity.
Qed.

Lemma In_removelast {A} (x : A) (l : list A) : In x (removelast l) -> In x l.
Proof.
  induction l as [|a l IH]; simpl; [auto|].
  destruct l as [|b l]; [intros []|].
  intros [H|H]; [left; exact H | right; exact (IH H)].
Qed.

Lemma last_In {A} (l : list A) (d : A) : l <> [] -> In (last l d) l.
Proof.
  induction l as [|a l IH]; [congruence|]. intros _.
  destruct l as [|b l]; [left; reflexivity|].
  right. apply IH. discriminate.
Qed.

(** A path that climbs above its starting point has a normal form that
    starts with the parent directory. *)
Lemma climbs_above_normpath (comps acc : list string) :
  ~ In ".." acc ->
  climbs_above (List.length acc) comps = true ->
  hd_error (fold_left (PosixPath.normpath_step 0) comps acc) = Some "..".
Proof.
  revert acc. induction comps as [|c comps IH]; intros acc Hacc Hc; simpl in *;
    [discriminate|].
  unfold PosixPath.normpath_step.
  destruct ((c =? "") || (c =? ".")); [exact (IH _ Hacc Hc)|].
  destruct (String.eqb_spec c "..") as [->|Hne].
  - destruct acc as [|a acc].
    + simpl. apply normpath_keeps_leading_parent. reflexivity.
    + assert (Hl : (last (a :: acc) "" =? "..") = false).
      { apply String.eqb_neq. intros Heq. apply Hacc. rewrite <- Heq.
        apply last_In. discriminate. }
      cbn [negb orb andb PosixPath.is_nil Nat.eqb]. rewrite Hl.
      cbn [negb orb andb]. apply IH.
      * intros Hin. apply Hacc. exact (In_removelast _ _ Hin).
      * simpl in Hc.
        replace (List.length (removelast (a :: acc))) with (List.length acc);
          [exact Hc|].
        clear. revert a. induction acc as [|b acc IHa]; intros a; [reflexivity|].
        simpl in *. rewrite <- IHa. reflexivity.
  - cbn [negb orb]. apply IH.
    + intros Hin. apply in_app_or in Hin. destruct Hin as [Hin|[Heq|[]]];
        [exact (Hacc Hin) | congruence].
    + rewrite length_app. simpl. rewrite Nat.add_1_r. exact Hc.
Qed.

Lemma leaves_root_normpath (p : string) :
  PosixPath.isabs p = false -> leaves_root p = true ->
  PyStr.startswith (PosixPath.normpath p) ".." = true.
Proof.
  intros Habs Hl. unfold PosixPath.normpath.
  destruct (String.eqb_spec p "") as [->|Hne]; [discriminate Hl|].
  assert (Hi : PosixPath.initial_slashes p = 0).
  { unfold PosixPath.initial_slashes. unfold PosixPath.isabs in Habs.
    rewrite Habs. reflexivity. }
  rewrite Hi.
  pose proof (climbs_above_normpath (PyStr.split_slash p) [] (fun H => H) Hl) as Hh.
  destruct (fold_left (PosixPath.normpath_step 0) (PyStr.split_slash p) [])
    as [|c comps]; [discriminate|].
  inversion Hh; subst c. unfold PyStr.join_slash. simpl.
  destruct comps as [|c comps]; [reflexivity|].
  simpl. unfold PyStr.startswith.
  destruct (String.concat "/" (c :: comps)); reflexivity.
Qed.

Lemma validate_rejects_absolute (p : string) :
  PosixPath.isabs p = true -> _validate_repo_path p = Raise (ValueError msg_repo_path).
Proof. intros H. unfold _validate_repo_path. rewrite H. reflexivity. Qed.

Lemma validate_rejects_escaping (p : string) :
  escapes_root p -> _validate_repo_path p = Raise (ValueError msg_repo_path).
Proof.
  intros H. unfold _validate_repo_path.
  rewrite (split_slash_head_prefix _ _ H), orb_true_r. reflexivity.
Qed.

Lemma validate_rejects_climbing (p : string) :
  leaves_root p = true -> _validate_repo_path p = Raise (ValueError msg_repo_path).
Proof.
  intros H. unfold _validate_repo_path.
  destruct (PosixPath.isabs p) eqn:Habs; [reflexivity|].
  rewrite (leaves_root_normpath _ Habs H). reflexivity.
Qed.

(** C10.  [_validate_repo_path] raises exactly when the path is absolute or
    its normal form starts with the two characters [..]; hence a relative
    name that merely begins with two dots, such as [..data], does not escape
    the repository root and is rejected all the same. *)
Theorem validate_repo_path_raises_exactly :
  (forall p : string,
      _validate_repo_path p = Raise (ValueError msg_repo_path) <->
      (PosixPath.isabs p = true \/
       PyStr.startswith (PosixPath.normpath p) ".." = true))
  /\ (forall p : string,
         _validate_repo_path p = Ok tt <->
         ~ (PosixPath.isabs p = true \/
            PyStr.startswith (PosixPath.normpath p) ".." = true))
  /\ (forall rest : string,
         rest <> "" -> PyStr.has_slash rest = false ->
         let name := (".." ++ rest)%string in
         PosixPath.isabs name = false
         /\ ~ escapes_root name
         /\ _validate_repo_path name = Raise (ValueError msg_repo_path))
  /\ (PosixPath.isabs "..data" = false
      /\ ~ escapes_root "..data"
      /\ _validate_repo_path "..data" = Raise (ValueError msg_repo_path)).
Proof.
  split; [|split; [|split]].
  - intros p. unfold _validate_repo_path.
    destruct (PosixPath.isabs p); simpl.
    + split; auto.
    + destruct (PyStr.startswith (PosixPath.normpath p) ".."); split; intros H;
        auto; try discriminate.
      destruct H; discriminate.
  - intros p. unfold _validate_repo_path.
    destruct (PosixPath.isabs p); simpl.
    + split; [discriminate | intros H; exfalso; apply H; auto].
    + destruct (PyStr.startswith (PosixPath.normpath p) ".."); split; intros H;
        auto; try discriminate.
      * exfalso; apply H; auto.
      * intros [H1|H1]; discriminate.
  - intros rest Hne Hs name.
    assert (Hn : PosixPath.normpath name = name).
    { apply normpath_plain_name.
      - unfold name. rewrite has_slash_app, Hs. reflexivity.
      - unfold name. discriminate.
      - unfold name. discriminate.
      - unfold name. simpl. intros H. inversion H. contradiction. }
    split; [reflexivity|]. split.
    + unfold escapes_root. rewrite Hn.
      rewrite split_slash_no_slash.
      * simpl. intros H. inversion H. contradiction.
      * unfold name. rewrite has_slash_app, Hs. reflexivity.
    + unfold _validate_repo_path. rewrite Hn.
      unfold name. destruct rest; [contradiction | reflexivity].
  - split; [reflexivity|]. split.
    + unfold escapes_root. vm_compute. discriminate.
    + reflexivity.
Qed.

(** ** Reasoning about runs of the monad *)

Section Preserves.

Context {X : Type} (f : world -> X).

Lemma preserves_ret {A} (a : A) : preserves f (ret a).
Proof. intros w r w' H. inversion H. reflexivity. Qed.

Lemma preserves_raise {A} (e : exn) : preserves f (@raise A e).
Proof. intros w r w' H. inversion H. reflexivity. Qed.

Lemma preserves_lift {A} (x : result A) : preserves f (lift x).
Proof. intros w r w' H. inversion H. reflexivity. Qed.

Lemma preserves_bind {A B} (m : M A) (k : A -> M B) :
  preserves f m -> (forall a, preserves f (k a)) -> preserves f (bind m k).
Proof.
  intros Hm Hk w r w' H. unfold bind in H.
  destruct (m w) as [[a|e] w1] eqn:Em.
  - rewrite (Hk a _ _ _ H). exact (Hm _ _ _ Em).
  - inversion H; subst. exact (Hm _ _ _ Em).
Qed.

Lemma preserves_try_except {A} (m : M A) (h : exn -> M A) :
  preserves f m -> (forall e, preserves f (h e)) -> preserves f (try_except m h).
Proof.
  intros Hm Hh w r w' H. unfold try_except in H.
  destruct (m w) as [[a|e] w1] eqn:Em.
  - inversion H; subst. exact (Hm _ _ _ Em).
  - rewrite (Hh e _ _ _ H). exact (Hm _ _ _ Em).
Qed.

Lemma preserves_try_finally {A} (m : M A) (c : M unit) :
  preserves f m -> preserves f c -> preserves f (try_finally m c).
Proof.
  intros Hm Hc w r w' H. unfold try_finally in H.
  destruct (m w) as [r1 w1] eqn:Em.
  destruct (c w1) as [[u|e] w2] eqn:Ec; inversion H; subst;
    rewrite (Hc _ _ _ Ec); exact (Hm _ _ _ Em).
Qed.

Lemma preserves_for_each {A} (l : list A) (body : A -> M unit) :
  (forall a, preserves f (body a)) -> preserves f (for_each l body).
Proof.
  intros Hb. induction l as [|a l IH]; simpl.
  - apply preserves_ret.
  - apply preserves_bind; auto.
Qed.

End Preserves.

Lemma calls_where_log (keep : call -> bool) (c : call) (w : world) :
  keep c = false -> calls_where keep (log c w) = calls_where keep w.
Proof.
  intros H. unfold calls_where, log. simpl.
  rewrite filter_app. simpl. rewrite H. apply app_nil_r.
Qed.

Ltac run_step H :=
  match type of H with
  | (let (_, _) := ?x in _) = _ => destruct x eqn:?
  | match ?x with _ => _ end = _ => destruct x eqn:?
  end.

Ltac run_inv H := repeat (run_step H); inversion H; subst; clear H.

Section CallFrames.

Variable E : env.
Variable keep : call -> bool.

Lemma stat_exists_calls p :
  keep (C_stat p) = false -> preserves (calls_where keep) (os_path_exists p).
Proof. intros K w r w' H. inversion H. now apply calls_where_log. Qed.

Lemma stat_isdir_calls p :
  keep (C_stat p) = false -> preserves (calls_where keep) (os_path_isdir p).
Proof. intros K w r w' H. inversion H. now apply calls_where_log. Qed.

Lemma stat_isfile_calls p :
  keep (C_stat p) = false -> preserves (calls_where keep) (os_path_isfile p).
Proof. intros K w r w' H. inversion H. now apply calls_where_log. Qed.

Lemma makedirs_calls p :
  keep (C_makedirs p) = false -> preserves (calls_where keep) (os_makedirs p).
Proof.
  intros K w r w' H. unfold os_makedirs in H. run_inv H;
    unfold calls_where; simpl; apply (calls_where_log keep _ w K).
Qed.

Lemma mkdtemp_calls prefix :
  keep (C_mkdtemp prefix) = false ->
  preserves (calls_where keep) (tempfile_mkdtemp E prefix).
Proof.
  intros K w r w' H. unfold tempfile_mkdtemp in H. run_inv H;
    unfold calls_where; simpl; apply (calls_where_log keep _ w K).
Qed.

Lemma rmtree_calls p :
  keep (C_rmtree p) = false -> preserves (calls_where keep) (shutil_rmtree p).
Proof.
  intros K w r w' H. unfold shutil_rmtree in H. run_inv H;
    unfold calls_where; simpl; apply (calls_where_log keep _ w K).
Qed.

Lemma copytree_calls src dst :
  keep (C_copytree src dst) = false ->
  preserves (calls_where keep) (shutil_copytree E src dst).
Proof.
  intros K w r w' H. unfold shutil_copytree in H. run_inv H;
    unfold calls_where; simpl; apply (calls_where_log keep _ w K).
Qed.

Lemma move_calls src dst :
  keep (C_move src dst) = false ->
  preserves (calls_where keep) (shutil_move src dst).
Proof.
  intros K w r w' H. unfold shutil_move in H. run_inv H;
    unfold calls_where; simpl; apply (calls_where_log keep _ w K).
Qed.

Lemma run_calls cmd out :
  keep (C_run cmd) = false ->
  preserves (calls_where keep) (subprocess_run E cmd out).
Proof.
  intros K w r w' H. unfold subprocess_run in H. run_inv H;
    unfold calls_where; simpl; try apply (calls_where_log keep _ w K);
    destruct o as [tree|]; try destruct (fs_bind _ _ tree _);
    apply (calls_where_log keep _ w K).
Qed.

Lemma json_load_calls p :
  keep (C_open_r p) = false -> preserves (calls_where keep) (json_load E p).
Proof.
  intros K w r w' H. unfold json_load in H. run_inv H;
    unfold calls_where; simpl; apply (calls_where_log keep _ w K).
Qed.

Lemma write_file_calls p data :
  keep (C_open_w p) = false -> preserves (calls_where keep) (write_file p data).
Proof.
  intros K w r w' H. unfold write_file in H. run_inv H;
    unfold calls_where; simpl; apply (calls_where_log keep _ w K).
Qed.

Lemma walk_calls p :
  keep (C_walk p) = false -> preserves (calls_where keep) (_hash_directory E p).
Proof. intros K w r w' H. inversion H. now apply calls_where_log. Qed.

Lemma strftime_calls : preserves (calls_where keep) time_strftime.
Proof. intros w r w' H. inversion H. reflexivity. Qed.

Lemma print_calls line : preserves (calls_where keep) (print line).
Proof. intros w r w' H. inversion H. reflexivity. Qed.

Lemma eprint_calls line : preserves (calls_where keep) (eprint line).
Proof. intros w r w' H. inversion H. reflexivity. Qed.

End CallFrames.

Section LookFrames.

Variable E : env.

(** Calls that only look change nothing but the record of calls. *)
Context {X : Type} (f : world -> X).
Hypothesis f_log : forall c w, f (log c w) = f w.

Lemma stat_exists_look p : preserves f (os_path_exists p).
Proof. intros w r w' H. inversion H. apply f_log. Qed.

Lemma stat_isdir_look p : preserves f (os_path_isdir p).
Proof. intros w r w' H. inversion H. apply f_log. Qed.

Lemma stat_isfile_look p : preserves f (os_path_isfile p).
Proof. intros w r w' H. inversion H. apply f_log. Qed.

Lemma json_load_look p : preserves f (json_load E p).
Proof. intros w r w' H. unfold json_load in H. run_inv H; apply f_log. Qed.

Lemma walk_look p : preserves f (_hash_directory E p).
Proof. intros w r w' H. inversion H. apply f_log. Qed.

Lemma strftime_look : preserves f time_strftime.
Proof. intros w r w' H. inversion H. reflexivity. Qed.

End LookFrames.

Lemma print_tree {X} (obs : node -> X) line :
  preserves (fun w => obs (fs w)) (print line).
Proof. intros w r w' H. inversion H. reflexivity. Qed.

Lemma eprint_tree {X} (obs : node -> X) line :
  preserves (fun w => obs (fs w)) (eprint line).
Proof. intros w r w' H. inversion H. reflexivity. Qed.

Create HintDb frame.

#[export] Hint Resolve
  stat_exists_calls stat_isdir_calls stat_isfile_calls makedirs_calls
  mkdtemp_calls rmtree_calls copytree_calls move_calls run_calls
  json_load_calls write_file_calls walk_calls strftime_calls print_calls
  eprint_calls
  stat_exists_look stat_isdir_look stat_isfile_look json_load_look walk_look
  strftime_look print_tree eprint_tree : frame.

#[export] Hint Extern 1 (_ = false) => reflexivity : frame.
#[export] Hint Extern 1 (forall (c : call) (w : world), _ = _) =>
  intros; reflexivity : frame.

(** Walk through a program, leaving the calls that need an argument. *)
Ltac frame :=
  repeat first
    [ apply preserves_ret
    | apply preserves_raise
    | apply preserves_lift
    | apply preserves_bind; [|intros ?]
    | apply preserves_try_except; [|intros ?]
    | apply preserves_try_finally
    | apply preserves_for_each; intros ?
    | match goal with
      | |- preserves _ (if ?b then _ else _) => destruct b
      | |- preserves _ (match ?x with _ => _ end) => destruct x
      | |- preserves _ (let (_, _) := ?x in _) => destruct x
      end
    | solve [eauto with frame] ].

Lemma load_sources_look (E : env) {X} (f : world -> X) (p : path) :
  (forall c w, f (log c w) = f w) -> preserves f (_load_sources E p).
Proof. intros Hf. unfold _load_sources. frame. Qed.

Lemma load_sources_calls (E : env) (keep : call -> bool) (p : path) :
  keep (C_stat p) = false -> keep (C_open_r p) = false ->
  preserves (calls_where keep) (_load_sources E p).
Proof. intros K1 K2. unfold _load_sources. frame. Qed.

(** ** [_is_same_skill] *)

(** C9.  When the installed path does not exist or is not a directory,
    [_is_same_skill] answers [False] after the single [isdir] probe: no walk
    of either path is started, so no fingerprint of the missing installed
    path is ever computed, and the tree is left as it was. *)
Theorem is_same_skill_without_installed
        (E : env) (dest_path new_path : path) (w : world) :
  (fs_lookup dest_path (fs w) = None \/
   exists n, fs_lookup dest_path (fs w) = Some n /\ is_dir_entry n = false) ->
  exists w',
    _is_same_skill E dest_path new_path w = (Ok false, w')
    /\ calls w' = calls w ++ [C_stat dest_path]
    /\ (forall p, ~ In (C_walk p) (calls w) -> ~ In (C_walk p) (calls w'))
    /\ fs w' = fs w.
Proof.
  intros H.
  assert (Hd : node_isdir (fs_lookup dest_path (fs w)) = false).
  { destruct H as [-> | (n & -> & Hn)]; [reflexivity | exact Hn]. }
  exists (log (C_stat dest_path) w).
  unfold _is_same_skill, bind, os_path_isdir. rewrite Hd. simpl.
  repeat split.
  intros p Hp Hin. apply in_app_or in Hin. destruct Hin as [Hin | [Hin | []]].
  - exact (Hp Hin).
  - discriminate Hin.
Qed.

(** ** [_cmd_remove] *)

Lemma remove_names_absent (names : list string) (skills : list (string * json)) removed :
  (forall name, In name names -> has_key name skills = false) ->
  fold_left
    (fun (acc : list (string * json) * list string) name =>
       let (skills, removed) := acc in
       if has_key name skills then (del_assoc name skills, removed ++ [name])
       else (skills, removed))
    names (skills, removed) = (skills, removed).
Proof.
  induction names as [|name names IH]; intros H; simpl; [reflexivity|].
  rewrite (H name (or_introl eq_refl)).
  apply IH. intros n Hn. apply H. right. exact Hn.
Qed.

(** C8.  When the registry loads and none of the names given to [remove] is
    a key of its [skills] mapping, the command reports that no record was
    removed, returns 0, and does not rewrite the registry file: no call that
    writes is issued and the tree, the file included, is what it was. *)
Theorem cmd_remove_absent_names_untouched
        (E : env) (sources : option path) (names : list string)
        (dest_root : path) (w w1 : world) (data : json) :
  _load_sources E (sources_path_of sources dest_root) w = (Ok data, w1) ->
  (forall name, In name names -> has_key name (skills_of data) = false) ->
  exists w',
    _cmd_remove E sources names dest_root w = (Ok 0, w')
    /\ stdout w' = stdout w ++ [msg_none_removed]
    /\ fs w' = fs w
    /\ fs_lookup (sources_path_of sources dest_root) (fs w')
       = fs_lookup (sources_path_of sources dest_root) (fs w)
    /\ calls_where writing_call w' = calls_where writing_call w.
Proof.
  intros Hload Habs.
  unfold _cmd_remove, bind. rewrite Hload.
  unfold remove_names. rewrite (remove_names_absent _ _ _ Habs). simpl.
  eexists. split; [reflexivity|]. simpl.
  pose proof (@load_sources_look E _ fs _ (fun _ _ => eq_refl) _ _ _ Hload) as Hfs.
  pose proof (@load_sources_look E _ stdout _ (fun _ _ => eq_refl) _ _ _ Hload) as Hout.
  rewrite Hout, Hfs. repeat split.
  apply (@load_sources_calls E writing_call _ eq_refl eq_refl _ _ _ Hload).
Qed.

(** ** Directory listings *)

Section Assoc.

Context {V : Type}.
Implicit Types (es : list (string * V)) (k : string) (v : V).

Lemma assoc_set_same k v es : assoc k (set_assoc k v es) = Some v.
Proof.
  induction es as [|[k' x] es IH]; simpl.
  - rewrite String.eqb_refl. reflexivity.
  - destruct (k' =? k) eqn:Ek; simpl; rewrite Ek; [reflexivity | exact IH].
Qed.

Lemma assoc_set_other k k' v es :
  k <> k' -> assoc k' (set_assoc k v es) = assoc k' es.
Proof.
  intros Hne. induction es as [|[k0 x] es IH]; simpl.
  - apply String.eqb_neq in Hne. rewrite Hne. reflexivity.
  - destruct (k0 =? k) eqn:Ek; simpl.
    + apply String.eqb_eq in Ek. subst k0.
      apply String.eqb_neq in Hne. rewrite Hne. reflexivity.
    + destruct (k0 =? k'); [reflexivity | exact IH].
Qed.

Lemma assoc_del_same k es : assoc k (del_assoc k es) = None.
Proof.
  induction es as [|[k' x] es IH]; simpl; [reflexivity|].
  destruct (k' =? k) eqn:Ek; simpl; [exact IH|].
  rewrite Ek. exact IH.
Qed.

Lemma assoc_del_other k k' es :
  k <> k' -> assoc k' (del_assoc k es) = assoc k' es.
Proof.
  intros Hne. induction es as [|[k0 x] es IH]; simpl; [reflexivity|].
  destruct (k0 =? k) eqn:Ek; simpl.
  - apply String.eqb_eq in Ek. subst k0.
    apply String.eqb_neq in Hne. rewrite Hne. exact IH.
  - destruct (k0 =? k'); [reflexivity | exact IH].
Qed.

Lemma set_assoc_id k v es : assoc k es = Some v -> set_assoc k v es = es.
Proof.
  induction es as [|[k' x] es IH]; simpl; [discriminate|].
  destruct (k' =? k) eqn:Ek; intros H.
  - inversion H. reflexivity.
  - rewrite (IH H). reflexivity.
Qed.

Lemma del_assoc_absent k es : assoc k es = None -> del_assoc k es = es.
Proof.
  induction es as [|[k' x] es IH]; simpl; [reflexivity|].
  destruct (k' =? k) eqn:Ek; [discriminate|].
  intros H. simpl. rewrite (IH H). reflexivity.
Qed.

Lemma del_set_assoc k v es : del_assoc k (set_assoc k v es) = del_assoc k es.
Proof.
  induction es as [|[k' x] es IH]; simpl.
  - rewrite String.eqb_refl. reflexivity.
  - destruct (k' =? k) eqn:Ek; simpl; rewrite Ek; simpl;
      [reflexivity | rewrite IH; reflexivity].
Qed.

End Assoc.

(** ** Looking up and altering the tree *)

Lemma fs_lookup_app (p q : path) (n : node) :
  fs_lookup (p ++ q) n =
  match fs_lookup p n with
  | Some m => fs_lookup q m
  | None => None
  end.
Proof.
  revert n. induction p as [|c p IH]; intros n; simpl; [reflexivity|].
  destruct n as [| |es]; try reflexivity.
  destruct (assoc c es); [apply IH | reflexivity].
Qed.

Lemma fs_alter_app (p q : path) (f : node -> option node) (n : node) :
  fs_alter (p ++ q) f n = fs_alter p (fs_alter q f) n.
Proof.
  revert n. induction p as [|c p IH]; intros n; simpl; [reflexivity|].
  destruct n as [| |es]; try reflexivity.
  destruct (assoc c es); [rewrite IH; reflexivity | reflexivity].
Qed.

(** An alteration succeeds exactly when the place exists and [f] accepts
    it; the place then holds the result of [f]. *)
Lemma fs_alter_spec (p : path) (f : node -> option node) (n n' : node) :
  fs_alter p f n = Some n' ->
  exists m m', fs_lookup p n = Some m /\ f m = Some m'
               /\ forall q, fs_lookup (p ++ q) n' = fs_lookup q m'.
Proof.
  revert n n'. induction p as [|c p IH]; intros n n' H; simpl in *.
  - exists n, n'. auto.
  - destruct n as [| |es]; try discriminate.
    destruct (assoc c es) as [child|] eqn:Ec; try discriminate.
    destruct (fs_alter p f child) as [child'|] eqn:Ea; try discriminate.
    inversion H; subst. destruct (IH _ _ Ea) as (m & m' & Hl & Hf & Hq).
    exists m, m'. repeat split; auto.
    intros q. rewrite assoc_set_same. apply Hq.
Qed.

Lemma fs_alter_defined (p : path) (f : node -> option node) (n m m' : node) :
  fs_lookup p n = Some m -> f m = Some m' -> exists n', fs_alter p f n = Some n'.
Proof.
  revert n. induction p as [|c p IH]; intros n Hl Hf; simpl in *.
  - inversion Hl; subst. eauto.
  - destruct n as [| |es]; try discriminate.
    destruct (assoc c es) as [child|]; try discriminate.
    destruct (IH _ Hl Hf) as [child' ->]. eauto.
Qed.

Lemma fs_alter_ext (p : path) (f g : node -> option node) (n m : node) :
  fs_lookup p n = Some m -> f m = g m -> fs_alter p f n = fs_alter p g n.
Proof.
  revert n. induction p as [|c p IH]; intros n Hl Hfg; simpl in *.
  - inversion Hl; subst. exact Hfg.
  - destruct n as [| |es]; try discriminate.
    destruct (assoc c es) as [child|]; try discriminate.
    rewrite (IH _ Hl Hfg). reflexivity.
Qed.

Lemma fs_alter_id (p : path) (n m : node) :
  fs_lookup p n = Some m -> fs_alter p (fun x => Some x) n = Some n.
Proof.
  revert n. induction p as [|c p IH]; intros n Hl; simpl in *.
  - reflexivity.
  - destruct n as [| |es]; try discriminate.
    destruct (assoc c es) as [child|] eqn:Ec; try discriminate.
    rewrite (IH _ Hl), (set_assoc_id _ _ _ Ec). reflexivity.
Qed.

Lemma fs_alter_alter (p : path) (f g : node -> option node) (n n1 : node) :
  fs_alter p f n = Some n1 -> fs_alter p g n1 = fs_alter p (and_then f g) n.
Proof.
  revert n n1. induction p as [|c p IH]; intros n n1 H; simpl in *.
  - unfold and_then. rewrite H. reflexivity.
  - destruct n as [| |es]; try discriminate.
    destruct (assoc c es) as [child|] eqn:Ec; try discriminate.
    destruct (fs_alter p f child) as [child'|] eqn:Ea; try discriminate.
    inversion H; subst. simpl. rewrite assoc_set_same.
    rewrite (IH _ _ Ea).
    destruct (fs_alter p (and_then f g) child) as [c2|]; [|reflexivity].
    f_equal. f_equal.
    clear. induction es as [|[k x] es IHes]; simpl.
    + rewrite String.eqb_refl. reflexivity.
    + destruct (k =? c) eqn:Ek; simpl; rewrite Ek; [reflexivity|].
      rewrite IHes. reflexivity.
Qed.

Lemma fs_lookup_child (p : path) (b : string) (q : path) (n : node) es :
  fs_lookup p n = Some (Dir es) ->
  fs_lookup (p ++ b :: q) n =
  match assoc b es with
  | Some child => fs_lookup q child
  | None => None
  end.
Proof. intros H. rewrite fs_lookup_app, H. reflexivity. Qed.

Lemma fs_lookup_parent (p : path) (a : string) (n m : node) :
  fs_lookup (p ++ [a]) n = Some m ->
  exists es, fs_lookup p n = Some (Dir es) /\ assoc a es = Some m.
Proof.
  rewrite fs_lookup_app. destruct (fs_lookup p n) as [[| |es]|]; simpl; try discriminate.
  destruct (assoc a es) as [child|] eqn:Ea; try discriminate.
  intros H. inversion H; subst. eauto.
Qed.

Lemma fs_bind_spec (p : path) (a : string) (v : node) (n n' : node) :
  fs_bind p a v n = Some n' ->
  exists es, fs_lookup p n = Some (Dir es)
             /\ fs_lookup p n' = Some (Dir (set_assoc a v es)).
Proof.
  intros H. destruct (fs_alter_spec _ _ _ _ H) as (m & m' & Hl & Hf & Hq).
  destruct m as [| |es]; try discriminate. inversion Hf; subst.
  exists es. split; [exact Hl|]. specialize (Hq []). rewrite app_nil_r in Hq. exact Hq.
Qed.

Lemma fs_unbind_spec (p : path) (a : string) (n n' : node) :
  fs_unbind p a n = Some n' ->
  exists es, fs_lookup p n = Some (Dir es)
             /\ fs_lookup p n' = Some (Dir (del_assoc a es)).
Proof.
  intros H. destruct (fs_alter_spec _ _ _ _ H) as (m & m' & Hl & Hf & Hq).
  destruct m as [| |es]; try discriminate. inversion Hf; subst.
  exists es. split; [exact Hl|]. specialize (Hq []). rewrite app_nil_r in Hq. exact Hq.
Qed.

Lemma fs_bind_defined (p : path) (a : string) (v : node) (n : node) es :
  fs_lookup p n = Some (Dir es) -> exists n', fs_bind p a v n = Some n'.
Proof. intros H. eapply fs_alter_defined; [exact H | reflexivity]. Qed.

Lemma fs_unbind_defined (p : path) (a : string) (n : node) es :
  fs_lookup p n = Some (Dir es) -> exists n', fs_unbind p a n = Some n'.
Proof. intros H. eapply fs_alter_defined; [exact H | reflexivity]. Qed.

Lemma fs_makedirs_existing (p : path) (n m : node) :
  fs_lookup p n = Some m -> is_dir_entry m = true -> fs_makedirs p n = Some n.
Proof.
  revert n. induction p as [|c p IH]; intros n Hl Hd; simpl in *.
  - inversion Hl; subst. rewrite Hd. reflexivity.
  - destruct n as [| |es]; try discriminate.
    destruct (assoc c es) as [child|] eqn:Ec; try discriminate.
    rewrite (IH _ Hl Hd), (set_assoc_id _ _ _ Ec). reflexivity.
Qed.

Lemma is_prefix_siblings (d : path) (a b : string) :
  a <> b -> is_prefix (d ++ [a]) (d ++ [b]) = false.
Proof.
  intros Hab. induction d as [|c d IH]; simpl.
  - apply String.eqb_neq in Hab. rewrite Hab. reflexivity.
  - rewrite String.eqb_refl. exact IH.
Qed.

Lemma dirname_join (d : path) (a : string) : dirname (d ++ [a]) = d.
Proof. apply removelast_last. Qed.

Lemma basename_join (d : path) (a : string) : basename (d ++ [a]) = a.
Proof. apply last_last. Qed.

(** Renaming [a] to a free name [b] of the same directory. *)
Lemma move_tree_rename (d : path) (a b : string) (root old : node) :
  fs_lookup (d ++ [a]) root = Some old ->
  fs_lookup (d ++ [b]) root = None ->
  a <> b ->
  exists root',
    move_tree (d ++ [a]) (d ++ [b]) root = Ok root'
    /\ fs_lookup (d ++ [a]) root' = None
    /\ fs_lookup (d ++ [b]) root' = Some old
    /\ (forall c q, c <> a -> c <> b ->
                    fs_lookup (d ++ c :: q) root' = fs_lookup (d ++ c :: q) root).
Proof.
  intros Ha Hb Hab.
  destruct (fs_lookup_parent _ _ _ _ Ha) as (es & Hd & Hes).
  destruct (@fs_unbind_defined d a root es Hd) as [root1 H1].
  destruct (@fs_unbind_spec d a root root1 H1) as (es1 & Hd1 & Hd1').
  rewrite Hd in Hd1. inversion Hd1; subst es1. clear Hd1.
  destruct (@fs_bind_defined d b old root1 _ Hd1') as [root3 H3].
  destruct (@fs_bind_spec d b old root1 root3 H3) as (es3 & Hd3 & Hd3').
  rewrite Hd1' in Hd3. inversion Hd3; subst es3. clear Hd3.
  exists root3. split.
  - unfold move_tree.
    assert (Hpe : path_eqb (d ++ [a]) (d ++ [b]) = false).
    { unfold path_eqb. destruct (list_eq_dec string_dec _ _) as [Heq|]; [|reflexivity].
      apply app_inv_head in Heq. inversion Heq. contradiction. }
    rewrite Hpe, Hb. simpl. rewrite Ha.
    rewrite (@is_prefix_siblings d a b Hab).
    rewrite !dirname_join, !basename_join, H1.
    assert (Hp : match old with
                 | Dir _ => fs_makedirs d root1
                 | _ => Some root1
                 end = Some root1).
    { destruct old; try reflexivity.
      apply (@fs_makedirs_existing d root1 _ Hd1'). reflexivity. }
    rewrite Hp, H3. destruct old; rewrite ?Hb; reflexivity.
  - assert (Hba : b <> a) by congruence.
    repeat split.
    + rewrite (@fs_lookup_child d a [] root3 _ Hd3').
      rewrite (assoc_set_other _ _ _ _ Hba), assoc_del_same. reflexivity.
    + rewrite (@fs_lookup_child d b [] root3 _ Hd3').
      rewrite assoc_set_same. reflexivity.
    + intros c q Hca Hcb.
      rewrite (@fs_lookup_child d c q root3 _ Hd3'), (@fs_lookup_child d c q root _ Hd).
      rewrite assoc_set_other by congruence.
      rewrite assoc_del_other by congruence. reflexivity.
Qed.

(** ** [_replace_skill] *)

Lemma string_length_append (a b : string) :
  String.length (a ++ b) = String.length a + String.length b.
Proof. induction a as [|c a IH]; simpl; [reflexivity | rewrite IH; reflexivity]. Qed.

Lemma backup_name_fresh (name timestamp : string) :
  name <> backup_name name timestamp.
Proof.
  intros H. apply (f_equal String.length) in H.
  unfold backup_name in H. rewrite !string_length_append in H. simpl in H. lia.
Qed.

(** C2, as the code has it.  An installed copy existed and was moved aside
    to a backup path that was free, and the final move then failed leaving
    the target vacant.  The restoring move of the backup to the target is
    then issued.  When that move is not refused, the target holds the
    pre-update copy again, the backup path is free again, and the failure of
    the final move is the one raised.  When the restoring move is refused
    too, its own failure is raised and the old copy stays at the backup
    path. *)
Theorem replace_skill_rollback
        (dest_root : path) (name : string) (new_path : path)
        (keep_backup : bool) (w : world) (old : node) (e : exn)
        (final_verdict : option exn) (later : list (option exn)) :
  let dest_path := dest_root ++ [name] in
  let backup_path := dest_root ++ [backup_name name (clock w)] in
  fs_lookup dest_path (fs w) = Some old ->
  node_exists (Some old) = true ->
  fs_lookup backup_path (fs w) = None ->
  move_faults w = None :: final_verdict :: later ->
  final_move_fails final_verdict dest_root name new_path w e ->
  exists w',
    _replace_skill dest_root name new_path keep_backup w
    = (Raise (match hd None later with None => e | Some e' => e' end), w')
    /\ calls w' = calls w ++ [C_makedirs dest_root; C_stat dest_path;
                              C_move dest_path backup_path;
                              C_move new_path dest_path;
                              C_stat backup_path; C_stat dest_path;
                              C_move backup_path dest_path]
    /\ match hd None later with
       | None =>
           fs_lookup dest_path (fs w') = Some old
           /\ fs_lookup backup_path (fs w') = None
       | Some _ =>
           fs_lookup dest_path (fs w') = None
           /\ fs_lookup backup_path (fs w') = Some old
       end.
Proof.
  intros dest_path backup_path Hold Hex Hfree Hfaults Hfail.
  pose proof (@backup_name_fresh name (clock w)) as Hne.
  destruct (fs_lookup_parent _ _ _ _ Hold) as (es & Hroot & _).
  destruct (@move_tree_rename dest_root name (backup_name name (clock w))
              (fs w) old Hold Hfree Hne)
    as (root1 & Hmv1 & Hd1 & Hb1 & _).
  assert (Hne' : backup_name name (clock w) <> name) by congruence.
  destruct (@move_tree_rename dest_root (backup_name name (clock w)) name
              root1 old Hb1 Hd1 Hne')
    as (root2 & Hmv2 & Hb2 & Hd2 & _).
  fold dest_path backup_path in Hmv1, Hd1, Hb1, Hmv2, Hb2, Hd2.
  unfold _replace_skill, bind, try_except.
  unfold os_makedirs. simpl.
  rewrite (@fs_makedirs_existing dest_root (fs w) _ Hroot eq_refl).
  simpl. fold dest_path. rewrite Hold, Hex. fold backup_path.
  unfold shutil_move at 1. simpl. rewrite Hfaults. simpl.
  fold dest_path backup_path. rewrite Hmv1.
  unfold ret at 1.
  unfold shutil_move at 1. simpl.
  assert (Hfinal :
            match final_verdict with
            | Some e0 => Some e0
            | None => match move_tree new_path dest_path root1 with
                      | Ok _ => None
                      | Raise e0 => Some e0
                      end
            end = Some e).
  { destruct Hfail as [-> | [-> Hnat]]; [reflexivity|].
    unfold dest_path. rewrite (Hnat _ Hmv1). reflexivity. }
  destruct final_verdict as [e0|];
    [|destruct (move_tree new_path dest_path root1) as [r|e0] eqn:Hnat;
      [discriminate|]];
    inversion Hfinal; subst e0; clear Hfinal;
    cbn [fs set_fs set_move_faults log];
    rewrite Hb1, Hex; cbn [fs set_fs set_move_faults log];
    rewrite Hd1; cbn [negb node_exists];
    unfold shutil_move; cbn [fs set_fs set_move_faults log move_faults tl];
    (destruct (hd None later) as [e'|] eqn:Hv;
     [|rewrite Hmv2]);
    (eexists; split; [reflexivity|]; cbn [fs set_fs set_move_faults log calls];
     split; [rewrite <- !app_assoc; reflexivity|];
     split; assumption).
Qed.

(** ** Work confined to the temporary root *)

Section Keeps.

Variable R : world -> world -> Prop.
Hypothesis R_refl : forall w, R w w.
Hypothesis R_trans : forall w1 w2 w3, R w1 w2 -> R w2 w3 -> R w1 w3.

Lemma keeps_ret {A} (a : A) : keeps R (ret a).
Proof. intros w r w' H. inversion H. apply R_refl. Qed.

Lemma keeps_raise {A} (e : exn) : keeps R (@raise A e).
Proof. intros w r w' H. inversion H. apply R_refl. Qed.

Lemma keeps_lift {A} (x : result A) : keeps R (lift x).
Proof. intros w r w' H. inversion H. apply R_refl. Qed.

Lemma keeps_bind {A B} (m : M A) (k : A -> M B) :
  keeps R m -> (forall a, keeps R (k a)) -> keeps R (bind m k).
Proof.
  intros Hm Hk w r w' H. unfold bind in H.
  destruct (m w) as [[a|e] w1] eqn:Em.
  - exact (R_trans _ _ _ (Hm _ _ _ Em) (Hk a _ _ _ H)).
  - inversion H; subst. exact (Hm _ _ _ Em).
Qed.

End Keeps.

Lemma confined_refl td t w : confined td t w w.
Proof. intros es H. split; [eauto | reflexivity]. Qed.

Lemma confined_trans td t w1 w2 w3 :
  confined td t w1 w2 -> confined td t w2 w3 -> confined td t w1 w3.
Proof.
  intros H12 H23 es H1. destruct (H12 _ H1) as [[es2 H2] E12].
  destruct (H23 _ H2) as [H3 E23]. split; [exact H3 | congruence].
Qed.

Lemma confined_same_tree td t w w' : fs w' = fs w -> confined td t w w'.
Proof. intros H es Hl. rewrite H. split; [eauto | reflexivity]. Qed.

Lemma fs_unbind_after_alter (td : path) (t : string) (q : path)
      (g : node -> option node) (n n' : node) :
  fs_alter (td ++ t :: q) g n = Some n' ->
  fs_unbind td t n' = fs_unbind td t n.
Proof.
  intros H. rewrite fs_alter_app in H. unfold fs_unbind.
  rewrite (fs_alter_alter _ _ (dir_unbind t) _ _ H).
  destruct (fs_alter_spec _ _ _ _ H) as (m & m' & Hl & Hf & _).
  apply (fs_alter_ext _ _ _ _ _ Hl).
  unfold and_then. rewrite Hf. simpl in Hf.
  destruct m as [| |es]; try discriminate.
  destruct (assoc t es); try discriminate.
  destruct (fs_alter q g n0); try discriminate.
  inversion Hf; subst. simpl. rewrite del_set_assoc. reflexivity.
Qed.

Lemma fs_makedirs_descend (p q : path) (n m : node) :
  fs_lookup p n = Some m -> fs_makedirs (p ++ q) n = fs_alter p (fs_makedirs q) n.
Proof.
  revert n. induction p as [|c p IH]; intros n Hl; simpl in *.
  - reflexivity.
  - destruct n as [| |es]; try discriminate.
    destruct (assoc c es) as [child|]; try discriminate.
    rewrite (IH _ Hl). reflexivity.
Qed.

Lemma fs_makedirs_dir (q : path) es (m' : node) :
  fs_makedirs q (Dir es) = Some m' -> exists es', m' = Dir es'.
Proof.
  destruct q as [|c q]; simpl.
  - intros H. inversion H. eauto.
  - destruct (fs_makedirs q _); intros H; inversion H. eauto.
Qed.

(** Creating directories below [td/t]. *)
Lemma fs_makedirs_confined (td : path) (t : string) (q : path) (n n' : node) es :
  fs_lookup (td ++ [t]) n = Some (Dir es) ->
  fs_makedirs ((td ++ [t]) ++ q) n = Some n' ->
  (exists es', fs_lookup (td ++ [t]) n' = Some (Dir es'))
  /\ fs_unbind td t n' = fs_unbind td t n.
Proof.
  intros Hl H. rewrite (fs_makedirs_descend _ q _ _ Hl) in H.
  split.
  - destruct (fs_alter_spec _ _ _ _ H) as (m & m' & Hl' & Hf & Hq).
    rewrite Hl in Hl'. inversion Hl'; subst m.
    destruct (fs_makedirs_dir _ _ _ Hf) as [es' ->].
    exists es'. specialize (Hq []). rewrite app_nil_r in Hq. exact Hq.
  - replace (td ++ [t]) with (td ++ t :: []) in H by reflexivity.
    exact (fs_unbind_after_alter _ _ _ _ _ _ H).
Qed.

(** Binding a name in a directory at or below [td/t]. *)
Lemma fs_bind_confined (td : path) (t : string) (q : path) (a : string)
      (v : node) (n n' : node) es :
  fs_lookup (td ++ [t]) n = Some (Dir es) ->
  fs_bind ((td ++ [t]) ++ q) a v n = Some n' ->
  (exists es', fs_lookup (td ++ [t]) n' = Some (Dir es'))
  /\ fs_unbind td t n' = fs_unbind td t n.
Proof.
  intros Hl H. unfold fs_bind in H. split.
  - rewrite fs_alter_app in H.
    destruct (fs_alter_spec _ _ _ _ H) as (m & m' & Hl' & Hf & Hq).
    rewrite Hl in Hl'. inversion Hl'; subst m.
    specialize (Hq []). rewrite app_nil_r in Hq. rewrite Hq.
    destruct q as [|c q]; simpl in Hf.
    + inversion Hf. simpl. eauto.
    + destruct (assoc c es); try discriminate.
      destruct (fs_alter q _ _); inversion Hf. simpl. eauto.
  - rewrite <- app_assoc in H. simpl in H.
    exact (fs_unbind_after_alter _ _ _ _ _ _ H).
Qed.

Section Confined.

Variable E : env.
Variables (td : path) (t : string).

Lemma keeps_confined_look {A} (m : M A) :
  preserves fs m -> keeps (confined td t) m.
Proof. intros Hm w r w' H. apply confined_same_tree. exact (Hm _ _ _ H). Qed.

Lemma makedirs_confined (q : path) :
  keeps (confined td t) (os_makedirs ((td ++ [t]) ++ q)).
Proof.
  intros w r w' H es Hl. unfold os_makedirs in H. simpl in H.
  destruct (fs_makedirs ((td ++ [t]) ++ q) (fs w)) as [root|] eqn:Em;
    inversion H; subst; simpl.
  - exact (fs_makedirs_confined _ _ _ _ _ _ Hl Em).
  - split; [eauto | reflexivity].
Qed.

Lemma copytree_confined (src q : path) (a : string) :
  keeps (confined td t) (shutil_copytree E src (((td ++ [t]) ++ q) ++ [a])).
Proof.
  intros w r w' H es Hl. unfold shutil_copytree in H. simpl in H.
  rewrite dirname_join, basename_join in H.
  destruct (fs_lookup src (fs w)) as [n|];
    [|inversion H; subst; simpl; split; [eauto | reflexivity]].
  destruct (negb (is_dir_entry n));
    [inversion H; subst; simpl; split; [eauto | reflexivity]|].
  destruct (fs_lookup (((td ++ [t]) ++ q) ++ [a]) (fs w));
    [inversion H; subst; simpl; split; [eauto | reflexivity]|].
  destruct (copy_tree E n) as [copy err].
  destruct (fs_makedirs ((td ++ [t]) ++ q) (fs w)) as [root1|] eqn:Em;
    [|inversion H; subst; simpl; split; [eauto | reflexivity]].
  destruct (fs_makedirs_confined _ _ _ _ _ _ Hl Em) as [[es1 Hl1] E1].
  destruct (fs_bind ((td ++ [t]) ++ q) a copy root1) as [root2|] eqn:Eb;
    [|inversion H; subst; simpl; split; [eauto | reflexivity]].
  destruct (fs_bind_confined _ _ _ _ _ _ _ _ Hl1 Eb) as [Hl2 E2].
  inversion H; subst; simpl. split; [exact Hl2 | congruence].
Qed.

Lemma run_confined (cmd : list json) (q : path) (a : string) :
  keeps (confined td t) (subprocess_run E cmd (((td ++ [t]) ++ q) ++ [a])).
Proof.
  intros w r w' H es Hl. unfold subprocess_run in H. simpl in H.
  rewrite dirname_join, basename_join in H.
  destruct (all_strings cmd) as [argv|];
    [|inversion H; subst; simpl; split; [eauto | reflexivity]].
  destruct (run_installer E argv) as [[tree|] ok];
    [|inversion H; subst; simpl; split; [eauto | reflexivity]].
  destruct (fs_bind ((td ++ [t]) ++ q) a tree (fs w)) as [root|] eqn:Eb;
    inversion H; subst; simpl.
  - exact (fs_bind_confined _ _ _ _ _ _ _ _ Hl Eb).
  - split; [eauto | reflexivity].
Qed.

End Confined.

(** Walk through a program whose writes stay below the temporary root. *)
Ltac confine :=
  repeat first
    [ apply keeps_ret; apply confined_refl
    | apply keeps_raise; apply confined_refl
    | apply keeps_lift; apply confined_refl
    | apply keeps_bind; [apply confined_trans | | intros ?]
    | match goal with
      | |- keeps _ (if ?b then _ else _) => destruct b
      | |- keeps _ (match ?x with _ => _ end) => destruct x
      | |- keeps _ (let (_, _) := ?x in _) => destruct x
      end
    | apply makedirs_confined
    | apply copytree_confined
    | apply run_confined
    | apply keeps_confined_look;
      solve [eauto using stat_exists_look, stat_isdir_look, stat_isfile_look,
             walk_look, strftime_look] ].

Lemma validate_skill_dir_confined td t p :
  keeps (confined td t) (_validate_skill_dir p).
Proof. unfold _validate_skill_dir. confine. Qed.

Lemma resolve_installer_confined E td t user_path :
  keeps (confined td t) (_resolve_installer_path E user_path).
Proof. unfold _resolve_installer_path. confine. Qed.

Lemma install_from_github_confined E td t entry name installer_path :
  keeps (confined td t)
        (_install_from_github E entry name ((td ++ [t]) ++ ["stage"]) installer_path).
Proof. unfold _install_from_github. confine. Qed.

Lemma stage_candidate_confined E td t name entry args :
  keeps (confined td t) (stage_candidate E name entry args (td ++ [t])).
Proof.
  unfold stage_candidate.
  apply keeps_bind; [apply confined_trans | | intros ?].
  { apply makedirs_confined. }
  apply keeps_bind; [apply confined_trans | | intros ?].
  { apply keeps_lift. apply confined_refl. }
  apply keeps_bind; [apply confined_trans | | intros ?].
  - destruct a0.
    + confine; try apply validate_skill_dir_confined.
    + apply keeps_bind; [apply confined_trans | | intros ?].
      * apply resolve_installer_confined.
      * apply install_from_github_confined.
  - apply keeps_bind; [apply confined_trans | | intros ?].
    + apply validate_skill_dir_confined.
    + apply keeps_ret. apply confined_refl.
Qed.

(** ** [tempfile.mkdtemp] *)

Lemma fs_unbind_after_bind_fresh (td : path) (t : string) (v : node) (n n' : node) :
  fs_lookup (td ++ [t]) n = None ->
  fs_bind td t v n = Some n' ->
  fs_lookup (td ++ [t]) n' = Some v /\ fs_unbind td t n' = Some n.
Proof.
  intros Hfree Hb.
  destruct (fs_bind_spec _ _ _ _ _ Hb) as (es & Hd & Hd').
  split.
  - rewrite (fs_lookup_child _ t [] _ _ Hd'), assoc_set_same. reflexivity.
  - unfold fs_unbind. unfold fs_bind in Hb.
    rewrite (fs_alter_alter _ _ (dir_unbind t) _ _ Hb).
    rewrite (fs_alter_ext _ _ (fun x => Some x) _ _ Hd).
    + exact (fs_alter_id _ _ _ Hd).
    + unfold and_then. simpl. rewrite del_set_assoc.
      rewrite (fs_lookup_child _ t [] _ _ Hd) in Hfree.
      rewrite del_assoc_absent; [reflexivity|].
      destruct (assoc t es); [discriminate | reflexivity].
Qed.

Lemma mkdtemp_from_spec (E : env) (prefix : string) (names : list string)
      (root : node) (p : path) (root' : node) (rest : list string) :
  mkdtemp_from E prefix names root = (Ok (p, root'), rest) ->
  exists t, p = temp_dir E ++ [t]
            /\ fs_lookup p root' = Some (Dir [])
            /\ fs_unbind (temp_dir E) t root' = Some root.
Proof.
  induction names as [|nm names IH]; simpl; [discriminate|].
  destruct (fs_lookup (temp_dir E ++ [(prefix ++ nm)%string]) root) eqn:Hfree;
    [exact IH|].
  destruct (fs_bind (temp_dir E) (prefix ++ nm)%string (Dir []) root)
    as [r|] eqn:Hb; [|discriminate].
  intros H. inversion H; subst.
  exists (prefix ++ nm)%string. split; [reflexivity|].
  exact (fs_unbind_after_bind_fresh _ _ _ _ _ Hfree Hb).
Qed.

Lemma tempfile_mkdtemp_spec (E : env) (prefix : string) (w w1 : world) (p : path) :
  tempfile_mkdtemp E prefix w = (Ok p, w1) ->
  exists t, p = temp_dir E ++ [t]
            /\ fs_lookup p (fs w1) = Some (Dir [])
            /\ fs_unbind (temp_dir E) t (fs w1) = Some (fs w)
            /\ calls w1 = calls w ++ [C_mkdtemp prefix].
Proof.
  unfold tempfile_mkdtemp. simpl.
  destruct (mkdtemp_from E prefix (temp_names w) (fs w)) as [[[p0 root]|e] rest] eqn:Hm;
    [|discriminate].
  intros H. inversion H; subst. simpl.
  destruct (mkdtemp_from_spec _ _ _ _ _ _ _ Hm) as (t & Hp & Hl & Hu).
  exists t. auto.
Qed.

(** ** [_update_one] when nothing changed *)

Lemma stage_candidate_no_move E name entry args tmp_root :
  preserves (calls_where is_move) (stage_candidate E name entry args tmp_root).
Proof.
  unfold stage_candidate, _install_from_github, _resolve_installer_path,
    _validate_skill_dir.
  frame.
Qed.

(** C3.  When the candidate has been staged and its fingerprint equals that
    of the installed directory, [_update_one] returns [False]; after the
    staging the only calls are the [isdir] probe, the two walks and the
    removal of the temporary root, so the replacement transaction is not
    entered and no [shutil.move] is issued; the tree ends exactly as it
    began, hence no backup directory exists that did not before and the
    fingerprint of the installed directory is what it was. *)
Theorem update_one_unchanged
        (E : env) (name : string) (entry : json) (dest_root : path)
        (args : update_args) (w w1 w2 : world) (tmp_root new_path : path) :
  let dest_path := dest_root ++ [name] in
  tempfile_mkdtemp E "skill-update-" w = (Ok tmp_root, w1) ->
  stage_candidate E name entry args tmp_root w1 = (Ok new_path, w2) ->
  node_isdir (fs_lookup dest_path (fs w2)) = true ->
  fingerprint E (fs_lookup dest_path (fs w2))
  = fingerprint E (fs_lookup new_path (fs w2)) ->
  exists w',
    _update_one E name entry dest_root args w = (Ok false, w')
    /\ calls w' = calls w2 ++ [C_stat dest_path; C_walk dest_path;
                               C_walk new_path; C_rmtree tmp_root]
    /\ calls_where is_move w' = calls_where is_move w
    /\ fs w' = fs w
    /\ (forall timestamp,
           fs_lookup (dest_root ++ [backup_name name timestamp]) (fs w')
           = fs_lookup (dest_root ++ [backup_name name timestamp]) (fs w))
    /\ fingerprint E (fs_lookup dest_path (fs w'))
       = fingerprint E (fs_lookup dest_path (fs w)).
Proof.
  intros dest_path Hmk Hstage Hdir Hsame.
  destruct (tempfile_mkdtemp_spec _ _ _ _ _ Hmk) as (t & -> & Htmp & Hout & Hc1).
  destruct (stage_candidate_confined E (temp_dir E) t name entry args
              _ _ _ Hstage _ Htmp) as [[es2 Htmp2] Hout2].
  assert (Hmoves : calls_where is_move w2 = calls_where is_move w).
  { rewrite (stage_candidate_no_move _ _ _ _ _ _ _ _ Hstage).
    unfold calls_where. rewrite Hc1, filter_app. simpl. apply app_nil_r. }
  unfold _update_one, bind. rewrite Hmk.
  unfold try_finally, bind. rewrite Hstage.
  unfold _is_same_skill, bind, os_path_isdir. fold dest_path.
  rewrite Hdir. cbn [negb].
  unfold _hash_directory. cbn [fs log]. rewrite Hsame, String.eqb_refl.
  unfold ret, shutil_rmtree. cbn [fs log].
  replace (temp_dir E ++ [t]) with (temp_dir E ++ [t] ++ []) in Htmp2
    by (rewrite app_nil_r; reflexivity).
  simpl in Htmp2.
  destruct (temp_dir E ++ [t]) as [|c rest] eqn:Ep;
    [destruct (temp_dir E); discriminate|].
  rewrite <- Ep in *. rewrite Htmp2.
  rewrite dirname_join, basename_join, Hout2, Hout.
  eexists. split; [reflexivity|]. cbn [fs set_fs log calls].
  split; [rewrite <- !app_assoc; reflexivity|].
  split.
  { unfold calls_where. cbn [calls set_fs log].
    rewrite !filter_app. simpl. rewrite !app_nil_r. exact Hmoves. }
  repeat split.
Qed.

(** ** Descriptors that [_install_from_github] refuses *)

Lemma install_refuses_path_list (E : env) (fields : list (string * json))
      (items : list json) (name : string) (stage_root installer_path : path)
      (w : world) :
  assoc "url" fields = None ->
  assoc "path" fields = Some (JList items) ->
  List.length items <> 1 ->
  _install_from_github E (JObj fields) name stage_root installer_path w
  = (Raise (ValueError msg_one_path), w).
Proof.
  intros Hurl Hpath Hlen.
  unfold _install_from_github, bind, lift. simpl.
  rewrite Hurl, Hpath.
  apply Nat.eqb_neq in Hlen. rewrite Hlen. reflexivity.
Qed.

Lemma install_refuses_bad_path (E : env) (fields : list (string * json))
      (p : string) (name : string) (stage_root installer_path : path)
      (w : world) :
  assoc "url" fields = None ->
  (assoc "path" fields = Some (JStr p)
   \/ assoc "path" fields = Some (JList [JStr p])) ->
  _validate_repo_path p = Raise (ValueError msg_repo_path) ->
  _install_from_github E (JObj fields) name stage_root installer_path w
  = (Raise (ValueError
              (if Py.truthy (match assoc "repo" fields with
                             | Some repo => repo
                             | None => JNull
                             end)
               then msg_repo_path else msg_missing_fields)), w).
Proof.
  intros Hurl Hpath Hv.
  assert (Hne : (p =? "") = false).
  { destruct p; [discriminate Hv | reflexivity]. }
  unfold _install_from_github, bind, lift. simpl. rewrite Hurl.
  destruct Hpath as [-> | ->]; simpl; rewrite Hne; simpl;
    destruct (Py.truthy _); simpl; try reflexivity; rewrite Hv; reflexivity.
Qed.

(** ** What a fresh temporary root and new directories leave in place *)

Lemma fs_makedirs_files_kept (p : path) (n n' : node) :
  fs_makedirs p n = Some n' -> files_kept n n'.
Proof.
  revert n n'. induction p as [|c p IH]; intros n n' H; simpl in H.
  - destruct (is_dir_entry n); inversion H. intros q m Hq _. exact Hq.
  - destruct n as [| |es]; try discriminate.
    destruct (fs_makedirs p _) as [child'|] eqn:Hm; inversion H; subst.
    intros [|c' q] m Hq Hm'; simpl in *.
    + inversion Hq; subst. discriminate.
    + destruct (String.eqb_spec c c') as [<-|Hne].
      * rewrite assoc_set_same.
        destruct (assoc c es) as [child|]; [|discriminate].
        exact (IH _ _ Hm _ _ Hq Hm').
      * rewrite (assoc_set_other _ _ _ _ Hne). exact Hq.
Qed.

Lemma fs_bind_fresh_files_kept (td : path) (t : string) (v : node) (n n' : node) :
  fs_lookup (td ++ [t]) n = None ->
  fs_bind td t v n = Some n' -> files_kept n n'.
Proof.
  unfold fs_bind. revert n n'.
  induction td as [|d td IH]; intros n n' Hfree H; simpl in *.
  - destruct n as [| |es]; try discriminate. inversion H; subst.
    intros [|c q] m Hq Hm; simpl in *.
    + inversion Hq; subst. discriminate.
    + destruct (String.eqb_spec t c) as [<-|Hne].
      * destruct (assoc t es); discriminate.
      * rewrite (assoc_set_other _ _ _ _ Hne). exact Hq.
  - destruct n as [| |es]; try discriminate.
    destruct (assoc d es) as [child|] eqn:Ed; try discriminate.
    destruct (fs_alter td _ child) as [child'|] eqn:Ha; inversion H; subst.
    intros [|c q] m Hq Hm; simpl in *.
    + inversion Hq; subst. discriminate.
    + destruct (String.eqb_spec d c) as [<-|Hne].
      * rewrite assoc_set_same. rewrite Ed in Hq.
        exact (IH _ _ Hfree Ha _ _ Hq Hm).
      * rewrite (assoc_set_other _ _ _ _ Hne). exact Hq.
Qed.

Lemma files_kept_isfile (n n' : node) (q : path) :
  files_kept n n' ->
  node_isfile (fs_lookup q n) = true -> node_isfile (fs_lookup q n') = true.
Proof.
  intros Hk Hf. destruct (fs_lookup q n) as [m|] eqn:Hq; [|discriminate].
  rewrite (Hk _ _ Hq); [exact Hf|].
  destruct m as [| target [] |]; simpl in *; try reflexivity; discriminate.
Qed.

Lemma mkdtemp_from_files_kept (E : env) (prefix : string) (names : list string)
      (root : node) (p : path) (root' : node) (rest : list string) :
  mkdtemp_from E prefix names root = (Ok (p, root'), rest) -> files_kept root root'.
Proof.
  induction names as [|nm names IH]; simpl; [discriminate|].
  destruct (fs_lookup (temp_dir E ++ [(prefix ++ nm)%string]) root) eqn:Hfree;
    [exact IH|].
  destruct (fs_bind (temp_dir E) (prefix ++ nm)%string (Dir []) root)
    as [r|] eqn:Hb; [|discriminate].
  intros H. inversion H; subst.
  exact (fs_bind_fresh_files_kept _ _ _ _ _ Hfree Hb).
Qed.

(** ** [_update_one] on a descriptor that is refused *)

Section Refused.

Variable E : env.
Variables (name : string) (fields : list (string * json)).
Variable e_install : exn.

Hypothesis no_local_path : assoc "local_path" fields = None.
Hypothesis install_refuses :
  forall stage_root installer_path w,
    _install_from_github E (JObj fields) name stage_root installer_path w
    = (Raise e_install, w).

Lemma stage_candidate_refused (args : update_args) (tmp_root : path) (w1 : world) :
  exists e w2,
    stage_candidate E name (JObj fields) args tmp_root w1 = (Raise e, w2)
    /\ calls_where staging_call w2 = calls_where staging_call w1
    /\ (forall root2,
           fs_makedirs (tmp_root ++ ["stage"]) (fs w1) = Some root2 ->
           node_isfile (fs_lookup (installer_path_of E (arg_installer args)) root2)
           = true ->
           e = e_install).
Proof.
  unfold stage_candidate, bind, os_makedirs. cbn [fs log].
  destruct (fs_makedirs (tmp_root ++ ["stage"]) (fs w1)) as [root2|] eqn:Hmk.
  - unfold lift. cbn [Py.contains]. rewrite no_local_path.
    unfold _resolve_installer_path, bind, os_path_isfile. cbn [fs set_fs log].
    destruct (node_isfile _) eqn:Hf; cbn [negb].
    + unfold ret. rewrite install_refuses.
      eexists _, _. split; [reflexivity|]. split.
      * unfold calls_where. cbn [calls set_fs log].
        rewrite !filter_app. simpl. rewrite !app_nil_r. reflexivity.
      * reflexivity.
    + unfold raise. eexists _, _. split; [reflexivity|]. split.
      * unfold calls_where. cbn [calls set_fs log].
        rewrite !filter_app. simpl. rewrite !app_nil_r. reflexivity.
      * intros r Hr Hf'. inversion Hr; subst. congruence.
  - eexists _, _. split; [reflexivity|]. split.
    + unfold calls_where. cbn [calls log].
      rewrite !filter_app. simpl. rewrite !app_nil_r. reflexivity.
    + intros r Hr. discriminate.
Qed.

(** The update fails; nothing is copied and no installer is run; the tree
    ends as it began; and when the temporary root can be made and the
    installer script is in place, the error is the one the descriptor
    earns. *)
Lemma update_one_refused (dest_root : path) (args : update_args) (w : world) :
  exists e w',
    _update_one E name (JObj fields) dest_root args w = (Raise e, w')
    /\ calls_where staging_call w' = calls_where staging_call w
    /\ fs w' = fs w
    /\ ((exists tmp_root w1,
            tempfile_mkdtemp E "skill-update-" w = (Ok tmp_root, w1)) ->
        node_isfile (fs_lookup (installer_path_of E (arg_installer args)) (fs w))
        = true ->
        e = e_install).
Proof.
  unfold _update_one, bind.
  destruct (tempfile_mkdtemp E "skill-update-" w) as [[tmp_root|e0] w1] eqn:Hmk.
  - destruct (tempfile_mkdtemp_spec _ _ _ _ _ Hmk) as (t & -> & Htmp & Hout & Hc1).
    destruct (stage_candidate_refused args (temp_dir E ++ [t]) w1)
      as (e & w2 & Hst & Hcalls & Herr).
    destruct (stage_candidate_confined E (temp_dir E) t name (JObj fields) args
                _ _ _ Hst _ Htmp) as [[es2 Htmp2] Hout2].
    unfold try_finally, bind. rewrite Hst.
    unfold shutil_rmtree. cbn [fs log].
    destruct (temp_dir E ++ [t]) as [|c rest] eqn:Ep;
      [destruct (temp_dir E); discriminate|].
    rewrite <- Ep in *. rewrite Htmp2.
    rewrite dirname_join, basename_join, Hout2, Hout.
    eexists _, _. split; [reflexivity|]. cbn [fs set_fs log]. split; [|split].
    + unfold calls_where in *. cbn [calls set_fs log].
      rewrite filter_app, Hcalls, Hc1, filter_app. simpl.
      rewrite !app_nil_r. reflexivity.
    + reflexivity.
    + intros _ Hfile.
      assert (Hdef : exists root2,
                 fs_makedirs ((temp_dir E ++ [t]) ++ ["stage"]) (fs w1) = Some root2).
      { rewrite (fs_makedirs_descend _ ["stage"] _ _ Htmp).
        eapply fs_alter_defined; [exact Htmp | reflexivity]. }
      destruct Hdef as [root2 Hroot2].
      apply (Herr root2 Hroot2).
      apply (files_kept_isfile (fs w1) root2);
        [exact (fs_makedirs_files_kept _ _ _ Hroot2)|].
      apply (files_kept_isfile (fs w) (fs w1)); [|exact Hfile].
      clear - Hmk. unfold tempfile_mkdtemp in Hmk. cbn [fs log temp_names] in Hmk.
      destruct (mkdtemp_from E "skill-update-" (temp_names w) (fs w))
        as [[[p0 root]|e] rest0] eqn:Hm; [|discriminate].
      inversion Hmk; subst. cbn [fs set_fs].
      exact (mkdtemp_from_files_kept _ _ _ _ _ _ _ Hm).
  - eexists _, _. split; [reflexivity|].
    unfold tempfile_mkdtemp in Hmk. cbn [fs log temp_names] in Hmk.
    destruct (mkdtemp_from E "skill-update-" (temp_names w) (fs w))
      as [[[p0 root]|e] rest0] eqn:Hm; [discriminate|].
    inversion Hmk; subst. split; [|split].
    + unfold calls_where. cbn [calls set_temp_names log].
      rewrite filter_app. simpl. apply app_nil_r.
    + reflexivity.
    + intros (tmp & w1' & Habs). discriminate.
Qed.

End Refused.

(** C7, as the code has it.  A repo-path descriptor whose [path] is a list
    of more than one element is refused by [_install_from_github] with the
    error "来源记录的 path 只能包含一个路径" before that function issues any call:
    the world it hands back is the world it received.  The update of the
    skill therefore fails, nothing is copied and the installer is never run,
    and the tree ends as it began; whenever the temporary root can be made
    and the installer script is in place the error raised is that one.  (The
    temporary root and the probe of the installer script come before, in
    [_update_one].) *)
Theorem multi_path_descriptor_refused
        (E : env) (name : string) (fields : list (string * json))
        (items : list json) (dest_root : path) (args : update_args)
        (stage_root installer_path : path) (w : world) :
  assoc "local_path" fields = None ->
  assoc "url" fields = None ->
  assoc "path" fields = Some (JList items) ->
  2 <= List.length items ->
  _install_from_github E (JObj fields) name stage_root installer_path w
  = (Raise (ValueError msg_one_path), w)
  /\ exists e w',
      _update_one E name (JObj fields) dest_root args w = (Raise e, w')
      /\ calls_where staging_call w' = calls_where staging_call w
      /\ fs w' = fs w
      /\ ((exists tmp_root w1,
              tempfile_mkdtemp E "skill-update-" w = (Ok tmp_root, w1)) ->
          node_isfile (fs_lookup (installer_path_of E (arg_installer args)) (fs w))
          = true ->
          e = ValueError msg_one_path).
Proof.
  intros Hlocal Hurl Hpath Hlen.
  assert (Hne : List.length items <> 1) by lia.
  split.
  - exact (install_refuses_path_list E fields items name _ _ w Hurl Hpath Hne).
  - apply (update_one_refused E name fields (ValueError msg_one_path) Hlocal).
    intros s i w0.
    exact (install_refuses_path_list E fields items name s i w0 Hurl Hpath Hne).
Qed.

(** C6.  [_validate_repo_path] raises for every absolute path and for every
    path that escapes the repository root after normalization, whether that
    is read off its normal form ([escapes_root]) or off its components
    ([leaves_root]).  For a repo-path descriptor carrying such a path,
    [_install_from_github] raises before it issues any call, so the update
    fails with nothing copied into the staging area and no installer run,
    and the tree ends as it began. *)
Theorem bad_repo_path_rejected_before_staging
        (E : env) (name : string) (fields : list (string * json))
        (p : string) (dest_root : path) (args : update_args)
        (stage_root installer_path : path) (w : world) :
  assoc "local_path" fields = None ->
  assoc "url" fields = None ->
  (assoc "path" fields = Some (JStr p)
   \/ assoc "path" fields = Some (JList [JStr p])) ->
  (PosixPath.isabs p = true \/ escapes_root p \/ leaves_root p = true) ->
  _validate_repo_path p = Raise (ValueError msg_repo_path)
  /\ (exists e,
         _install_from_github E (JObj fields) name stage_root installer_path w
         = (Raise e, w))
  /\ exists e w',
      _update_one E name (JObj fields) dest_root args w = (Raise e, w')
      /\ calls_where staging_call w' = calls_where staging_call w
      /\ fs w' = fs w.
Proof.
  intros Hlocal Hurl Hpath Hbad.
  assert (Hv : _validate_repo_path p = Raise (ValueError msg_repo_path)).
  { destruct Hbad as [H|[H|H]];
      [apply validate_rejects_absolute | apply validate_rejects_escaping
       | apply validate_rejects_climbing]; exact H. }
  split; [exact Hv|split].
  - eexists. exact (install_refuses_bad_path E fields p name _ _ w Hurl Hpath Hv).
  - destruct (update_one_refused E name fields _ Hlocal
                (fun s i w0 => install_refuses_bad_path E fields p name s i w0
                                                         Hurl Hpath Hv)
                dest_root args w) as (e & w' & Hrun & Hcalls & Hfs & _).
    exists e, w'. auto.
Qed.

(** ** The order of strings and [sorted] *)

Lemma string_leb_cons (a b : ascii) (s t : string) :
  String.leb (String a s) (String b t) = true <->
  (N_of_ascii a < N_of_ascii b)%N \/ (a = b /\ String.leb s t = true).
Proof.
  unfold String.leb. simpl. unfold Ascii.compare.
  destruct (N.compare_spec (N_of_ascii a) (N_of_ascii b)) as [Heq|Hlt|Hgt].
  - assert (a = b).
    { rewrite <- (ascii_N_embedding a), <- (ascii_N_embedding b), Heq. reflexivity. }
    subst b. split.
    + intros H. right. split; [reflexivity | exact H].
    + intros [H|[_ H]]; [lia | exact H].
  - split; [intros _; left; exact Hlt | reflexivity].
  - split; [discriminate|].
    intros [H|[-> _]]; lia.
Qed.

Lemma string_leb_nil (t : string) : String.leb EmptyString t = true.
Proof. destruct t; reflexivity. Qed.

Lemma string_leb_trans (s t u : string) :
  String.leb s t = true -> String.leb t u = true -> String.leb s u = true.
Proof.
  revert t u. induction s as [|a s IH]; intros t u Hst Htu.
  - apply string_leb_nil.
  - destruct t as [|b t]; [discriminate Hst|].
    destruct u as [|c u]; [discriminate Htu|].
    apply string_leb_cons in Hst. apply string_leb_cons in Htu.
    apply string_leb_cons.
    destruct Hst as [Hab|[-> Hst]], Htu as [Hbc|[-> Htu]].
    + left. lia.
    + left. exact Hab.
    + left. exact Hbc.
    + right. split; [reflexivity | exact (IH _ _ Hst Htu)].
Qed.

Lemma insert_sorted_comm (a b : string) (l : list string) :
  insert_sorted a (insert_sorted b l) = insert_sorted b (insert_sorted a l).
Proof.
  induction l as [|y l IH]; simpl.
  - destruct (String.leb a b) eqn:Hab, (String.leb b a) eqn:Hba; try reflexivity.
    + rewrite (String.leb_antisym _ _ Hab Hba). reflexivity.
    + destruct (String.leb_total a b); congruence.
  - destruct (String.leb b y) eqn:Hby, (String.leb a y) eqn:Hay; simpl.
    + destruct (String.leb a b) eqn:Hab, (String.leb b a) eqn:Hba;
        rewrite ?Hby, ?Hay; try reflexivity.
      * rewrite (String.leb_antisym _ _ Hab Hba). reflexivity.
      * destruct (String.leb_total a b); congruence.
    + destruct (String.leb a b) eqn:Hab.
      * rewrite (string_leb_trans _ _ _ Hab Hby) in Hay. discriminate.
      * rewrite Hay, Hby. reflexivity.
    + destruct (String.leb b a) eqn:Hba.
      * rewrite (string_leb_trans _ _ _ Hba Hay) in Hby. discriminate.
      * rewrite Hay, Hby. reflexivity.
    + rewrite Hay, Hby, IH. reflexivity.
Qed.

(** Sorting forgets the order it was given. *)
Lemma sorted_permutation (l l' : list string) :
  Permutation l l' -> sorted l = sorted l'.
Proof.
  unfold sorted. induction 1 as [|x l l' _ IH|x y l|l1 l2 l3 _ IH1 _ IH2]; simpl.
  - reflexivity.
  - rewrite IH. reflexivity.
  - apply insert_sorted_comm.
  - congruence.
Qed.

Lemma filter_permutation {A} (f : A -> bool) (l l' : list A) :
  Permutation l l' -> Permutation (filter f l) (filter f l').
Proof.
  induction 1 as [|x l l' _ IH|x y l|l1 l2 l3 _ IH1 _ IH2]; simpl.
  - constructor.
  - destruct (f x); [constructor; exact IH | exact IH].
  - destruct (f x), (f y); try apply Permutation_refl. constructor.
  - eapply Permutation_trans; eassumption.
Qed.

Lemma nodupb_NoDup (l : list string) : nodupb l = true <-> NoDup l.
Proof.
  induction l as [|x l IH]; simpl.
  - split; [constructor | reflexivity].
  - rewrite andb_true_iff, IH, negb_true_iff. split.
    + intros [Hx Hl]. constructor; [|exact Hl].
      intros Hin. unfold PyStr.mem in Hx.
      assert (existsb (String.eqb x) l = true).
      { apply existsb_exists. exists x. split; [exact Hin | apply String.eqb_refl]. }
      congruence.
    + intros H. inversion H; subst. split; [|assumption].
      unfold PyStr.mem. destruct (existsb (String.eqb x) l) eqn:Hex; [|reflexivity].
      apply existsb_exists in Hex. destruct Hex as (y & Hy & Hxy).
      apply String.eqb_eq in Hxy. subst y. contradiction.
Qed.

(** With unique names, a lookup does not depend on the order of the
    listing. *)
Lemma assoc_In {V} (k : string) (v : V) (es : list (string * V)) :
  NoDup (map fst es) -> In (k, v) es -> assoc k es = Some v.
Proof.
  induction es as [|[k' x] es IH]; simpl; intros Hnd Hin; [contradiction|].
  inversion Hnd; subst.
  destruct Hin as [Heq|Hin].
  - inversion Heq; subst. rewrite String.eqb_refl. reflexivity.
  - destruct (String.eqb_spec k' k) as [->|Hne].
    + exfalso. apply H1. apply (in_map fst) in Hin. exact Hin.
    + apply IH; assumption.
Qed.

Lemma assoc_None {V} (k : string) (es : list (string * V)) :
  assoc k es = None <-> ~ In k (map fst es).
Proof.
  induction es as [|[k' x] es IH]; simpl.
  - split; [intros _ [] | reflexivity].
  - destruct (String.eqb_spec k' k) as [->|Hne].
    + split; [discriminate | intros H; exfalso; apply H; left; reflexivity].
    + rewrite IH. split.
      * intros H [Heq|Hin]; [congruence | exact (H Hin)].
      * intros H Hin. apply H. right. exact Hin.
Qed.

Lemma assoc_Some_In {V} (k : string) (v : V) (es : list (string * V)) :
  assoc k es = Some v -> In (k, v) es.
Proof.
  induction es as [|[k' x] es IH]; simpl; [discriminate|].
  destruct (String.eqb_spec k' k) as [->|Hne].
  - intros H. inversion H. left. reflexivity.
  - intros H. right. exact (IH H).
Qed.

Lemma assoc_permutation {V} (k : string) (es es' : list (string * V)) :
  NoDup (map fst es) -> Permutation es es' -> assoc k es = assoc k es'.
Proof.
  intros Hnd Hp.
  assert (Hnd' : NoDup (map fst es'))
    by exact (Permutation_NoDup (Permutation_map fst Hp) Hnd).
  destruct (assoc k es) as [v|] eqn:Hk.
  - symmetry. apply assoc_In; [exact Hnd'|].
    apply (Permutation_in _ Hp). exact (assoc_Some_In _ _ _ Hk).
  - symmetry. apply assoc_None. apply assoc_None in Hk.
    intros Hin. apply Hk.
    apply (Permutation_in _ (Permutation_sym (Permutation_map fst Hp))). exact Hin.
Qed.

(** ** [_hash_directory] *)

Lemma chunk_positive : 1 <= CHUNK.
Proof. apply Nat.leb_le. vm_compute. reflexivity. Qed.

(** The read loop feeds the whole content: the turns allotted are enough. *)
Lemma read_chunks_enough (turns : nat) (rest : list byte) (h : hasher) :
  List.length rest < turns -> read_chunks turns rest h = h ++ rest.
Proof.
  revert rest h. induction turns as [|turns IH]; intros rest h Hlen; [lia|].
  cbn [read_chunks].
  pose proof chunk_positive as Hc.
  destruct (firstn CHUNK rest) as [|b chunk] eqn:Ef.
  - destruct rest as [|x rest]; [rewrite app_nil_r; reflexivity|].
    destruct CHUNK; [lia | discriminate Ef].
  - rewrite <- Ef. rewrite IH.
    + unfold update. rewrite <- app_assoc, firstn_skipn. reflexivity.
    + rewrite length_skipn.
      destruct rest as [|x rest]; [destruct CHUNK; discriminate Ef|].
      simpl in *. lia.
Qed.

Lemma hash_content_all (content : list byte) (h : hasher) :
  hash_content content h = h ++ content.
Proof. unfold hash_content. apply read_chunks_enough. lia. Qed.

Lemma reorder_kind (a b : node) :
  reorder a b ->
  match a with
  | Dir _ => exists es', b = Dir es'
  | _ => b = a
  end.
Proof.
  induction 1 as [t|es es' Hp|pre name child child' post _ _|a b c _ IH1 _ IH2].
  - destruct t; eauto.
  - eauto.
  - eauto.
  - destruct a; try (subst b; exact IH2).
    destruct IH1 as [es' ->]. exact IH2.
Qed.

Lemma reorder_is_dir_entry (a b : node) :
  reorder a b -> is_dir_entry b = is_dir_entry a.
Proof.
  intros H. apply reorder_kind in H.
  destruct a; try (subst b; reflexivity).
  destruct H as [es' ->]. reflexivity.
Qed.

Lemma forallb_permutation {A} (f : A -> bool) (l l' : list A) :
  Permutation l l' -> forallb f l = true -> forallb f l' = true.
Proof.
  intros Hp H. rewrite forallb_forall in *. intros x Hx.
  apply H. exact (Permutation_in _ (Permutation_sym Hp) Hx).
Qed.

Lemma reorder_well_formed (a b : node) :
  reorder a b -> well_formed a = true -> well_formed b = true.
Proof.
  induction 1 as [t|es es' Hp|pre name child child' post _ IH|a b c _ IH1 _ IH2];
    intros Hwf.
  - exact Hwf.
  - simpl in *. apply andb_true_iff in Hwf. destruct Hwf as [Hn Hf].
    apply andb_true_iff. split.
    + apply nodupb_NoDup. apply nodupb_NoDup in Hn.
      exact (Permutation_NoDup (Permutation_map fst Hp) Hn).
    + exact (forallb_permutation _ _ _ Hp Hf).
  - simpl in *. apply andb_true_iff in Hwf. destruct Hwf as [Hn Hf].
    apply andb_true_iff. split.
    + rewrite map_app in *. exact Hn.
    + rewrite forallb_app in *. simpl in *.
      apply andb_true_iff in Hf. destruct Hf as [Hpre Hf].
      apply andb_true_iff in Hf. destruct Hf as [Hc Hpost].
      rewrite Hpre, Hpost, (IH Hc). reflexivity.
  - auto.
Qed.

Lemma fold_left_pointwise {A B} (f g : A -> B -> A) (l : list B) (a : A) :
  (forall x y, f x y = g x y) -> fold_left f l a = fold_left g l a.
Proof.
  intros H. revert a. induction l as [|y l IH]; intros a; simpl; [reflexivity|].
  rewrite H. apply IH.
Qed.

Lemma assoc_app {V} (k : string) (l1 l2 : list (string * V)) :
  assoc k (l1 ++ l2) =
  match assoc k l1 with
  | Some v => Some v
  | None => assoc k l2
  end.
Proof.
  induction l1 as [|[k' x] l1 IH]; simpl; [reflexivity|].
  destruct (k' =? k); [reflexivity | exact IH].
Qed.

(** One level of the walk, spelled out. *)
Lemma walk_hash_dir (es : entries) (rel : list string) (h : hasher) :
  walk_hash (Dir es) rel h =
  fold_left
    (fun h d =>
       match assoc d (map (fun e => let '(name, child) := e in
                                    (name, walk_hash child)) es) with
       | Some descend => descend (rel ++ [d]) h
       | None => h
       end)
    (sorted (filter keep_dir (walk_dirs es)))
    (fold_left (hash_file es rel)
               (sorted (filter keep_file (walk_nondirs es)))
               match rel with
               | [] => h
               | _ => update (update h tag_D) (encode (relpath rel))
               end).
Proof. reflexivity. Qed.

Lemma walk_hash_permuted (es es' : entries) (rel : list string) (h : hasher) :
  NoDup (map fst es) -> Permutation es es' ->
  walk_hash (Dir es) rel h = walk_hash (Dir es') rel h.
Proof.
  intros Hnd Hp. rewrite !walk_hash_dir.
  assert (Hd : sorted (filter keep_dir (walk_dirs es))
               = sorted (filter keep_dir (walk_dirs es'))).
  { apply sorted_permutation, filter_permutation, Permutation_map,
      filter_permutation, Hp. }
  assert (Hf : sorted (filter keep_file (walk_nondirs es))
               = sorted (filter keep_file (walk_nondirs es'))).
  { apply sorted_permutation, filter_permutation, Permutation_map,
      filter_permutation, Hp. }
  rewrite Hd, Hf.
  rewrite (fold_left_pointwise (hash_file es rel) (hash_file es' rel)).
  - apply fold_left_pointwise. intros x d.
    rewrite (@assoc_permutation (list string -> hasher -> hasher) d
               (map (fun e => let '(name, child) := e in
                              (name, walk_hash child)) es)
               (map (fun e => let '(name, child) := e in
                              (name, walk_hash child)) es')).
    + reflexivity.
    + rewrite map_map.
      rewrite (map_ext _ fst); [exact Hnd | intros [? ?]; reflexivity].
    + apply Permutation_map, Hp.
  - intros x name. unfold hash_file.
    rewrite (assoc_permutation name es es' Hnd Hp). reflexivity.
Qed.

Lemma walk_dirs_below (pre post : entries) (name : string) (child child' : node) :
  is_dir_entry child' = is_dir_entry child ->
  walk_dirs (pre ++ (name, child') :: post) = walk_dirs (pre ++ (name, child) :: post)
  /\ walk_nondirs (pre ++ (name, child') :: post)
     = walk_nondirs (pre ++ (name, child) :: post).
Proof.
  intros Hk. unfold walk_dirs, walk_nondirs.
  rewrite !filter_app. simpl. rewrite Hk.
  destruct (is_dir_entry child); simpl; rewrite !map_app; simpl; auto.
Qed.

Lemma walk_hash_below (pre post : entries) (name : string) (child child' : node)
      (rel : list string) (h : hasher) :
  reorder child child' ->
  (forall rel h, walk_hash child rel h = walk_hash child' rel h) ->
  walk_hash (Dir (pre ++ (name, child) :: post)) rel h
  = walk_hash (Dir (pre ++ (name, child') :: post)) rel h.
Proof.
  intros Hr IH. rewrite !walk_hash_dir.
  destruct (walk_dirs_below pre post name child child'
              (reorder_is_dir_entry _ _ Hr)) as [Hd Hn].
  rewrite Hd, Hn.
  rewrite (fold_left_pointwise
             (hash_file (pre ++ (name, child) :: post) rel)
             (hash_file (pre ++ (name, child') :: post) rel)).
  - apply fold_left_pointwise. intros x d.
    rewrite !map_app. simpl. rewrite !assoc_app. simpl.
    destruct (assoc d (map _ pre)); [reflexivity|].
    destruct (name =? d); [apply IH | reflexivity].
  - intros x n. unfold hash_file. rewrite !assoc_app. simpl.
    destruct (assoc n pre); [reflexivity|].
    destruct (name =? n); [|reflexivity].
    apply reorder_kind in Hr.
    destruct child; try (subst child'; reflexivity).
    destruct Hr as [es' ->]. reflexivity.
Qed.

Lemma well_formed_child (pre post : entries) (name : string) (child : node) :
  well_formed (Dir (pre ++ (name, child) :: post)) = true ->
  well_formed child = true.
Proof.
  simpl. intros H. apply andb_true_iff in H. destruct H as [_ H].
  rewrite forallb_app in H. simpl in H.
  apply andb_true_iff in H. destruct H as [_ H].
  apply andb_true_iff in H. destruct H as [H _]. exact H.
Qed.

(** The stream fed to the hasher does not depend on the order in which the
    entries are enumerated, at any level. *)
Lemma walk_hash_reorder (a b : node) :
  reorder a b -> well_formed a = true ->
  forall rel h, walk_hash a rel h = walk_hash b rel h.
Proof.
  induction 1 as [t|es es' Hp|pre name child child' post Hr IH|a b c Hab IH1 Hbc IH2];
    intros Hwf rel h.
  - reflexivity.
  - apply walk_hash_permuted; [|exact Hp].
    simpl in Hwf. apply andb_true_iff in Hwf. destruct Hwf as [Hn _].
    apply nodupb_NoDup. exact Hn.
  - apply walk_hash_below; [exact Hr|].
    apply IH. exact (well_formed_child _ _ _ _ Hwf).
  - rewrite (IH1 Hwf). apply IH2. exact (reorder_well_formed _ _ Hab Hwf).
Qed.

(** C1.  The digest of a directory does not depend on the order in which the
    file system enumerates entries: two worlds whose trees at [path] differ
    only in that order, at any level, get the same digest; in particular
    hashing twice, the tree untouched in between, yields the same digest.
    Only names, file bytes and link targets enter the stream. *)
Theorem hash_directory_order_independent
        (E : env) (p : path) (w1 w2 : world) (t1 t2 : node) :
  fs_lookup p (fs w1) = Some t1 ->
  fs_lookup p (fs w2) = Some t2 ->
  well_formed t1 = true ->
  reorder t1 t2 ->
  fst (_hash_directory E p w1) = fst (_hash_directory E p w2)
  /\ fst (_hash_directory E p (snd (_hash_directory E p w1)))
     = fst (_hash_directory E p w1).
Proof.
  intros H1 H2 Hwf Hr. split.
  - unfold _hash_directory, fingerprint. simpl. rewrite H1, H2.
    rewrite (walk_hash_reorder _ _ Hr Hwf). reflexivity.
  - reflexivity.
Qed.

(** ** [_cmd_update] *)

Lemma update_and_report_spec (E : env) (name : string) (entry : json)
      (dest_root : path) (args : update_args) (w : world) :
  fst (update_and_report E name entry dest_root args w)
  = Ok (raised (fst (_update_one E name entry dest_root args w))).
Proof.
  unfold update_and_report, try_except, bind.
  destruct (_update_one E name entry dest_root args w) as [[[|]|e] w1]; reflexivity.
Qed.

(** The loop returns whether [errors] was set on entry or some attempted
    update raised; a raising update does not end the loop. *)
Lemma update_loop_spec (E : env) (skills : list (string * json))
      (dest_root : path) (args : update_args) (targets : list string) :
  forall (errors : bool) (w : world),
    fst (update_loop E skills dest_root args targets errors w)
    = Ok (errors || existsb (fun a => raised (snd a))
                            (attempts E skills dest_root args targets w)).
Proof.
  induction targets as [|name rest IH]; intros errors w; simpl.
  - rewrite orb_false_r. reflexivity.
  - destruct (negb (Py.truthy (entry_of skills name))); [apply IH|].
    unfold bind.
    pose proof (update_and_report_spec E name (entry_of skills name)
                                       dest_root args w) as Hr.
    destruct (update_and_report E name (entry_of skills name) dest_root args w)
      as [r w1]. simpl in Hr. subst r. simpl.
    rewrite IH, orb_assoc. reflexivity.
Qed.

(** The loop attempts exactly the targets whose entry is truthy, in order,
    whatever the earlier attempts returned. *)
Lemma attempts_names (E : env) (skills : list (string * json))
      (dest_root : path) (args : update_args) (targets : list string) :
  forall w,
    map fst (attempts E skills dest_root args targets w)
    = filter (fun name => Py.truthy (entry_of skills name)) targets.
Proof.
  induction targets as [|name rest IH]; intros w; simpl; [reflexivity|].
  destruct (Py.truthy (entry_of skills name)); simpl; [f_equal|]; apply IH.
Qed.

Lemma for_each_eprint (names : list string) (line : string -> string) (w : world) :
  exists w', for_each names (fun name => eprint (line name)) w = (Ok tt, w')
             /\ fs w' = fs w /\ calls w' = calls w
             /\ stderr w' = stderr w ++ map line names
             /\ stdout w' = stdout w.
Proof.
  revert w. induction names as [|name names IH]; intros w; simpl.
  - exists w. rewrite app_nil_r. auto.
  - unfold bind. unfold eprint at 1. cbn beta iota.
    match goal with
    | |- context [for_each names _ ?w0] =>
        destruct (IH w0) as (w' & Hrun & H1 & H2 & H3 & H4)
    end.
    exists w'. rewrite Hrun. simpl in *. rewrite H3, <- app_assoc. auto.
Qed.

Lemma sorted_nil_inv (l : list string) : sorted l = [] -> l = [].
Proof.
  destruct l as [|x l]; [reflexivity|]. unfold sorted. simpl.
  destruct (fold_right insert_sorted [] l); simpl; [discriminate|].
  destruct (String.leb x s); discriminate.
Qed.

(** C4, as the code has it.  [_cmd_update] returns 1 when the registry file
    is absent.  When the registry loads, it returns 1 when the list of
    targets is empty, which is the case when neither [--all] nor names are
    given and also when [--all] is given and the registry holds no skill;
    otherwise it returns 1 if some attempted update raised and 0 if none
    did, names absent from the registry being passed over. *)
Theorem cmd_update_exit_status
        (E : env) (args : update_args) (dest_root : path) (w : world) :
  let sp := sources_path_of (arg_sources args) dest_root in
  (node_exists (fs_lookup sp (fs w)) = false ->
   fst (_cmd_update E args dest_root w) = Ok 1)
  /\ forall data w1,
      node_exists (fs_lookup sp (fs w)) = true ->
      _load_sources E sp (log (C_stat sp) w) = (Ok data, w1) ->
      let skills := skills_of data in
      let targets := targets_of args skills in
      (targets = [] <->
       (arg_all args = true /\ skills = [])
       \/ (arg_all args = false
           /\ (arg_name args = None \/ arg_name args = Some [])))
      /\ (targets = [] -> fst (_cmd_update E args dest_root w) = Ok 1)
      /\ (targets <> [] ->
          exists w2,
            for_each (missing_names skills targets)
                     (fun name => eprint (msg_missing name)) w1 = (Ok tt, w2)
            /\ let tries := attempts E skills dest_root args targets w2 in
               fst (_cmd_update E args dest_root w)
               = Ok (if existsb (fun a => raised (snd a)) tries then 1 else 0)
               /\ (fst (_cmd_update E args dest_root w) = Ok 1 <->
                   exists name e, In (name, Raise e) tries)
               /\ (forall name r, In (name, r) tries ->
                                  In name targets /\ has_key name skills = true)).
Proof.
  intros sp. split.
  - intros Habs. unfold _cmd_update, bind, os_path_exists. fold sp.
    rewrite Habs. reflexivity.
  - intros data w1 Hex Hload skills targets. split; [|split].
    + unfold targets, targets_of. destruct (arg_all args).
      * split.
        -- intros H. left. split; [reflexivity|].
           apply sorted_nil_inv in H. destruct skills; [reflexivity | discriminate].
        -- intros [[_ ->]|[H _]]; [reflexivity | discriminate].
      * destruct (arg_name args) as [[|n names]|]; split; intros H; auto;
          try discriminate.
        -- destruct H as [[H _]|[_ [H|H]]]; discriminate.
    + intros Hnil. unfold _cmd_update, bind, os_path_exists. fold sp.
      rewrite Hex. cbn [negb]. rewrite Hload.
      fold skills. fold targets. rewrite Hnil. reflexivity.
    + intros Hne.
      destruct (for_each_eprint (missing_names skills targets) msg_missing w1)
        as (w2 & Hw2 & _).
      exists w2. split; [exact Hw2|].
      assert (Hrun : fst (_cmd_update E args dest_root w)
                     = Ok (if existsb (fun a => raised (snd a))
                                      (attempts E skills dest_root args targets w2)
                           then 1 else 0)).
      { unfold _cmd_update, bind, os_path_exists. fold sp.
        rewrite Hex. cbn [negb]. rewrite Hload.
        fold skills. fold targets.
        destruct targets as [|t0 ts] eqn:Ht; [contradiction|].
        cbn [PosixPath.is_nil].
        change (filter (fun name => negb (has_key name skills)) (t0 :: ts))
          with (missing_names skills (t0 :: ts)).
        rewrite Hw2.
        pose proof (update_loop_spec E skills dest_root args (t0 :: ts) false w2) as Hl.
        destruct (update_loop E skills dest_root args (t0 :: ts) false w2) as [r w3].
        simpl in Hl. subst r. simpl.
        destruct (existsb _ _); reflexivity. }
      cbv zeta. split; [exact Hrun|]. split.
      * rewrite Hrun. split.
        -- intros H.
           destruct (existsb _ _) eqn:Hx; [|discriminate].
           apply existsb_exists in Hx. destruct Hx as ([name [b|e]] & Hin & Hr);
             [discriminate|]. eauto.
        -- intros (name & e & Hin).
           assert (Hx : existsb (fun a => raised (snd a))
                                (attempts E skills dest_root args targets w2) = true).
           { apply existsb_exists. exists (name, Raise e). auto. }
           rewrite Hx. reflexivity.
      * intros name r Hin.
        apply (in_map fst) in Hin. simpl in Hin.
        rewrite attempts_names in Hin. apply filter_In in Hin.
        destruct Hin as [Hin Ht]. split; [exact Hin|].
        unfold entry_of, has_key in *.
        destruct (assoc name skills); [reflexivity | discriminate].
Qed.

(** ** The theorems at work on the sample worlds *)

Import Sample.

Lemma reorder_sample : reorder skill skill_reordered.
Proof.
  unfold skill, skill_reordered.
  eapply reorder_trans.
  - apply (@reorder_below
             [("SKILL.md", File (encode "# foo")); ("a.txt", File (encode "hi"))]
             "docs" _
             (Dir [("a.lnk", Symlink "../a.txt" LinkFile); ("b.txt", File (encode "b"))])
             []).
    apply reorder_here. apply perm_swap.
  - apply reorder_here. simpl.
    eapply perm_trans; [apply perm_skip, perm_swap|].
    eapply perm_trans; [apply perm_swap|].
    apply perm_skip, perm_swap.
Qed.

Lemma hash_directory_order_independent_witness :
  fst (_hash_directory environment (dest_root ++ ["foo"])
         (start (root text_local [("foo", skill)]) []))
  = fst (_hash_directory environment (dest_root ++ ["foo"])
           (start (root text_local [("foo", skill_reordered)]) [])).
Proof.
  apply (hash_directory_order_independent environment (dest_root ++ ["foo"])
           (start (root text_local [("foo", skill)]) [])
           (start (root text_local [("foo", skill_reordered)]) [])
           skill skill_reordered).
  - reflexivity.
  - reflexivity.
  - reflexivity.
  - exact reorder_sample.
Defined.

Lemma replace_skill_rollback_witness :
  exists w',
    _replace_skill dest_root "foo" ["src"; "foo"] false
      (start (root text_local [("foo", skill_old)])
             [None; Some (OSError "final move refused")])
    = (Raise (OSError "final move refused"), w')
    /\ fs_lookup (dest_root ++ ["foo"]) (fs w') = Some skill_old.
Proof.
  destruct (replace_skill_rollback dest_root "foo" ["src"; "foo"] false
              (start (root text_local [("foo", skill_old)])
                     [None; Some (OSError "final move refused")])
              skill_old (OSError "final move refused")
              (Some (OSError "final move refused")) [])
    as (w' & Hrun & _ & Hdest & _).
  - reflexivity.
  - reflexivity.
  - reflexivity.
  - reflexivity.
  - left. reflexivity.
  - exists w'. split; [exact Hrun | exact Hdest].
Defined.

(** The claim of C2 read to the letter fails when the restoring move is
    refused as well: a backup was made, the final move failed and left the
    target vacant, and yet the target is still vacant when
    [_replace_skill] returns, the old copy sits at the backup path, and the
    failure raised is that of the restoring move, not the original one. *)
Lemma replace_skill_restore_refused :
  let w := start (root text_local [("foo", skill_old)]) refused_twice in
  let run := _replace_skill dest_root "foo" ["src"; "foo"] false w in
  fs_lookup (dest_root ++ ["foo"]) (fs w) = Some skill_old
  /\ In (C_move (dest_root ++ ["foo"])
                (dest_root ++ [backup_name "foo" (clock w)])) (calls (snd run))
  /\ fst run = Raise (OSError "restore refused")
  /\ fst run <> Raise (OSError "final move refused")
  /\ fs_lookup (dest_root ++ ["foo"]) (fs (snd run)) = None
  /\ fs_lookup (dest_root ++ [backup_name "foo" (clock w)]) (fs (snd run))
     = Some skill_old.
Proof.
  vm_compute. repeat split; try reflexivity.
  - right. right. left. reflexivity.
  - discriminate.
Qed.

Lemma update_one_unchanged_witness :
  exists w',
    _update_one environment "foo" local_entry dest_root default_args
      (start (root text_local [("foo", skill_reordered)]) [])
    = (Ok false, w')
    /\ fs w' = root text_local [("foo", skill_reordered)].
Proof.
  edestruct (update_one_unchanged environment "foo" local_entry dest_root
               default_args
               (start (root text_local [("foo", skill_reordered)]) []))
    as (w' & Hrun & _ & _ & Hfs & _).
  - vm_compute. reflexivity.
  - vm_compute. reflexivity.
  - vm_compute. reflexivity.
  - vm_compute. reflexivity.
  - exists w'. split; [exact Hrun | exact Hfs].
Defined.

Lemma multi_path_descriptor_refused_witness :
  exists e w',
    _update_one environment "foo" (JObj multi_path_fields) dest_root default_args
      (start (root text_local []) [])
    = (Raise e, w')
    /\ fs w' = root text_local []
    /\ e = ValueError msg_one_path.
Proof.
  destruct (multi_path_descriptor_refused environment "foo" multi_path_fields
              [JStr "a"; JStr "b"] dest_root default_args
              ["tmp"; "t"; "stage"] (default_installer environment)
              (start (root text_local []) []))
    as (_ & e & w' & Hrun & _ & Hfs & He).
  - reflexivity.
  - reflexivity.
  - reflexivity.
  - simpl. lia.
  - exists e, w'. split; [exact Hrun|]. split; [exact Hfs|].
    apply He.
    + eexists _, _. vm_compute. reflexivity.
    + reflexivity.
Defined.

(** The claim of C7 read to the letter fails: by the time the multi-path
    descriptor is refused, the update has created the temporary root and
    its stage directory and has probed the installer script, so the error
    is not raised before any I/O is attempted; and with the installer script
    absent the error raised is not the one about the descriptor. *)
Lemma multi_path_refusal_after_temp_root :
  let w := start (root text_local []) [] in
  let made := tempfile_mkdtemp environment "skill-update-" w in
  let staged := stage_candidate environment "foo" (JObj multi_path_fields)
                  default_args ["tmp"; "skill-update-abc123"] (snd made) in
  let run := _update_one environment "foo" (JObj multi_path_fields) dest_root
               default_args w in
  let bare := start (Dir [("tmp", Dir [])]) [] in
  calls w = []
  /\ fst made = Ok ["tmp"; "skill-update-abc123"]
  /\ fst staged = Raise (ValueError msg_one_path)
  /\ calls (snd staged)
     = [C_mkdtemp "skill-update-";
        C_makedirs ["tmp"; "skill-update-abc123"; "stage"];
        C_stat (default_installer environment)]
  /\ fs_lookup ["tmp"; "skill-update-abc123"] (fs (snd staged))
     = Some (Dir [("stage", Dir [])])
  /\ fst run = Raise (ValueError msg_one_path)
  /\ calls (snd run) = calls (snd staged) ++ [C_rmtree ["tmp"; "skill-update-abc123"]]
  /\ fst (_update_one environment "foo" (JObj multi_path_fields) dest_root
            default_args bare)
     = Raise (FileNotFoundError msg_no_installer).
Proof. vm_compute. repeat split. Qed.

Lemma bad_repo_path_rejected_witness :
  _validate_repo_path "../x" = Raise (ValueError msg_repo_path)
  /\ exists e w',
      _update_one environment "foo" (JObj escaping_fields) dest_root default_args
        (start (root text_local []) [])
      = (Raise e, w')
      /\ calls_where staging_call w' = [].
Proof.
  destruct (bad_repo_path_rejected_before_staging environment "foo"
              escaping_fields "../x" dest_root default_args
              ["tmp"; "t"; "stage"] (default_installer environment)
              (start (root text_local []) []))
    as (Hv & _ & e & w' & Hrun & Hcalls & _).
  - reflexivity.
  - reflexivity.
  - left. reflexivity.
  - right. left. vm_compute. reflexivity.
  - split; [exact Hv|]. exists e, w'. split; [exact Hrun | exact Hcalls].
Defined.

Lemma cmd_remove_absent_names_witness :
  exists w',
    _cmd_remove environment None ["bar"] dest_root
      (start (root text_local [("foo", skill)]) [])
    = (Ok 0, w')
    /\ stdout w' = [msg_none_removed]
    /\ fs w' = root text_local [("foo", skill)].
Proof.
  edestruct (cmd_remove_absent_names_untouched environment None ["bar"] dest_root
               (start (root text_local [("foo", skill)]) []))
    as (w' & Hrun & Hout & Hfs & _).
  - vm_compute. reflexivity.
  - intros name [<-|[]]. reflexivity.
  - exists w'. split; [exact Hrun|]. split; [exact Hout | exact Hfs].
Defined.

Lemma is_same_skill_without_installed_witness :
  exists w',
    _is_same_skill environment (dest_root ++ ["foo"]) ["src"; "foo"]
      (start (root text_local []) [])
    = (Ok false, w')
    /\ calls w' = [C_stat (dest_root ++ ["foo"])].
Proof.
  destruct (is_same_skill_without_installed environment (dest_root ++ ["foo"])
              ["src"; "foo"] (start (root text_local []) []))
    as (w' & Hrun & Hcalls & _).
  - left. reflexivity.
  - exists w'. split; [exact Hrun | exact Hcalls].
Defined.

Lemma cmd_update_exit_status_witness :
  fst (_cmd_update environment default_args dest_root
         (start (root text_local [("foo", skill_old)]) []))
  = Ok 0.
Proof.
  destruct (cmd_update_exit_status environment default_args dest_root
              (start (root text_local [("foo", skill_old)]) []))
    as [_ H].
  edestruct H as (_ & _ & Hrun).
  - reflexivity.
  - vm_compute. reflexivity.
  - destruct Hrun as (w2 & Hw2 & Hcode & _); [discriminate|].
    vm_compute in Hw2. injection Hw2 as <-.
    rewrite Hcode. vm_compute. reflexivity.
Defined.

(** The claim of C4 read to the letter fails for [--all] over a registry
    that holds no skill: the registry file is there, targets were specified
    with [--all], no update raised (none was started), and the status is 1
    all the same. *)
Lemma cmd_update_all_on_empty_registry :
  let w := start (root text_empty []) [] in
  let run := _cmd_update environment all_args dest_root w in
  node_exists (fs_lookup (sources_path_of (arg_sources all_args) dest_root) (fs w))
  = true
  /\ arg_all all_args = true
  /\ attempts environment [] dest_root all_args [] w = []
  /\ (forall p, ~ In (C_mkdtemp p) (calls (snd run)))
  /\ fst run = Ok 1
  /\ stderr (snd run) = [msg_no_targets].
Proof.
  vm_compute. repeat split; try reflexivity.
  intros p [H|[H|[H|[]]]]; discriminate.
Qed.

(** C5 at a registry whose record for [foo] is the empty object: [foo] is
    a key of the registry, yet its update is not attempted (no temporary
    root is made, no update line is printed), it is not reported missing
    either, and the status is 0. *)
Theorem cmd_update_passes_over_empty_record :
  let w := start (root text_empty_entry []) [] in
  let run := _cmd_update environment default_args dest_root w in
  json_loads environment (encode text_empty_entry)
  = Some (registry [("foo", JObj [])])
  /\ has_key "foo" [("foo", JObj [])] = true
  /\ attempts environment [("foo", JObj [])] dest_root default_args ["foo"] w = []
  /\ fst run = Ok 0
  /\ stdout (snd run) = []
  /\ stderr (snd run) = []
  /\ (forall p, ~ In (C_mkdtemp p) (calls (snd run)))
  /\ fst (_update_one environment "foo" (JObj []) dest_root default_args w)
     = Raise (ValueError msg_missing_fields).
Proof.
  vm_compute. repeat split; try reflexivity.
  intros p [H|[H|[H|[]]]]; discriminate.
Qed.

(** The scenarios of the specification, run. *)

Example sorted_names : sorted ["b.txt"; "SKILL.md"; "a.txt"] = ["SKILL.md"; "a.txt"; "b.txt"].
Proof. reflexivity. Qed.

Example fingerprint_stream :
  fingerprint environment (Some skill)
  = "FSKILL.md# fooFa.txthiDdocsFdocs/a.lnkL../a.txtFdocs/b.txtb".
Proof. vm_compute. reflexivity. Qed.

Example fingerprint_ignores :
  fingerprint environment
    (Some (Dir [(".git", Dir [("HEAD", File (encode "ref"))]);
                ("a.pyc", File (encode "x"));
                (".DS_Store", File (encode "y"));
                ("SKILL.md", File (encode "# foo"))]))
  = fingerprint environment (Some (Dir [("SKILL.md", File (encode "# foo"))])).
Proof. vm_compute. reflexivity. Qed.

Example first_install_reports_changed :
  let run := _cmd_update environment default_args dest_root
               (start (root text_local []) []) in
  fst run = Ok 0
  /\ stdout (snd run) = [msg_updated "foo"]
  /\ fs_lookup (dest_root ++ ["foo"; "a.txt"]) (fs (snd run))
     = Some (File (encode "hi")).
Proof. vm_compute. repeat split. Qed.

Example remove_rewrites_when_found :
  let run := _cmd_remove environment None ["foo"] dest_root
               (start (root text_local []) []) in
  fst run = Ok 0
  /\ stdout (snd run) = [msg_removed "foo"]
  /\ calls_where writing_call (snd run)
     = [C_makedirs dest_root; C_open_w (dest_root ++ [DEFAULT_SOURCES_NAME])].
Proof. vm_compute. repeat split. Qed.

(** When the timestamped backup path is already a directory, the installed
    copy is moved into it, and what the rollback brings back to the target
    is that directory with the copy inside. *)
Example backup_path_taken :
  let taken := Dir [("x", File (encode "x"))] in
  let run := _replace_skill dest_root "foo" ["src"; "foo"] false
               (start (root text_local
                             [("foo", skill_old);
                              (backup_name "foo" "20240101000000", taken)])
                      [None; Some (OSError "final move refused")]) in
  fst run = Raise (OSError "final move refused")
  /\ fs_lookup (dest_root ++ ["foo"]) (fs (snd run))
     = Some (Dir [("x", File (encode "x")); ("foo", skill_old)]).
Proof. vm_compute. repeat split. Qed.

(** * Further properties

    What the code shows beyond the statements above, function by function. *)

(** ** [_hash_directory]: what the stream holds and what it leaves out *)

Lemma In_insert_sorted (x y : string) (l : list string) :
  In x (insert_sorted y l) <-> x = y \/ In x l.
Proof.
  induction l as [|z l IH]; simpl.
  - intuition.
  - destruct (String.leb y z); simpl; [intuition|].
    rewrite IH. intuition.
Qed.

Lemma In_sorted (x : string) (l : list string) : In x (sorted l) <-> In x l.
Proof.
  induction l as [|y l IH]; simpl; [reflexivity|].
  rewrite In_insert_sorted, IH. intuition.
Qed.

Lemma fold_left_ext_in {A B} (f g : A -> B -> A) (l : list B) (a : A) :
  (forall x y, In y l -> f x y = g x y) -> fold_left f l a = fold_left g l a.
Proof.
  revert a. induction l as [|y l IH]; intros a H; simpl; [reflexivity|].
  rewrite (H a y (or_introl eq_refl)). apply IH.
  intros x z Hz. apply H. right. exact Hz.
Qed.

Lemma fold_left_insert_sorted_skip {A} (f : A -> string -> A) (x : string)
      (l : list string) (a : A) :
  (forall a, f a x = a) ->
  fold_left f (insert_sorted x l) a = fold_left f l a.
Proof.
  intros Hx. revert a. induction l as [|y l IH]; intros a; simpl.
  - apply Hx.
  - destruct (String.leb x y); simpl; [rewrite Hx; reflexivity | apply IH].
Qed.

Lemma sorted_middle (x : string) (l1 l2 : list string) :
  sorted (l1 ++ x :: l2) = insert_sorted x (sorted (l1 ++ l2)).
Proof.
  rewrite (sorted_permutation (l1 ++ x :: l2) (x :: l1 ++ l2)).
  - reflexivity.
  - apply Permutation_sym, Permutation_middle.
Qed.

Lemma walk_dirs_app (l1 l2 : entries) :
  walk_dirs (l1 ++ l2) = walk_dirs l1 ++ walk_dirs l2.
Proof. unfold walk_dirs. rewrite filter_app, map_app. reflexivity. Qed.

Lemma walk_nondirs_app (l1 l2 : entries) :
  walk_nondirs (l1 ++ l2) = walk_nondirs l1 ++ walk_nondirs l2.
Proof. unfold walk_nondirs. rewrite filter_app, map_app. reflexivity. Qed.

Lemma walk_dirs_cons (name : string) (child : node) (l : entries) :
  walk_dirs ((name, child) :: l)
  = (if is_dir_entry child then [name] else []) ++ walk_dirs l.
Proof. unfold walk_dirs. simpl. destruct (is_dir_entry child); reflexivity. Qed.

Lemma walk_nondirs_cons (name : string) (child : node) (l : entries) :
  walk_nondirs ((name, child) :: l)
  = (if is_dir_entry child then [] else [name]) ++ walk_nondirs l.
Proof. unfold walk_nondirs. simpl. destruct (is_dir_entry child); reflexivity. Qed.

Lemma walk_dirs_names (es : entries) (d : string) :
  In d (walk_dirs es) -> In d (map fst es).
Proof.
  unfold walk_dirs. rewrite !in_map_iff. intros (e & He & Hin).
  apply filter_In in Hin. exists e. tauto.
Qed.

Lemma walk_nondirs_names (es : entries) (d : string) :
  In d (walk_nondirs es) -> In d (map fst es).
Proof.
  unfold walk_nondirs. rewrite !in_map_iff. intros (e & He & Hin).
  apply filter_In in Hin. exists e. tauto.
Qed.

Lemma assoc_skip {V} (k name : string) (v : V) (pre post : list (string * V)) :
  k <> name -> assoc k (pre ++ (name, v) :: post) = assoc k (pre ++ post).
Proof.
  intros Hne. rewrite !assoc_app. simpl.
  destruct (name =? k) eqn:E; [|reflexivity].
  apply String.eqb_eq in E. congruence.
Qed.

(** Taking one passed-over entry out of a directory leaves the stream of
    the walk as it was. *)
Lemma walk_hash_drop (pre post : entries) (name : string) (child : node)
      (rel : list string) (h : hasher) :
  NoDup (map fst (pre ++ (name, child) :: post)) ->
  unseen name child = true ->
  walk_hash (Dir (pre ++ (name, child) :: post)) rel h
  = walk_hash (Dir (pre ++ post)) rel h.
Proof.
  intros Hnd Hun.
  assert (Hfresh : ~ In name (map fst (pre ++ post))).
  { rewrite map_app in Hnd. simpl in Hnd. apply NoDup_remove_2 in Hnd.
    rewrite map_app. exact Hnd. }
  assert (Hfiles :
            sorted (filter keep_file (walk_nondirs (pre ++ (name, child) :: post)))
            = sorted (filter keep_file (walk_nondirs (pre ++ post)))).
  { rewrite !walk_nondirs_app, walk_nondirs_cons.
    destruct (is_dir_entry child) eqn:Hk; simpl; [reflexivity|].
    rewrite !filter_app. simpl.
    assert (keep_file name = false) as ->; [|reflexivity].
    destruct child as [c|t [| |]|es]; simpl in *;
      try discriminate; apply negb_true_iff; exact Hun. }
  rewrite !walk_hash_dir, Hfiles.
  set (h1 := fold_left (hash_file (pre ++ (name, child) :: post) rel) _ _).
  set (h2 := fold_left (hash_file (pre ++ post) rel) _ _).
  assert (Hh : h1 = h2).
  { apply fold_left_ext_in. intros x n Hin.
    apply (proj1 (In_sorted _ _)) in Hin. apply (proj1 (filter_In _ _ _)) in Hin. destruct Hin as [Hin _].
    apply walk_nondirs_names in Hin.
    unfold hash_file. rewrite assoc_skip; [reflexivity|].
    intros ->. contradiction. }
  rewrite Hh. clear Hh h1 Hfiles. generalize h2. clear h2. intros h2.
  assert (Hstep : forall x d, In d (map fst (pre ++ post)) ->
            match assoc d (map (fun e => let '(name, child) := e in
                                         (name, walk_hash child))
                               (pre ++ (name, child) :: post)) with
            | Some descend => descend (rel ++ [d]) x
            | None => x
            end
            = match assoc d (map (fun e => let '(name, child) := e in
                                           (name, walk_hash child))
                                 (pre ++ post)) with
              | Some descend => descend (rel ++ [d]) x
              | None => x
              end).
  { intros x d Hin. rewrite !map_app. simpl. rewrite assoc_skip; [reflexivity|].
    intros ->. contradiction. }
  rewrite (walk_dirs_app pre ((name, child) :: post)), walk_dirs_cons.
  destruct (is_dir_entry child && keep_dir name) eqn:Hk.
  - apply andb_true_iff in Hk. destruct Hk as [Hdir Hkeep].
    rewrite Hdir. simpl. rewrite filter_app. simpl. rewrite Hkeep.
    rewrite sorted_middle, <- filter_app, <- walk_dirs_app.
    rewrite fold_left_insert_sorted_skip.
    + apply fold_left_ext_in. intros x d Hin. apply Hstep.
      apply (proj1 (In_sorted _ _)) in Hin. apply (proj1 (filter_In _ _ _)) in Hin.
      apply walk_dirs_names. tauto.
    + intros a. rewrite !map_app. simpl. rewrite assoc_app.
      assert (assoc name (map (fun e => let '(name, child) := e in
                                        (name, walk_hash child)) pre) = None) as ->.
      { apply assoc_None. rewrite map_map.
        rewrite (map_ext _ fst); [|intros [? ?]; reflexivity].
        intros Hin. apply Hfresh. rewrite map_app. apply in_or_app. tauto. }
      simpl. rewrite String.eqb_refl.
      destruct child as [c|t [| |]|es]; simpl in *; try discriminate;
        try reflexivity.
      rewrite Hkeep in Hun. discriminate.
  - assert (Hlist :
              filter keep_dir (walk_dirs pre
                               ++ (if is_dir_entry child then [name] else [])
                               ++ walk_dirs post)
              = filter keep_dir (walk_dirs (pre ++ post))).
    { rewrite walk_dirs_app, !filter_app.
      destruct (is_dir_entry child); simpl in *; [rewrite Hk|]; reflexivity. }
    rewrite Hlist.
    apply fold_left_ext_in. intros x d Hin. apply Hstep.
    apply (proj1 (In_sorted _ _)) in Hin. apply (proj1 (filter_In _ _ _)) in Hin.
    apply walk_dirs_names. tauto.
Qed.

(** X1.  The read loop of lines 101 to 106 feeds every byte of a regular
    file, whatever its length: the bytes a file adds to the stream are the
    tag [F], its path relative to the walked root and its whole content, and
    reading by chunks of 8192 bytes shows nowhere in the stream. *)
Theorem hash_file_feeds_whole_content
        (es : entries) (rel : list string) (h : hasher) (name : string)
        (content : list byte) :
  assoc name es = Some (File content) ->
  hash_file es rel h name
  = h ++ tag_F ++ encode (relpath (rel ++ [name])) ++ content.
Proof.
  intros Hf. unfold hash_file, update. rewrite Hf, hash_content_all.
  rewrite <- !app_assoc. reflexivity.
Qed.

Lemma hash_file_feeds_whole_content_witness :
  hash_file [("a.txt", File (encode "hi"))] ["docs"] (encode "F") "a.txt"
  = encode "FFdocs/a.txthi".
Proof.
  exact (hash_file_feeds_whole_content
           [("a.txt", File (encode "hi"))] ["docs"] (encode "F") "a.txt"
           (encode "hi") eq_refl).
Defined.

Lemma sheds_kind (a b : node) :
  sheds a b ->
  match a with
  | Dir _ => exists es', b = Dir es'
  | _ => b = a
  end.
Proof.
  induction 1 as [t|pre name child post _|pre name child child' post _ _
                  |a b c _ IH1 _ IH2].
  - destruct t; eauto.
  - eauto.
  - eauto.
  - destruct a; try (subst b; exact IH2).
    destruct IH1 as [es' ->]. exact IH2.
Qed.

Lemma sheds_well_formed (a b : node) :
  sheds a b -> well_formed a = true -> well_formed b = true.
Proof.
  induction 1 as [t|pre name child post _|pre name child child' post _ IH
                  |a b c _ IH1 _ IH2];
    intros Hwf.
  - exact Hwf.
  - simpl in *. apply andb_true_iff in Hwf. destruct Hwf as [Hn Hf].
    apply andb_true_iff. split.
    + apply nodupb_NoDup. apply nodupb_NoDup in Hn.
      rewrite map_app in *. simpl in Hn. exact (NoDup_remove_1 _ _ _ Hn).
    + rewrite forallb_app in *. simpl in Hf.
      apply andb_true_iff in Hf. destruct Hf as [Hpre Hf].
      apply andb_true_iff in Hf. destruct Hf as [_ Hpost].
      rewrite Hpre, Hpost. reflexivity.
  - simpl in *. apply andb_true_iff in Hwf. destruct Hwf as [Hn Hf].
    apply andb_true_iff. split.
    + rewrite map_app in *. exact Hn.
    + rewrite forallb_app in *. simpl in *.
      apply andb_true_iff in Hf. destruct Hf as [Hpre Hf].
      apply andb_true_iff in Hf. destruct Hf as [Hc Hpost].
      rewrite Hpre, Hpost, (IH Hc). reflexivity.
  - auto.
Qed.

(** A child replaced by one of the same kind that the walk cannot tell from
    it. *)
Lemma walk_hash_child (pre post : entries) (name : string) (child child' : node)
      (rel : list string) (h : hasher) :
  match child with
  | Dir _ => exists es', child' = Dir es'
  | _ => child' = child
  end ->
  (forall rel h, walk_hash child rel h = walk_hash child' rel h) ->
  walk_hash (Dir (pre ++ (name, child) :: post)) rel h
  = walk_hash (Dir (pre ++ (name, child') :: post)) rel h.
Proof.
  intros Hk IH. rewrite !walk_hash_dir.
  assert (Hd : is_dir_entry child' = is_dir_entry child).
  { destruct child; try (subst child'; reflexivity).
    destruct Hk as [es' ->]. reflexivity. }
  destruct (walk_dirs_below pre post name child child' Hd) as [Hdirs Hn].
  rewrite Hdirs, Hn.
  rewrite (fold_left_pointwise
             (hash_file (pre ++ (name, child) :: post) rel)
             (hash_file (pre ++ (name, child') :: post) rel)).
  - apply fold_left_pointwise. intros x d.
    rewrite !map_app. simpl. rewrite !assoc_app. simpl.
    destruct (assoc d (map _ pre)); [reflexivity|].
    destruct (name =? d); [apply IH | reflexivity].
  - intros x n. unfold hash_file. rewrite !assoc_app. simpl.
    destruct (assoc n pre); [reflexivity|].
    destruct (name =? n); [|reflexivity].
    destruct child; try (subst child'; reflexivity).
    destruct Hk as [es' ->]. reflexivity.
Qed.

Lemma walk_hash_sheds (a b : node) :
  sheds a b -> well_formed a = true ->
  forall rel h, walk_hash a rel h = walk_hash b rel h.
Proof.
  induction 1 as [t|pre name child post Hun|pre name child child' post Hs IH
                  |a b c Hab IH1 Hbc IH2];
    intros Hwf rel h.
  - reflexivity.
  - apply walk_hash_drop; [|exact Hun].
    simpl in Hwf. apply andb_true_iff in Hwf. destruct Hwf as [Hn _].
    apply nodupb_NoDup. exact Hn.
  - apply walk_hash_child; [exact (sheds_kind _ _ Hs)|].
    apply IH. exact (well_formed_child _ _ _ _ Hwf).
  - rewrite (IH1 Hwf). apply IH2. exact (sheds_well_formed _ _ Hab Hwf).
Qed.

(** X2.  The digest passes over version-control and cache clutter wherever
    it sits in the tree: taking out any number of directories named [.git]
    or [__pycache__], of files named [.DS_Store] or ending in [.pyc], and of
    links to directories, at any depth, leaves the digest of [path] as it
    was.  An update that differs from the installed copy in such entries
    only is therefore reported as up to date. *)
Theorem hash_directory_passes_over_clutter
        (E : env) (p : path) (w1 w2 : world) (t1 t2 : node) :
  fs_lookup p (fs w1) = Some t1 ->
  fs_lookup p (fs w2) = Some t2 ->
  well_formed t1 = true ->
  sheds t1 t2 ->
  fst (_hash_directory E p w1) = fst (_hash_directory E p w2).
Proof.
  intros H1 H2 Hwf Hs.
  unfold _hash_directory, fingerprint. simpl. rewrite H1, H2.
  rewrite (walk_hash_sheds _ _ Hs Hwf). reflexivity.
Qed.

(** X3.  A link to a directory is never followed and its target never
    read: changing where it points, or removing it, does not change the
    digest.  (The target of a link to a file, by contrast, is fed after the
    tag [L].) *)
Theorem fingerprint_blind_to_directory_links
        (E : env) (pre post : entries) (name target target' : string) :
  NoDup (map fst (pre ++ (name, Symlink target LinkDir) :: post)) ->
  fingerprint E (Some (Dir (pre ++ (name, Symlink target LinkDir) :: post)))
  = fingerprint E (Some (Dir (pre ++ (name, Symlink target' LinkDir) :: post)))
  /\ fingerprint E (Some (Dir (pre ++ (name, Symlink target LinkDir) :: post)))
     = fingerprint E (Some (Dir (pre ++ post))).
Proof.
  intros Hnd. unfold fingerprint.
  rewrite (walk_hash_drop pre post name (Symlink target LinkDir) [] [] Hnd eq_refl).
  rewrite (walk_hash_drop pre post name (Symlink target' LinkDir) [] []);
    [split; reflexivity | | reflexivity].
  rewrite map_app in *. exact Hnd.
Qed.

(** X4.  The stream carries no lengths and no separators, so it does not
    determine the tree: a directory with the two files [n1] and [n2] and a
    directory with the one file [n1] whose content is that of the first,
    the tag [F], the name [n2] and the content of the second, feed the same
    bytes.  The two trees have the same digest whatever the hash function
    is, and [_is_same_skill] cannot tell them apart. *)
Theorem fingerprint_without_framing
        (E : env) (n1 n2 : string) (c1 c2 : list byte) :
  keep_file n1 = true -> keep_file n2 = true ->
  n1 <> n2 -> String.leb n1 n2 = true ->
  fingerprint E (Some (Dir [(n1, File c1); (n2, File c2)]))
  = fingerprint E (Some (Dir [(n1, File (c1 ++ tag_F ++ encode n2 ++ c2))])).
Proof.
  intros K1 K2 Hne Hle. unfold fingerprint. f_equal.
  rewrite !walk_hash_dir.
  unfold walk_dirs, walk_nondirs. cbn [filter map fst snd is_dir_entry negb].
  rewrite K1, K2. cbn [sorted fold_right insert_sorted fold_left].
  rewrite Hle. cbn [fold_left].
  assert (A1 : assoc n1 [(n1, File c1); (n2, File c2)] = Some (File c1)).
  { simpl. rewrite String.eqb_refl. reflexivity. }
  assert (A2 : assoc n2 [(n1, File c1); (n2, File c2)] = Some (File c2)).
  { simpl. destruct (n1 =? n2) eqn:Heq.
    - apply String.eqb_eq in Heq. contradiction.
    - rewrite String.eqb_refl. reflexivity. }
  assert (A3 : assoc n1 [(n1, File (c1 ++ tag_F ++ encode n2 ++ c2))]
               = Some (File (c1 ++ tag_F ++ encode n2 ++ c2))).
  { simpl. rewrite String.eqb_refl. reflexivity. }
  unfold hash_file, update. rewrite A1, A2, A3, !hash_content_all.
  simpl. rewrite <- !app_assoc. reflexivity.
Qed.

Lemma sheds_clutter : sheds Cases.skill_cluttered Cases.skill_clean.
Proof.
  unfold Cases.skill_cluttered, Cases.skill_clean.
  eapply sheds_trans; [apply (@sheds_here [] ".git"); reflexivity|]. simpl.
  eapply sheds_trans;
    [apply (@sheds_here [("SKILL.md", _); ("lib", _)] ".DS_Store"); reflexivity|].
  simpl.
  eapply sheds_trans;
    [apply (@sheds_here [("SKILL.md", _); ("lib", _)] "latest" _ []); reflexivity|].
  simpl.
  apply (@sheds_below [("SKILL.md", _)] "lib" _ _ []).
  eapply sheds_trans; [apply (@sheds_here [] "__pycache__"); reflexivity|]. simpl.
  apply (@sheds_here [("m.py", _)] "m.pyc" _ []). reflexivity.
Qed.

Lemma hash_directory_passes_over_clutter_witness :
  fst (_hash_directory Sample.environment ["s"] (Cases.holding Cases.skill_cluttered))
  = fst (_hash_directory Sample.environment ["s"] (Cases.holding Cases.skill_clean)).
Proof.
  apply (hash_directory_passes_over_clutter Sample.environment ["s"]
           (Cases.holding Cases.skill_cluttered) (Cases.holding Cases.skill_clean)
           Cases.skill_cluttered Cases.skill_clean);
    [reflexivity | reflexivity | reflexivity | exact sheds_clutter].
Defined.

Lemma fingerprint_blind_to_directory_links_witness :
  fingerprint Sample.environment
    (Some (Dir [("SKILL.md", File (encode "# foo"));
                ("latest", Symlink "../releases/3" LinkDir)]))
  = fingerprint Sample.environment
      (Some (Dir [("SKILL.md", File (encode "# foo"));
                  ("latest", Symlink "/etc" LinkDir)])).
Proof.
  refine (proj1 (fingerprint_blind_to_directory_links Sample.environment
                   [("SKILL.md", File (encode "# foo"))] []
                   "latest" "../releases/3" "/etc" _)).
  simpl. repeat constructor; simpl; intuition discriminate.
Defined.

Lemma fingerprint_without_framing_witness :
  fingerprint Sample.environment
    (Some (Dir [("a", File (encode "x")); ("b", File (encode "y"))]))
  = fingerprint Sample.environment (Some (Dir [("a", File (encode "xFby"))])).
Proof.
  apply (fingerprint_without_framing Sample.environment "a" "b"
           (encode "x") (encode "y"));
    [reflexivity | reflexivity | discriminate | reflexivity].
Defined.

(** ** The registry: [_load_sources] and [_save_sources] *)

Lemma has_key_set_other {V} (k k' : string) (v : V) (es : list (string * V)) :
  k <> k' -> has_key k' (set_assoc k v es) = has_key k' es.
Proof. intros H. unfold has_key. rewrite (assoc_set_other _ _ _ _ H). reflexivity. Qed.

(** What [_load_sources] returns is an object with a [skills] object and a
    [version]. *)
Lemma load_sources_ok (E : env) (p : path) (w w' : world) (data : json) :
  _load_sources E p w = (Ok data, w') ->
  exists fields skills,
    data = JObj fields
    /\ assoc "skills" fields = Some (JObj skills)
    /\ has_key "version" fields = true.
Proof.
  unfold _load_sources, bind, os_path_exists, ret, raise.
  destruct (negb (node_exists (fs_lookup p (fs w)))).
  - intros H. inversion H; subst. exists [("version", JNum 1); ("skills", JObj [])], [].
    repeat split.
  - destruct (json_load E p (log (C_stat p) w)) as [[v|e] w1]; [|discriminate].
    destruct v as [| | | | |fields]; try discriminate.
    assert (Hver : forall fs0 sk,
               assoc "skills" fs0 = Some (JObj sk) ->
               exists fields skills,
                 JObj (match assoc "version" fs0 with
                       | Some _ => fs0
                       | None => set_assoc "version" (JNum 1) fs0
                       end) = JObj fields
                 /\ assoc "skills" fields = Some (JObj skills)
                 /\ has_key "version" fields = true).
    { intros fs0 sk Hsk. destruct (assoc "version" fs0) eqn:Hv.
      - exists fs0, sk. unfold has_key. rewrite Hv. auto.
      - exists (set_assoc "version" (JNum 1) fs0), sk. split; [reflexivity|].
        split.
        + rewrite assoc_set_other; [exact Hsk | discriminate].
        + unfold has_key. rewrite assoc_set_same. reflexivity. }
    destruct (assoc "skills" fields) as [[| | | | |sk]|] eqn:Hs;
      try discriminate; intros H; inversion H; subst.
    + apply (Hver _ []). apply assoc_set_same.
    + apply (Hver _ sk). exact Hs.
    + apply (Hver _ []). apply assoc_set_same.
Qed.

(** X5.  Whenever [_load_sources] returns, what it returns is a registry in
    normal form: an object whose [skills] field is an object and which has
    a [version], so that the commands can index it without checking.  It
    reads only: the tree is what it was and no call that writes was issued;
    and for a path at which nothing exists it returns the empty registry
    after the one [exists] probe, without opening or creating a file. *)
Theorem load_sources_yields_registry
        (E : env) (p : path) (w w' : world) (data : json) :
  _load_sources E p w = (Ok data, w') ->
  (exists fields skills,
      data = JObj fields
      /\ assoc "skills" fields = Some (JObj skills)
      /\ skills_of data = skills
      /\ has_key "version" fields = true)
  /\ fs w' = fs w
  /\ calls_where writing_call w' = calls_where writing_call w
  /\ (node_exists (fs_lookup p (fs w)) = false ->
      data = empty_registry /\ calls w' = calls w ++ [C_stat p]).
Proof.
  intros Hload. split; [|split; [|split]].
  - destruct (load_sources_ok _ _ _ _ _ Hload) as (fields & skills & -> & Hs & Hv).
    exists fields, skills. simpl. rewrite Hs. auto.
  - exact (@load_sources_look E _ fs _ (fun _ _ => eq_refl) _ _ _ Hload).
  - exact (@load_sources_calls E writing_call _ eq_refl eq_refl _ _ _ Hload).
  - intros Hex. unfold _load_sources, bind, os_path_exists in Hload.
    rewrite Hex in Hload. simpl in Hload. inversion Hload; subst. auto.
Qed.

Lemma load_sources_yields_registry_witness :
  exists w',
    _load_sources Sample.environment (Sample.dest_root ++ [DEFAULT_SOURCES_NAME])
      (Sample.start (Sample.root Sample.text_local []) [])
    = (Ok (Sample.registry [("foo", Sample.local_entry)]), w')
    /\ fs w' = Sample.root Sample.text_local []
    /\ calls_where writing_call w' = [].
Proof.
  eexists. split; [reflexivity|].
  destruct (load_sources_yields_registry Sample.environment
              (Sample.dest_root ++ [DEFAULT_SOURCES_NAME])
              (Sample.start (Sample.root Sample.text_local []) [])
              _ (Sample.registry [("foo", Sample.local_entry)]) eq_refl)
    as (_ & Hfs & Hcalls & _).
  split; [exact Hfs | exact Hcalls].
Defined.

Lemma path_split (p : path) : p <> [] -> p = dirname p ++ [basename p].
Proof. intros H. exact (app_removelast_last "" H). Qed.

Lemma fs_lookup_bound (d : path) (a : string) (v : node) (n n' : node) :
  fs_bind d a v n = Some n' -> fs_lookup (d ++ [a]) n' = Some v.
Proof.
  intros H. destruct (fs_bind_spec _ _ _ _ _ H) as (es & _ & Hd).
  rewrite (fs_lookup_child d a [] n' _ Hd), assoc_set_same. reflexivity.
Qed.

Lemma write_file_ok (p : path) (data : list byte) (w w' : world) :
  write_file p data w = (Ok tt, w') ->
  fs_lookup p (fs w') = Some (File data)
  /\ calls w' = calls w ++ [C_open_w p]
  /\ stdout w' = stdout w /\ stderr w' = stderr w.
Proof.
  unfold write_file. cbn [fs log].
  destruct p as [|c p'].
  - simpl. destruct (fs w); discriminate.
  - assert (Hp : c :: p' <> []) by discriminate.
    set (p := c :: p') in *.
    destruct (fs_lookup p (fs w)) as [[| |]|];
      try discriminate;
      destruct (fs_bind (dirname p) (basename p) (File data) (fs w)) eqn:Hb;
      try discriminate; intros H; inversion H; subst; cbn [fs set_fs log calls];
      (split; [rewrite (path_split p Hp) at 1; exact (fs_lookup_bound _ _ _ _ _ Hb)
              | auto]).
Qed.

Lemma makedirs_ok (p : path) (w w' : world) (r : result unit) :
  os_makedirs p w = (r, w') ->
  calls w' = calls w ++ [C_makedirs p]
  /\ stdout w' = stdout w /\ stderr w' = stderr w.
Proof.
  unfold os_makedirs. cbn [fs log].
  destruct (fs_makedirs p (fs w)); intros H; inversion H; subst; auto.
Qed.

(** What a successful [_save_sources] leaves at [p]. *)
Lemma save_sources_ok (E : env) (p : path) (data : json) (w w' : world) :
  _save_sources E p data w = (Ok tt, w') ->
  fs_lookup p (fs w') = Some (File (json_dumps E data ++ newline))
  /\ calls w' = calls w ++ [C_makedirs (dirname p); C_open_w p]
  /\ stdout w' = stdout w /\ stderr w' = stderr w.
Proof.
  unfold _save_sources, bind.
  destruct (os_makedirs (dirname p) w) as [[[]|e] w1] eqn:Hm; [|discriminate].
  intros Hw. apply write_file_ok in Hw. apply makedirs_ok in Hm.
  destruct Hw as (H1 & H2 & H3 & H4), Hm as (M2 & M3 & M4).
  rewrite H2, M2, H3, H4, <- app_assoc. auto.
Qed.

(** A file that holds a registry in normal form is loaded as it is. *)
Lemma load_sources_normal (E : env) (p : path) (w : world) (content : list byte)
      (fields skills : list (string * json)) :
  fs_lookup p (fs w) = Some (File content) ->
  json_loads E content = Some (JObj fields) ->
  assoc "skills" fields = Some (JObj skills) ->
  has_key "version" fields = true ->
  _load_sources E p w = (Ok (JObj fields), log (C_open_r p) (log (C_stat p) w)).
Proof.
  intros Hf Hl Hs Hv.
  unfold _load_sources, bind, os_path_exists, json_load. cbn [fs log].
  rewrite Hf. cbn [node_exists negb fs log]. rewrite Hf, Hl.
  cbn beta iota. rewrite Hs. unfold ret.
  unfold has_key in Hv. destruct (assoc "version" fields); [reflexivity|discriminate].
Qed.

(** X6.  Saving and loading are inverse to each other as far as the codec
    is: when [json.load] reads back what [json.dump] wrote for a registry in
    normal form, a successful [_save_sources] leaves at [path] exactly the
    dumped text followed by a newline, and any later [_load_sources] of
    that file returns the registry that was saved, unchanged. *)
Theorem save_then_load_round_trip
        (E : env) (p : path) (fields skills : list (string * json))
        (w w1 : world) :
  assoc "skills" fields = Some (JObj skills) ->
  has_key "version" fields = true ->
  json_loads E (json_dumps E (JObj fields) ++ newline) = Some (JObj fields) ->
  _save_sources E p (JObj fields) w = (Ok tt, w1) ->
  fs_lookup p (fs w1) = Some (File (json_dumps E (JObj fields) ++ newline))
  /\ forall w2, fs_lookup p (fs w2) = fs_lookup p (fs w1) ->
                fst (_load_sources E p w2) = Ok (JObj fields).
Proof.
  intros Hs Hv Hcodec Hsave.
  destruct (save_sources_ok _ _ _ _ _ Hsave) as (Hfile & _).
  split; [exact Hfile|].
  intros w2 Hsame. rewrite Hfile in Hsame.
  rewrite (load_sources_normal E p w2 _ fields skills Hsame Hcodec Hs Hv).
  reflexivity.
Qed.

Lemma save_then_load_round_trip_witness :
  exists w1,
    _save_sources Cases.environment Cases.sources_path (JObj Cases.fields_foo)
      (Sample.start (Sample.root Sample.text_empty []) [])
    = (Ok tt, w1)
    /\ fst (_load_sources Cases.environment Cases.sources_path w1)
       = Ok (JObj Cases.fields_foo).
Proof.
  eexists. split; [reflexivity|].
  refine (proj2 (save_then_load_round_trip Cases.environment Cases.sources_path
                   Cases.fields_foo [("foo", Sample.local_entry)]
                   (Sample.start (Sample.root Sample.text_empty []) []) _
                   eq_refl eq_refl eq_refl eq_refl) _ eq_refl).
Defined.

(** ** [_cmd_remove] and [_cmd_add]: what is written *)

Lemma remove_names_fold (names : list string) :
  forall (skills : list (string * json)) (removed : list string)
         (skills' : list (string * json)) (removed' : list string),
    fold_left
      (fun (acc : list (string * json) * list string) name =>
         let (skills, removed) := acc in
         if has_key name skills then (del_assoc name skills, removed ++ [name])
         else (skills, removed))
      names (skills, removed) = (skills', removed') ->
    (forall k, assoc k skills' = if PyStr.mem k names then None else assoc k skills)
    /\ exists gone,
        removed' = removed ++ gone
        /\ NoDup gone
        /\ forall n, In n gone <-> In n names /\ has_key n skills = true.
Proof.
  induction names as [|a names IH]; intros skills removed skills' removed' H.
  - simpl in H. inversion H; subst. split; [reflexivity|].
    exists []. rewrite app_nil_r. split; [reflexivity|]. split; [constructor|].
    simpl. tauto.
  - simpl in H. destruct (has_key a skills) eqn:Ha.
    + apply IH in H. destruct H as (Hassoc & gone & -> & Hnd & Hin).
      assert (Hnot : ~ In a gone).
      { intros Hg. apply Hin in Hg. destruct Hg as [_ Hk].
        unfold has_key in Hk. rewrite assoc_del_same in Hk. discriminate. }
      split.
      * intros k. rewrite Hassoc. unfold PyStr.mem. simpl.
        destruct (existsb (String.eqb k) names); [rewrite orb_true_r; reflexivity|].
        rewrite orb_false_r. destruct (k =? a) eqn:Hka.
        -- apply String.eqb_eq in Hka. subst k. apply assoc_del_same.
        -- apply String.eqb_neq in Hka. apply assoc_del_other. congruence.
      * exists (a :: gone). rewrite <- app_assoc. split; [reflexivity|].
        split; [constructor; assumption|].
        intros n. simpl. rewrite Hin. unfold has_key. split.
        -- intros [<- | [Hn Hk]]; [split; [auto | exact Ha]|].
           split; [auto|].
           destruct (string_dec a n) as [<- | Hne];
             [rewrite assoc_del_same in Hk; discriminate|].
           rewrite (assoc_del_other _ _ _ Hne) in Hk. exact Hk.
        -- intros [[<- | Hn] Hk]; [auto|].
           destruct (string_dec a n) as [<- | Hne]; [auto|].
           right. split; [exact Hn|].
           rewrite (assoc_del_other _ _ _ Hne). exact Hk.
    + apply IH in H. destruct H as (Hassoc & gone & -> & Hnd & Hin).
      split.
      * intros k. rewrite Hassoc. unfold PyStr.mem. simpl.
        destruct (existsb (String.eqb k) names); [rewrite orb_true_r; reflexivity|].
        rewrite orb_false_r. destruct (k =? a) eqn:Hka; [|reflexivity].
        apply String.eqb_eq in Hka. subst k.
        unfold has_key in Ha. destruct (assoc a skills); [discriminate|reflexivity].
      * exists gone. split; [reflexivity|]. split; [exact Hnd|].
        intros n. rewrite Hin. simpl. split; [tauto|].
        intros [[<- | Hn] Hk]; [congruence | tauto].
Qed.

Lemma mem_In (k : string) (names : list string) :
  PyStr.mem k names = true <-> In k names.
Proof.
  unfold PyStr.mem. rewrite existsb_exists. split.
  - intros (x & Hx & He). apply String.eqb_eq in He. subst. exact Hx.
  - intros H. exists k. split; [exact H | apply String.eqb_refl].
Qed.

Lemma for_each_print (names : list string) (line : string -> string) (w : world) :
  exists w', for_each names (fun name => print (line name)) w = (Ok tt, w')
             /\ fs w' = fs w /\ calls w' = calls w
             /\ stdout w' = stdout w ++ map line names
             /\ stderr w' = stderr w.
Proof.
  revert w. induction names as [|name names IH]; intros w; simpl.
  - exists w. rewrite app_nil_r. auto.
  - unfold bind. unfold print at 1. cbn beta iota.
    match goal with
    | |- context [for_each names _ ?w0] =>
        destruct (IH w0) as (w' & Hrun & H1 & H2 & H3 & H4)
    end.
    exists w'. rewrite Hrun. simpl in *. rewrite H3, <- app_assoc. auto.
Qed.

(** X7.  When at least one of the names given to [remove] is in the
    registry and the command returns, the registry file has been rewritten
    and holds the loaded registry without the named records: every given
    name is gone from [skills], every other record and every other field
    of the registry is kept as it was, and one line is printed for each
    record removed, a name given twice counting once. *)
Theorem cmd_remove_drops_named_records
        (E : env) (sources : option path) (names : list string)
        (dest_root : path) (w w1 w' : world) (data : json) (n : nat) :
  let sp := sources_path_of sources dest_root in
  _load_sources E sp w = (Ok data, w1) ->
  (exists name, In name names /\ has_key name (skills_of data) = true) ->
  _cmd_remove E sources names dest_root w = (Ok n, w') ->
  let kept := fst (remove_names names (skills_of data)) in
  let gone := snd (remove_names names (skills_of data)) in
    n = 0
    /\ fs_lookup sp (fs w')
       = Some (File (json_dumps E (with_skills data kept) ++ newline))
    /\ skills_of (with_skills data kept) = kept
    /\ (forall k, In k names -> assoc k kept = None)
    /\ (forall k, ~ In k names -> assoc k kept = assoc k (skills_of data))
    /\ stdout w' = stdout w ++ map msg_removed gone
    /\ NoDup gone
    /\ (forall k, In k gone <-> In k names /\ has_key k (skills_of data) = true).
Proof.
  intros sp Hload (name & Hname & Hkey) Hrun.
  unfold _cmd_remove, bind in Hrun. fold sp in Hrun. rewrite Hload in Hrun.
  destruct (remove_names names (skills_of data)) as [kept removed] eqn:Hrm.
  cbn [fst snd]. unfold remove_names in Hrm. apply remove_names_fold in Hrm.
  destruct Hrm as (Hassoc & gone & Hgone & Hnd & Hin). simpl in Hgone. subst removed.
  assert (Hne : PosixPath.is_nil gone = false).
  { destruct gone; [|reflexivity].
    exfalso. apply (proj2 (Hin name)). auto. }
  rewrite Hne in Hrun. cbn [negb] in Hrun.
  change (match data with
          | JObj fields => JObj (set_assoc "skills" (JObj kept) fields)
          | _ => data
          end) with (with_skills data kept) in Hrun.
  destruct (_save_sources E sp (with_skills data kept) w1) as [[[]|e] w2] eqn:Hsave;
    [|discriminate].
  destruct (for_each_print gone msg_removed w2) as (w3 & Hp & P1 & P2 & P3 & P4).
  rewrite Hp in Hrun. unfold ret in Hrun. inversion Hrun; subst.
  destruct (save_sources_ok _ _ _ _ _ Hsave) as (Hfile & _ & Hout & _).
  pose proof (@load_sources_look E _ stdout _ (fun _ _ => eq_refl) _ _ _ Hload) as Hout1.
  destruct (load_sources_ok _ _ _ _ _ Hload) as (fields & skills & -> & Hs & Hv).
  split; [reflexivity|]. split; [rewrite P1; exact Hfile|].
  split; [simpl; rewrite assoc_set_same; reflexivity|].
  split; [|split; [|split; [|split]]].
  - intros k Hk. rewrite Hassoc. apply mem_In in Hk. rewrite Hk. reflexivity.
  - intros k Hk. rewrite Hassoc.
    destruct (PyStr.mem k names) eqn:Hm; [|reflexivity].
    apply mem_In in Hm. contradiction.
  - rewrite P3, Hout, Hout1. reflexivity.
  - exact Hnd.
  - exact Hin.
Qed.

Lemma cmd_remove_drops_named_records_witness :
  exists w',
    _cmd_remove Cases.environment None ["foo"; "bar"; "foo"] Sample.dest_root
      (Sample.start (Sample.root Sample.text_local []) [])
    = (Ok 0, w')
    /\ fs_lookup Cases.sources_path (fs w')
       = Some (File (encode Sample.text_empty ++ newline))
    /\ stdout w' = [msg_removed "foo"].
Proof.
  eexists. split; [reflexivity|].
  destruct (cmd_remove_drops_named_records Cases.environment None
              ["foo"; "bar"; "foo"] Sample.dest_root
              (Sample.start (Sample.root Sample.text_local []) []) _ _
              (Sample.registry [("foo", Sample.local_entry)]) 0 eq_refl
              (ex_intro _ "foo" (conj (or_introl eq_refl) eq_refl)) eq_refl)
    as (_ & Hfile & _ & _ & _ & Hout & _).
  split; [exact Hfile | exact Hout].
Defined.

Lemma add_entry_look (E : env) (args : add_args) {X} (f : world -> X) :
  (forall c w, f (log c w) = f w) -> preserves f (add_entry E args).
Proof. intros Hf. unfold add_entry, _validate_skill_dir. frame. Qed.

Lemma add_entry_calls (E : env) (args : add_args) (keep : call -> bool) :
  (forall p, keep (C_stat p) = false) ->
  preserves (calls_where keep) (add_entry E args).
Proof. intros Hk. unfold add_entry, _validate_skill_dir. frame. Qed.

(** X8.  [add] checks a repository source before it writes anything: with
    neither [--local-path] nor [--url], when [--path] is missing or is a
    path [_validate_repo_path] rejects, the command raises, the registry
    file is not rewritten (no call that writes is issued and the tree is
    what it was) and nothing is printed; when the registry was loadable,
    the error is the [ValueError] for the missing or the rejected path. *)
Theorem cmd_add_refuses_before_writing
        (E : env) (args : add_args) (dest_root : path) (w : world) :
  given (add_local_path args) = false ->
  given (add_url args) = false ->
  (given (add_path args) = false
   \/ _validate_repo_path (text_of (add_path args)) = Raise (ValueError msg_repo_path)) ->
  exists e w',
    _cmd_add E args dest_root w = (Raise e, w')
    /\ fs w' = fs w
    /\ calls_where writing_call w' = calls_where writing_call w
    /\ stdout w' = stdout w
    /\ (forall data w1,
           _load_sources E (sources_path_of (add_sources args) dest_root) w
           = (Ok data, w1) ->
           e = ValueError (add_refusal args)).
Proof.
  intros Hl Hu Hbad. unfold _cmd_add, bind.
  destruct (_load_sources E (sources_path_of (add_sources args) dest_root) w)
    as [[data|e] w1] eqn:Hload.
  - pose proof (@load_sources_look E _ fs _ (fun _ _ => eq_refl) _ _ _ Hload) as Hfs.
    pose proof (@load_sources_look E _ stdout _ (fun _ _ => eq_refl) _ _ _ Hload) as Hout.
    pose proof (@load_sources_calls E writing_call _ eq_refl eq_refl _ _ _ Hload) as Hc.
    assert (Hentry : add_entry E args w1 = (Raise (ValueError (add_refusal args)), w1)).
    { unfold add_entry, add_refusal. rewrite Hl, Hu.
      destruct (given (add_path args)) eqn:Hp; simpl.
      - destruct Hbad as [Hbad|Hbad]; [discriminate|].
        unfold bind, lift. rewrite Hbad. reflexivity.
      - destruct (given (add_repo args)); reflexivity. }
    rewrite Hentry. eexists _, _. split; [reflexivity|].
    repeat split; assumption.
  - eexists _, _. split; [reflexivity|].
    split; [exact (@load_sources_look E _ fs _ (fun _ _ => eq_refl) _ _ _ Hload)|].
    split; [exact (@load_sources_calls E writing_call _ eq_refl eq_refl _ _ _ Hload)|].
    split; [exact (@load_sources_look E _ stdout _ (fun _ _ => eq_refl) _ _ _ Hload)|].
    intros data0 w0 H0. discriminate.
Qed.

Lemma cmd_add_refuses_before_writing_witness :
  exists w',
    _cmd_add Cases.environment Cases.add_climbing Sample.dest_root
      (Sample.start (Sample.root Sample.text_local []) [])
    = (Raise (ValueError msg_repo_path), w')
    /\ fs w' = Sample.root Sample.text_local [].
Proof.
  destruct (cmd_add_refuses_before_writing Cases.environment Cases.add_climbing
              Sample.dest_root
              (Sample.start (Sample.root Sample.text_local []) [])
              eq_refl eq_refl (or_intror eq_refl))
    as (e & w' & Hrun & Hfs & _ & _ & He).
  exists w'. rewrite (He _ _ eq_refl) in Hrun. split; [exact Hrun | exact Hfs].
Defined.

(** X9.  [add] binds the name to the new record and keeps the rest: when
    the command returns, the registry file holds the loaded registry with
    [skills[name]] set to the record built from the options, a record
    already under that name replaced in place, every other record and
    field kept; the confirmation line is printed; and, as far as the codec
    reads back what it wrote, a later [_load_sources] finds the record
    under the name. *)
Theorem cmd_add_records_entry
        (E : env) (args : add_args) (dest_root : path)
        (w w1 w2 w' : world) (data entry : json) (n : nat) :
  let sp := sources_path_of (add_sources args) dest_root in
  let skills := set_assoc (add_name args) entry (skills_of data) in
  let saved := with_skills data skills in
  _load_sources E sp w = (Ok data, w1) ->
  add_entry E args w1 = (Ok entry, w2) ->
  _cmd_add E args dest_root w = (Ok n, w') ->
  n = 0
  /\ fs_lookup sp (fs w') = Some (File (json_dumps E saved ++ newline))
  /\ skills_of saved = skills
  /\ assoc (add_name args) skills = Some entry
  /\ (forall k, k <> add_name args -> assoc k skills = assoc k (skills_of data))
  /\ stdout w' = stdout w ++ [msg_written (add_name args)]
  /\ (json_loads E (json_dumps E saved ++ newline) = Some saved ->
      forall w3, fs_lookup sp (fs w3) = fs_lookup sp (fs w') ->
                 exists w4, _load_sources E sp w3 = (Ok saved, w4)
                            /\ assoc (add_name args) (skills_of saved) = Some entry).
Proof.
  intros sp skills saved Hload Hentry Hrun.
  unfold _cmd_add, bind in Hrun. fold sp in Hrun.
  rewrite Hload, Hentry in Hrun. fold skills saved in Hrun.
  destruct (_save_sources E sp saved w2) as [[[]|e] w3] eqn:Hsave; [|discriminate].
  unfold print, ret in Hrun. inversion Hrun; subst. cbn [fs stdout].
  destruct (save_sources_ok _ _ _ _ _ Hsave) as (Hfile & _ & Hout & _).
  pose proof (@load_sources_look E _ stdout _ (fun _ _ => eq_refl) _ _ _ Hload) as Hout1.
  pose proof (@add_entry_look E args _ stdout (fun _ _ => eq_refl) _ _ _ Hentry) as Hout2.
  destruct (load_sources_ok _ _ _ _ _ Hload) as (fields & sk & -> & Hs & Hv).
  assert (Hsaved : skills_of saved = skills).
  { unfold saved. simpl. rewrite assoc_set_same. reflexivity. }
  split; [reflexivity|]. split; [exact Hfile|]. split; [exact Hsaved|].
  split; [apply assoc_set_same|].
  split; [intros k Hk; apply assoc_set_other; congruence|].
  split; [rewrite Hout, Hout2, Hout1; reflexivity|].
  intros Hcodec w4 Hsame. rewrite Hfile in Hsame.
  eexists. split.
  - apply (load_sources_normal E sp w4 _ _ skills Hsame Hcodec).
    + unfold saved. simpl. apply assoc_set_same.
    + unfold saved. simpl. rewrite has_key_set_other; [exact Hv | discriminate].
  - rewrite Hsaved. apply assoc_set_same.
Qed.

Lemma cmd_add_records_entry_witness :
  let w := Sample.start (Sample.root Sample.text_empty []) [] in
  let run := _cmd_add Cases.environment Cases.add_local Sample.dest_root w in
  fst run = Ok 0
  /\ fs_lookup Cases.sources_path (fs (snd run))
     = Some (File (encode Sample.text_local ++ newline))
  /\ stdout (snd run) = [msg_written "foo"].
Proof.
  intros w run. split; [reflexivity|].
  destruct (cmd_add_records_entry Cases.environment Cases.add_local
              Sample.dest_root w
              (snd (_load_sources Cases.environment Cases.sources_path w))
              (snd (add_entry Cases.environment Cases.add_local
                      (snd (_load_sources Cases.environment Cases.sources_path w))))
              (snd run)
              (Sample.registry []) Sample.local_entry 0
              eq_refl eq_refl eq_refl)
    as (_ & Hfile & _ & _ & _ & Hout & _).
  split; [exact Hfile | exact Hout].
Defined.

(** X10.  What [add] accepts, [update] does not refuse: for every record
    [add] builds for a remote source (a URL, or a repository and a path),
    [_install_from_github] raises none of its own errors and goes on to run
    the installer, with the name, the source and the [--ref] and
    [--method] options that are not empty on the command line. *)
Theorem added_record_passes_install_checks
        (E : env) (args : add_args) (w w1 : world) (entry : json)
        (name : string) (stage_root installer_path : path) (w2 : world) :
  given (add_local_path args) = false ->
  add_entry E args w = (Ok entry, w1) ->
  _install_from_github E entry name stage_root installer_path w2
  = subprocess_run E (added_command E args name stage_root installer_path)
                   (stage_root ++ [name]) w2.
Proof.
  intros Hl Hentry. unfold add_entry in Hentry. rewrite Hl in Hentry.
  unfold added_command, flag.
  destruct (given (add_url args)) eqn:Hu.
  - unfold ret in Hentry. inversion Hentry; subst.
    unfold _install_from_github, bind, lift, ret. simpl.
    destruct (add_ref args =? ""), (add_method args =? ""); simpl;
      rewrite <- ?app_assoc; reflexivity.
  - destruct (given (add_path args)) eqn:Hp; simpl in Hentry;
      [|destruct (given (add_repo args)); discriminate].
    unfold bind, lift, ret in Hentry.
    destruct (_validate_repo_path (text_of (add_path args))) as [[]|e] eqn:Hval;
      [|discriminate].
    inversion Hentry; subst.
    assert (Hpath : (text_of (add_path args) =? "") = false).
    { unfold given in Hp. destruct (add_path args); [|discriminate].
      apply negb_true_iff. exact Hp. }
    assert (Hrepo : ((if given (add_repo args) then text_of (add_repo args)
                      else DEFAULT_REPO) =? "") = false).
    { unfold given. destruct (add_repo args) as [r|]; [|reflexivity]. simpl.
      destruct (r =? "") eqn:Hr; [reflexivity | exact Hr]. }
    unfold _install_from_github, bind, lift, ret, raise. simpl.
    rewrite Hrepo, Hpath. simpl. rewrite Hval.
    destruct (add_ref args =? ""), (add_method args =? ""); simpl;
      rewrite <- ?app_assoc; reflexivity.
Qed.

Lemma added_record_passes_install_checks_witness :
  _install_from_github Cases.environment
    (JObj [("repo", JStr DEFAULT_REPO); ("path", JStr "skills/bar");
           ("ref", JStr "v2"); ("method", JStr "")])
    "bar" ["tmp"; "t"; "stage"] ["opt"; "install.py"]
    (Sample.start (Sample.root Sample.text_local []) [])
  = subprocess_run Cases.environment
      [JStr "python3"; JStr "/opt/install.py"; JStr "--dest";
       JStr "/tmp/t/stage"; JStr "--name"; JStr "bar";
       JStr "--repo"; JStr DEFAULT_REPO; JStr "--path"; JStr "skills/bar";
       JStr "--ref"; JStr "v2"]
      ["tmp"; "t"; "stage"; "bar"]
      (Sample.start (Sample.root Sample.text_local []) []).
Proof.
  exact (added_record_passes_install_checks Cases.environment Cases.add_repo_path
           (Sample.start (Sample.root Sample.text_local []) []) _ _
           "bar" ["tmp"; "t"; "stage"] ["opt"; "install.py"]
           (Sample.start (Sample.root Sample.text_local []) [])
           eq_refl eq_refl).
Defined.

(** ** Moving a tree to a vacant place *)

Lemma is_prefix_iff (p q : path) :
  is_prefix p q = true <-> exists r, q = p ++ r.
Proof.
  revert q. induction p as [|c p IH]; intros q; simpl.
  - split; [intros _; exists q; reflexivity | reflexivity].
  - destruct q as [|d q].
    + split; [discriminate | intros (r & Hr); discriminate].
    + rewrite andb_true_iff, String.eqb_eq, IH. split.
      * intros [-> [r ->]]. exists r. reflexivity.
      * intros (r & Hr). inversion Hr; subst. split; [reflexivity | exists r; reflexivity].
Qed.

Lemma is_prefix_app_true (p r : path) : is_prefix p (p ++ r) = true.
Proof. apply is_prefix_iff. exists r. reflexivity. Qed.

(** A prefix of [d ++ [b]] is a prefix of [d], or the whole of it. *)
Lemma is_prefix_snoc (p d : path) (b : string) :
  is_prefix p (d ++ [b]) = true -> is_prefix p d = true \/ p = d ++ [b].
Proof.
  intros H. apply is_prefix_iff in H. destruct H as (r & Hr).
  destruct r as [|x r] using rev_ind.
  - right. rewrite app_nil_r in Hr. congruence.
  - left. rewrite app_assoc in Hr. apply app_inj_tail in Hr.
    destruct Hr as [-> _]. apply is_prefix_app_true.
Qed.

Lemma is_prefix_trans (p q r : path) :
  is_prefix p q = true -> is_prefix q r = true -> is_prefix p r = true.
Proof.
  rewrite !is_prefix_iff. intros (a & ->) (b & ->).
  exists (a ++ b). rewrite app_assoc. reflexivity.
Qed.

(** What lies below a place where nothing is, is not there either. *)
Lemma fs_lookup_below_none (p q : path) (n m : node) :
  fs_lookup p n = None -> fs_lookup q n = Some m -> is_prefix p q = false.
Proof.
  intros Hp Hq. destruct (is_prefix p q) eqn:H; [|reflexivity].
  apply is_prefix_iff in H. destruct H as (r & ->).
  rewrite fs_lookup_app, Hp in Hq. discriminate.
Qed.

(** A change of one entry of the directory at [d] shows nowhere else. *)
Lemma fs_alter_entry_frame (a : string) (g : node -> option node) :
  (forall m m', g m = Some m' ->
                forall c q, c <> a -> fs_lookup (c :: q) m' = fs_lookup (c :: q) m) ->
  forall (d q : path) (n n' : node),
    fs_alter d g n = Some n' ->
    is_prefix (d ++ [a]) q = false -> is_prefix q d = false ->
    fs_lookup q n' = fs_lookup q n.
Proof.
  intros Hg d. induction d as [|x d IH]; intros q n n' Ha H1 H2.
  - destruct q as [|c q]; [discriminate|]. simpl in Ha, H1.
    apply (Hg _ _ Ha). intros ->. rewrite String.eqb_refl in H1. discriminate.
  - destruct q as [|c q]; [discriminate|].
    simpl in Ha. destruct n as [| |es]; try discriminate.
    destruct (assoc x es) as [child|] eqn:Hx; [|discriminate].
    destruct (fs_alter d g child) as [child'|] eqn:Hc; [|discriminate].
    inversion Ha; subst n'. simpl in H1, H2 |- *.
    destruct (x =? c) eqn:Hxc.
    + apply String.eqb_eq in Hxc. subst c.
      rewrite assoc_set_same, Hx. rewrite String.eqb_refl in H2.
      simpl in H1, H2. exact (IH _ _ _ Hc H1 H2).
    + apply String.eqb_neq in Hxc. rewrite (assoc_set_other _ _ _ _ Hxc). reflexivity.
Qed.

Lemma dir_unbind_entry (a : string) (m m' : node) :
  dir_unbind a m = Some m' ->
  forall c q, c <> a -> fs_lookup (c :: q) m' = fs_lookup (c :: q) m.
Proof.
  destruct m as [| |es]; try discriminate. intros H c q Hc.
  inversion H; subst. simpl. rewrite assoc_del_other by congruence. reflexivity.
Qed.

Lemma dir_bind_entry (a : string) (v : node) (m m' : node) :
  dir_bind a v m = Some m' ->
  forall c q, c <> a -> fs_lookup (c :: q) m' = fs_lookup (c :: q) m.
Proof.
  destruct m as [| |es]; try discriminate. intros H c q Hc.
  inversion H; subst. simpl. rewrite assoc_set_other by congruence. reflexivity.
Qed.

Lemma fs_unbind_frame (d : path) (a : string) (q : path) (n n' : node) :
  fs_unbind d a n = Some n' ->
  is_prefix (d ++ [a]) q = false -> is_prefix q d = false ->
  fs_lookup q n' = fs_lookup q n.
Proof. apply fs_alter_entry_frame. apply dir_unbind_entry. Qed.

Lemma fs_bind_frame (d : path) (a : string) (v : node) (q : path) (n n' : node) :
  fs_bind d a v n = Some n' ->
  is_prefix (d ++ [a]) q = false -> is_prefix q d = false ->
  fs_lookup q n' = fs_lookup q n.
Proof. apply fs_alter_entry_frame. apply dir_bind_entry. Qed.

(** Directories on the way to the changed entry stay directories. *)
Lemma fs_alter_keeps_dir (a : string) (g : node -> option node) :
  (forall m m', g m = Some m' ->
                (exists es', m' = Dir es')
                /\ forall c q, c <> a -> fs_lookup (c :: q) m' = fs_lookup (c :: q) m) ->
  forall (d q : path) (n n' : node) es,
    fs_alter d g n = Some n' ->
    fs_lookup q n = Some (Dir es) ->
    is_prefix (d ++ [a]) q = false ->
    exists es', fs_lookup q n' = Some (Dir es').
Proof.
  intros Hg d. induction d as [|x d IH]; intros q n n' es Ha Hq H1.
  - simpl in Ha. destruct (Hg _ _ Ha) as [[es' ->] Hframe].
    destruct q as [|c q]; [eexists; reflexivity|].
    simpl in H1. rewrite Hframe; [eauto|].
    intros ->. rewrite String.eqb_refl in H1. discriminate.
  - simpl in Ha. destruct n as [| |es0]; try discriminate.
    destruct (assoc x es0) as [child|] eqn:Hx; [|discriminate].
    destruct (fs_alter d g child) as [child'|] eqn:Hc; [|discriminate].
    inversion Ha; subst n'.
    destruct q as [|c q]; [eexists; reflexivity|].
    simpl in H1, Hq |- *.
    destruct (x =? c) eqn:Hxc.
    + apply String.eqb_eq in Hxc. subst c.
      rewrite assoc_set_same. rewrite Hx in Hq. simpl in H1.
      exact (IH _ _ _ _ Hc Hq H1).
    + apply String.eqb_neq in Hxc. rewrite (assoc_set_other _ _ _ _ Hxc). eauto.
Qed.

Lemma fs_unbind_keeps_dir (d : path) (a : string) (q : path) (n n' : node) es :
  fs_unbind d a n = Some n' ->
  fs_lookup q n = Some (Dir es) ->
  is_prefix (d ++ [a]) q = false ->
  exists es', fs_lookup q n' = Some (Dir es').
Proof.
  apply fs_alter_keeps_dir. intros m m' H. split.
  - destruct m; try discriminate. inversion H. eauto.
  - exact (dir_unbind_entry _ _ _ H).
Qed.

Lemma fs_bind_keeps_dir (d : path) (a : string) (v : node) (q : path)
      (n n' : node) es :
  fs_bind d a v n = Some n' ->
  fs_lookup q n = Some (Dir es) ->
  is_prefix (d ++ [a]) q = false ->
  exists es', fs_lookup q n' = Some (Dir es').
Proof.
  apply fs_alter_keeps_dir. intros m m' H. split.
  - destruct m; try discriminate. inversion H. eauto.
  - exact (dir_bind_entry _ _ _ _ H).
Qed.

(** Binding an entry creates nothing but that entry. *)
Lemma fs_bind_keeps_absent (d : path) (a : string) (v : node) (q : path)
      (n n' : node) :
  fs_bind d a v n = Some n' ->
  fs_lookup q n = None ->
  is_prefix (d ++ [a]) q = false ->
  fs_lookup q n' = None.
Proof.
  revert q n n'. induction d as [|x d IH]; intros q n n' Hb Hq H1.
  - unfold fs_bind in Hb. simpl in Hb.
    destruct q as [|c q]; [discriminate|].
    rewrite (dir_bind_entry _ _ _ _ Hb); [exact Hq|].
    simpl in H1. intros ->. rewrite String.eqb_refl in H1. discriminate.
  - unfold fs_bind in Hb. simpl in Hb. destruct n as [| |es0]; try discriminate.
    destruct (assoc x es0) as [child|] eqn:Hx; [|discriminate].
    destruct (fs_alter d (dir_bind a v) child) as [child'|] eqn:Hc; [|discriminate].
    inversion Hb; subst n'.
    destruct q as [|c q]; [discriminate|].
    simpl in H1, Hq |- *.
    destruct (x =? c) eqn:Hxc.
    + apply String.eqb_eq in Hxc. subst c.
      rewrite assoc_set_same. rewrite Hx in Hq. simpl in H1.
      exact (IH _ _ _ Hc Hq H1).
    + apply String.eqb_neq in Hxc. rewrite (assoc_set_other _ _ _ _ Hxc). exact Hq.
Qed.

Lemma fs_lookup_unbound (d : path) (a : string) (n n' : node) :
  fs_unbind d a n = Some n' -> fs_lookup (d ++ [a]) n' = None.
Proof.
  intros H. destruct (fs_unbind_spec _ _ _ _ H) as (es & _ & Hd).
  rewrite (fs_lookup_child d a [] n' _ Hd), assoc_del_same. reflexivity.
Qed.

Lemma is_prefix_longer (d : path) (a : string) : is_prefix (d ++ [a]) d = false.
Proof.
  destruct (is_prefix (d ++ [a]) d) eqn:H; [|reflexivity].
  apply is_prefix_iff in H. destruct H as (r & Hr).
  apply (f_equal (@List.length string)) in Hr.
  rewrite !length_app in Hr. simpl in Hr. lia.
Qed.

(** [shutil.move] of [src] to the vacant name [b] of the directory [dd],
    when the operating system refuses nothing: the node is found at the new
    place and no longer at the old one, what lies apart from both places is
    untouched, and every directory outside [src] is still a directory. *)
Lemma move_tree_fresh (src dd : path) (b : string) (root n : node) es :
  fs_lookup src root = Some n ->
  fs_lookup dd root = Some (Dir es) ->
  fs_lookup (dd ++ [b]) root = None ->
  is_prefix src dd = false ->
  exists root',
    move_tree src (dd ++ [b]) root = Ok root'
    /\ fs_lookup (dd ++ [b]) root' = Some n
    /\ fs_lookup src root' = None
    /\ (forall q, apart src q -> apart (dd ++ [b]) q ->
                  fs_lookup q root' = fs_lookup q root)
    /\ (forall q es0, fs_lookup q root = Some (Dir es0) ->
                      is_prefix src q = false ->
                      exists es', fs_lookup q root' = Some (Dir es')).
Proof.
  intros Hsrc Hdd Hdst Hpre.
  assert (Hne : src <> []) by (intros ->; discriminate).
  pose proof (path_split src Hne) as Hsplit.
  set (sd := dirname src) in *. set (a := basename src) in *.
  assert (Hsrc' : fs_lookup (sd ++ [a]) root = Some n) by (rewrite <- Hsplit; exact Hsrc).
  destruct (fs_lookup_parent _ _ _ _ Hsrc') as (es1 & Hpar & _).
  destruct (fs_unbind_defined sd a root es1 Hpar) as [root1 H1].
  assert (Hpre' : is_prefix (sd ++ [a]) dd = false) by (rewrite <- Hsplit; exact Hpre).
  destruct (fs_unbind_keeps_dir _ _ _ _ _ _ H1 Hdd Hpre') as [es2 Hdd1].
  destruct (fs_bind_defined dd b n root1 es2 Hdd1) as [root3 H3].
  assert (Hsd_dst : is_prefix src (dd ++ [b]) = false).
  { destruct (is_prefix src (dd ++ [b])) eqn:H; [|reflexivity].
    apply is_prefix_snoc in H. destruct H as [H|H]; [congruence|].
    rewrite H, Hdst in Hsrc. discriminate. }
  assert (Hdst_src : is_prefix (dd ++ [b]) src = false)
    by exact (fs_lookup_below_none _ _ _ _ Hdst Hsrc).
  exists root3. split; [|split; [|split; [|split]]].
  - unfold move_tree.
    assert (Hpe : path_eqb src (dd ++ [b]) = false).
    { unfold path_eqb. destruct (list_eq_dec string_dec _ _) as [Heq|]; [|reflexivity].
      rewrite Heq, Hdst in Hsrc. discriminate. }
    rewrite Hpe, Hdst. cbn [node_isdir andb]. rewrite Hsrc, Hsd_dst, Hdst.
    rewrite !dirname_join, !basename_join. fold sd a. rewrite H1.
    assert (Hp : match n with
                 | Dir _ => fs_makedirs dd root1
                 | _ => Some root1
                 end = Some root1).
    { destruct n; try reflexivity.
      apply (fs_makedirs_existing dd root1 _ Hdd1). reflexivity. }
    rewrite Hp, H3. destruct n; reflexivity.
  - exact (fs_lookup_bound _ _ _ _ _ H3).
  - apply (fs_bind_keeps_absent _ _ _ _ _ _ H3); [|exact Hdst_src].
    rewrite Hsplit. exact (fs_lookup_unbound _ _ _ _ H1).
  - intros q [Q1 Q2] [Q3 Q4].
    rewrite (fs_bind_frame _ _ _ _ _ _ H3 Q3).
    + apply (fs_unbind_frame _ _ _ _ _ H1); [rewrite <- Hsplit; exact Q1|].
      destruct (is_prefix q sd) eqn:H; [|reflexivity].
      rewrite Hsplit in Q2. rewrite <- Q2. symmetry.
      exact (is_prefix_trans _ _ _ H (is_prefix_app_true sd [a])).
    + destruct (is_prefix q dd) eqn:H; [|reflexivity].
      rewrite <- Q4. symmetry.
      exact (is_prefix_trans _ _ _ H (is_prefix_app_true dd [b])).
  - intros q es0 Hq Hsq.
    rewrite Hsplit in Hsq.
    destruct (fs_unbind_keeps_dir _ _ _ _ _ _ H1 Hq Hsq) as [es3 Hq1].
    apply (fs_bind_keeps_dir _ _ _ _ _ _ _ H3 Hq1).
    apply (fs_lookup_below_none _ _ root (Dir es0)); assumption.
Qed.

Lemma apart_sym (p q : path) : apart p q -> apart q p.
Proof. intros [H1 H2]. split; assumption. Qed.

Lemma apart_siblings (d : path) (a b : string) :
  a <> b -> apart (d ++ [a]) (d ++ [b]).
Proof.
  intros H. split; apply is_prefix_siblings; congruence.
Qed.

Lemma is_prefix_parent (q d : path) (a : string) :
  is_prefix q (d ++ [a]) = false -> is_prefix q d = false.
Proof.
  intros H. destruct (is_prefix q d) eqn:Hq; [|reflexivity].
  rewrite <- H. symmetry.
  exact (is_prefix_trans _ _ _ Hq (is_prefix_app_true d [a])).
Qed.

Lemma is_prefix_child (p d : path) (b : string) :
  is_prefix p d = false -> p <> d ++ [b] -> is_prefix p (d ++ [b]) = false.
Proof.
  intros H Hne. destruct (is_prefix p (d ++ [b])) eqn:Hp; [|reflexivity].
  apply is_prefix_snoc in Hp. destruct Hp; congruence.
Qed.

(** ** [_replace_skill] when nothing is refused *)




(** [_replace_skill] with something installed and nothing refused. *)
Lemma replace_skill_swap
        (dest_root : path) (name : string) (new_path : path)
        (keep_backup : bool) (w : world) (old cand : node) :
  let dest_path := dest_root ++ [name] in
  let backup_path := dest_root ++ [backup_name name (clock w)] in
  fs_lookup dest_path (fs w) = Some old ->
  node_exists (Some old) = true ->
  fs_lookup backup_path (fs w) = None ->
  fs_lookup new_path (fs w) = Some cand ->
  is_prefix new_path dest_root = false ->
  is_prefix dest_path new_path = false ->
  hd None (move_faults w) = None ->
  hd None (tl (move_faults w)) = None ->
  exists w',
    _replace_skill dest_root name new_path keep_backup w = (Ok tt, w')
    /\ calls w' = calls w ++ [C_makedirs dest_root; C_stat dest_path;
                              C_move dest_path backup_path;
                              C_move new_path dest_path]
                          ++ (if keep_backup then [] else [C_rmtree backup_path])
    /\ fs_lookup dest_path (fs w') = Some cand
    /\ fs_lookup new_path (fs w') = None
    /\ fs_lookup backup_path (fs w')
       = (if keep_backup then Some old
          else match old with
               | Dir _ => None
               | _ => Some old
               end)
    /\ (forall q, apart new_path q -> apart dest_path q -> apart backup_path q ->
                  fs_lookup q (fs w') = fs_lookup q (fs w))
    /\ (forall q es0, fs_lookup q (fs w) = Some (Dir es0) ->
                      is_prefix new_path q = false ->
                      is_prefix dest_path q = false ->
                      is_prefix backup_path q = false ->
                      exists es', fs_lookup q (fs w') = Some (Dir es')).
Proof.
  intros dest_path backup_path Hold Hex Hfree Hnew Hpre Hin Hf1 Hf2.
  pose proof (backup_name_fresh name (clock w)) as Hne.
  destruct (fs_lookup_parent _ _ _ _ Hold) as (es & Hroot & _).
  (* the old copy goes to the backup path *)
  destruct (move_tree_fresh dest_path dest_root (backup_name name (clock w))
              (fs w) old es Hold Hroot Hfree (is_prefix_longer dest_root name))
    as (root1 & Hmv1 & Hb1 & Hd1 & Hframe1 & Hdirs1).
  fold backup_path in Hmv1, Hb1, Hframe1.
  assert (Hnd : new_path <> dest_path).
  { intros ->. unfold dest_path in Hin. rewrite <- (app_nil_r (dest_root ++ [name])) in Hin at 2.
    rewrite is_prefix_app_true in Hin. discriminate. }
  assert (Hnb : new_path <> backup_path).
  { intros ->. rewrite Hfree in Hnew. discriminate. }
  assert (And : apart new_path dest_path).
  { split; [exact (is_prefix_child _ _ _ Hpre Hnd) | exact Hin]. }
  assert (Anb : apart new_path backup_path).
  { split; [exact (is_prefix_child _ _ _ Hpre Hnb)|].
    exact (fs_lookup_below_none _ _ _ _ Hfree Hnew). }
  assert (Adb : apart dest_path backup_path) by exact (apart_siblings _ _ _ Hne).
  (* the candidate goes to the target *)
  assert (Hnew1 : fs_lookup new_path root1 = Some cand).
  { rewrite (Hframe1 _ (apart_sym _ _ And) (apart_sym _ _ Anb)). exact Hnew. }
  destruct (Hdirs1 dest_root es Hroot (is_prefix_longer dest_root name))
    as [es1 Hroot1].
  destruct (move_tree_fresh new_path dest_root name root1 cand es1
              Hnew1 Hroot1 Hd1 Hpre)
    as (root3 & Hmv3 & Hd3 & Hn3 & Hframe3 & Hdirs3).
  fold dest_path in Hmv3, Hd3, Hframe3.
  assert (Hb3 : fs_lookup backup_path root3 = Some old).
  { rewrite (Hframe3 _ Anb Adb). exact Hb1. }
  assert (Hdirs13 : forall q es0,
             fs_lookup q (fs w) = Some (Dir es0) ->
             is_prefix new_path q = false ->
             is_prefix dest_path q = false ->
             is_prefix backup_path q = false ->
             exists es', fs_lookup q root3 = Some (Dir es')).
  { intros q es0 Hq Q1 Q2 _.
    destruct (Hdirs1 q es0 Hq Q2) as [es4 Hq1].
    exact (Hdirs3 q es4 Hq1 Q1). }
  unfold _replace_skill, bind, try_except.
  unfold os_makedirs. cbn [fs log].
  rewrite (fs_makedirs_existing dest_root (fs w) _ Hroot eq_refl).
  cbn [os_path_exists fs set_fs log]. fold dest_path. rewrite Hold, Hex.
  unfold time_strftime. cbn [clock set_fs log]. fold backup_path.
  unfold shutil_move at 1. cbn [fs set_fs set_move_faults log move_faults].
  rewrite Hf1, Hmv1. unfold ret at 1.
  unfold shutil_move at 1. cbn [fs set_fs set_move_faults log move_faults].
  rewrite Hf2, Hmv3.
  destruct keep_backup; cbn [negb].
  - eexists. split; [reflexivity|]. cbn [fs set_fs set_move_faults log calls].
    split; [rewrite <- !app_assoc; reflexivity|].
    split; [exact Hd3|]. split; [exact Hn3|]. split; [exact Hb3|].
    split; [|exact Hdirs13].
    intros q Q1 Q2 Q3. rewrite (Hframe3 _ Q1 Q2). exact (Hframe1 _ Q2 Q3).
  - unfold shutil_rmtree. cbn [fs set_fs set_move_faults log].
    destruct backup_path as [|c rest] eqn:Ep;
      [destruct dest_root; discriminate|].
    rewrite <- Ep in *. rewrite Hb3.
    destruct old as [content|target resolves|oes].
    + eexists. split; [reflexivity|]. cbn [fs set_fs set_move_faults log calls].
      split; [rewrite <- !app_assoc; reflexivity|].
      split; [exact Hd3|]. split; [exact Hn3|]. split; [exact Hb3|].
      split; [|exact Hdirs13].
      intros q Q1 Q2 Q3. rewrite (Hframe3 _ Q1 Q2). exact (Hframe1 _ Q2 Q3).
    + eexists. split; [reflexivity|]. cbn [fs set_fs set_move_faults log calls].
      split; [rewrite <- !app_assoc; reflexivity|].
      split; [exact Hd3|]. split; [exact Hn3|]. split; [exact Hb3|].
      split; [|exact Hdirs13].
      intros q Q1 Q2 Q3. rewrite (Hframe3 _ Q1 Q2). exact (Hframe1 _ Q2 Q3).
    + destruct (fs_lookup_parent _ _ _ _ Hb3) as (es3 & Hroot3 & _).
      destruct (fs_unbind_defined dest_root (backup_name name (clock w)) root3 es3 Hroot3)
        as [root4 H4].
      unfold backup_path at 1 2. rewrite dirname_join, basename_join, H4.
      eexists. split; [reflexivity|]. cbn [fs set_fs set_move_faults log calls].
      split; [rewrite <- !app_assoc; reflexivity|].
      destruct Adb as [A1 A2], Anb as [A3 A4].
      split; [|split; [|split; [|split]]].
      * rewrite (fs_unbind_frame _ _ _ _ _ H4 A2 (is_prefix_longer dest_root name)).
        exact Hd3.
      * rewrite (fs_unbind_frame _ _ _ _ _ H4 A4 Hpre). exact Hn3.
      * exact (fs_lookup_unbound _ _ _ _ H4).
      * intros q Q1 Q2 Q3.
        rewrite (fs_unbind_frame _ _ _ _ _ H4 (proj1 Q3) (is_prefix_parent _ _ _ (proj2 Q3))).
        rewrite (Hframe3 _ Q1 Q2). exact (Hframe1 _ Q2 Q3).
      * intros q es0 Hq Q1 Q2 Q3.
        destruct (Hdirs13 q es0 Hq Q1 Q2 Q3) as [es5 Hq3].
        exact (fs_unbind_keeps_dir _ _ _ _ _ _ H4 Hq3 Q3).
Qed.

(** X12.  Replacement.  When something is installed at the target, the
    time-stamped backup path is free, the candidate lies outside the
    installed copy and the way to it, and neither move is refused,
    [_replace_skill] returns with the candidate at the target and gone from
    the staging path.  With [keep_backup] the old copy is at the backup
    path; without it the backup is removed when the old copy was a
    directory, while an old copy that was a file or a link stays at the
    backup path, since [shutil.rmtree] with [ignore_errors] removes
    directories only.  Every path apart from the three places names what
    it named. *)
Theorem replace_skill_swaps_in_candidate
        (dest_root : path) (name : string) (new_path : path)
        (keep_backup : bool) (w : world) (old cand : node) :
  let dest_path := dest_root ++ [name] in
  let backup_path := dest_root ++ [backup_name name (clock w)] in
  fs_lookup dest_path (fs w) = Some old ->
  node_exists (Some old) = true ->
  fs_lookup backup_path (fs w) = None ->
  fs_lookup new_path (fs w) = Some cand ->
  is_prefix new_path dest_root = false ->
  is_prefix dest_path new_path = false ->
  hd None (move_faults w) = None ->
  hd None (tl (move_faults w)) = None ->
  exists w',
    _replace_skill dest_root name new_path keep_backup w = (Ok tt, w')
    /\ calls w' = calls w ++ [C_makedirs dest_root; C_stat dest_path;
                              C_move dest_path backup_path;
                              C_move new_path dest_path]
                          ++ (if keep_backup then [] else [C_rmtree backup_path])
    /\ fs_lookup dest_path (fs w') = Some cand
    /\ fs_lookup new_path (fs w') = None
    /\ fs_lookup backup_path (fs w')
       = (if keep_backup then Some old
          else match old with
               | Dir _ => None
               | _ => Some old
               end)
    /\ (forall q, apart new_path q -> apart dest_path q -> apart backup_path q ->
                  fs_lookup q (fs w') = fs_lookup q (fs w)).
Proof.
  intros dest_path backup_path Hold Hex Hfree Hnew Hpre Hin Hf1 Hf2.
  destruct (replace_skill_swap dest_root name new_path keep_backup w old cand
              Hold Hex Hfree Hnew Hpre Hin Hf1 Hf2)
    as (w' & Hrun & Hcalls & Hd & Hn & Hb & Hframe & _).
  exists w'. repeat (split; [assumption|]). assumption.
Qed.

Lemma replace_skill_swaps_in_candidate_witness :
  exists w',
    _replace_skill Sample.dest_root "foo" ["src"; "foo"] false
      (Sample.start (Sample.root Sample.text_local [("foo", Sample.skill_old)]) [])
    = (Ok tt, w')
    /\ fs_lookup (Sample.dest_root ++ ["foo"]) (fs w') = Some Sample.skill
    /\ fs_lookup (Sample.dest_root ++ [backup_name "foo" "20240101000000"]) (fs w')
       = None.
Proof.
  destruct (replace_skill_swaps_in_candidate Sample.dest_root "foo" ["src"; "foo"]
              false
              (Sample.start (Sample.root Sample.text_local [("foo", Sample.skill_old)]) [])
              Sample.skill_old Sample.skill
              eq_refl eq_refl eq_refl eq_refl eq_refl eq_refl eq_refl eq_refl)
    as (w' & Hrun & _ & Hd & _ & Hb & _).
  exists w'. auto.
Defined.

(** ** [_replace_skill] when a move fails with nothing to restore *)

(** X13.  If moving the installed copy aside fails, nothing else is tried:
    the error of that [shutil.move] is raised as it is, the final move is
    not attempted (the staged candidate stays where it is), and the tree,
    the installed copy included, is what it was. *)
Theorem replace_skill_backup_step_fails
        (dest_root : path) (name : string) (new_path : path)
        (keep_backup : bool) (w : world) (old : node) (e : exn) :
  let dest_path := dest_root ++ [name] in
  let backup_path := dest_root ++ [backup_name name (clock w)] in
  fs_lookup dest_path (fs w) = Some old ->
  node_exists (Some old) = true ->
  (hd None (move_faults w) = Some e
   \/ (hd None (move_faults w) = None
       /\ move_tree dest_path backup_path (fs w) = Raise e)) ->
  exists w',
    _replace_skill dest_root name new_path keep_backup w = (Raise e, w')
    /\ calls w' = calls w ++ [C_makedirs dest_root; C_stat dest_path;
                              C_move dest_path backup_path]
    /\ fs w' = fs w
    /\ move_faults w' = tl (move_faults w).
Proof.
  intros dest_path backup_path Hold Hex Hfail.
  destruct (fs_lookup_parent _ _ _ _ Hold) as (es & Hroot & _).
  unfold _replace_skill, bind, try_except.
  unfold os_makedirs. cbn [fs log].
  rewrite (fs_makedirs_existing dest_root (fs w) _ Hroot eq_refl).
  cbn [os_path_exists fs set_fs log]. fold dest_path. rewrite Hold, Hex.
  unfold time_strftime. cbn [clock set_fs log]. fold backup_path.
  unfold shutil_move. cbn [fs set_fs set_move_faults log move_faults].
  destruct Hfail as [Hf | [Hf Hmv]]; rewrite Hf; [|rewrite Hmv];
    (eexists; split; [reflexivity|];
     cbn [fs set_fs set_move_faults log calls move_faults];
     split; [rewrite <- !app_assoc; reflexivity|];
     split; [destruct w; reflexivity | reflexivity]).
Qed.

Lemma replace_skill_backup_step_fails_witness :
  exists w',
    _replace_skill Sample.dest_root "foo" ["src"; "foo"] false
      (Sample.start (Sample.root Sample.text_local [("foo", Sample.skill_old)])
                    [Some (OSError "busy")])
    = (Raise (OSError "busy"), w')
    /\ fs w' = Sample.root Sample.text_local [("foo", Sample.skill_old)].
Proof.
  destruct (replace_skill_backup_step_fails Sample.dest_root "foo" ["src"; "foo"]
              false
              (Sample.start (Sample.root Sample.text_local [("foo", Sample.skill_old)])
                            [Some (OSError "busy")])
              Sample.skill_old (OSError "busy") eq_refl eq_refl (or_introl eq_refl))
    as (w' & Hrun & _ & Hfs & _).
  exists w'. auto.
Defined.



(** ** Observations that the library calls leave alone *)

Ltac still_step Hs :=
  first
    [ apply preserves_ret
    | apply preserves_raise
    | apply preserves_lift
    | apply preserves_bind; [|intros ?]
    | apply preserves_try_except; [|intros ?]
    | apply preserves_try_finally
    | match goal with
      | |- preserves _ (if ?b then _ else _) => destruct b
      | |- preserves _ (match ?x with _ => _ end) => destruct x
      end
    | apply stat_exists_look; exact (proj1 Hs)
    | apply stat_isdir_look; exact (proj1 Hs)
    | apply stat_isfile_look; exact (proj1 Hs)
    | apply walk_look; exact (proj1 Hs)
    | apply strftime_look ].

Section Still.

Variable E : env.
Context {X : Type} (f : world -> X).
Hypothesis f_still : still f.

Lemma still_log c w : f (log c w) = f w.
Proof. exact (proj1 f_still c w). Qed.

Lemma still_fs root w : f (set_fs root w) = f w.
Proof. exact (proj1 (proj2 f_still) root w). Qed.

Lemma still_names l w : f (set_temp_names l w) = f w.
Proof. exact (proj2 (proj2 f_still) l w). Qed.

Lemma makedirs_still p : preserves f (os_makedirs p).
Proof.
  intros w r w' H. unfold os_makedirs in H. run_inv H;
    rewrite ?still_fs, ?still_log; reflexivity.
Qed.

Lemma mkdtemp_still prefix : preserves f (tempfile_mkdtemp E prefix).
Proof.
  intros w r w' H. unfold tempfile_mkdtemp in H. run_inv H;
    rewrite ?still_fs, ?still_names, ?still_log; reflexivity.
Qed.

Lemma rmtree_still p : preserves f (shutil_rmtree p).
Proof.
  intros w r w' H. unfold shutil_rmtree in H. run_inv H;
    rewrite ?still_fs, ?still_log; reflexivity.
Qed.

Lemma copytree_still src dst : preserves f (shutil_copytree E src dst).
Proof.
  intros w r w' H. unfold shutil_copytree in H. run_inv H;
    rewrite ?still_fs, ?still_log; reflexivity.
Qed.

Lemma run_still cmd out : preserves f (subprocess_run E cmd out).
Proof.
  intros w r w' H. unfold subprocess_run in H.
  destruct (all_strings cmd) as [argv|];
    [|inversion H; subst; apply still_log].
  destruct (run_installer E argv) as [left ok]. inversion H; subst.
  destruct left as [tree|]; [|apply still_log].
  destruct (fs_bind _ _ _ _); rewrite ?still_fs, ?still_log; reflexivity.
Qed.

Lemma write_file_still p data : preserves f (write_file p data).
Proof.
  intros w r w' H. unfold write_file in H. run_inv H;
    rewrite ?still_fs, ?still_log; reflexivity.
Qed.

Lemma stage_candidate_still name entry args tmp_root :
  preserves f (stage_candidate E name entry args tmp_root).
Proof.
  unfold stage_candidate, _install_from_github, _resolve_installer_path,
    _validate_skill_dir.
  repeat first
    [ still_step f_still
    | apply makedirs_still
    | apply copytree_still
    | apply run_still ].
Qed.

End Still.

Section Silent.

Variable E : env.
Context {X : Type} (f : world -> X).
Hypothesis f_silent : silent f.

Lemma silent_still : still f.
Proof. destruct f_silent as (H1 & H2 & _ & H4). repeat split; assumption. Qed.

Lemma move_silent src dst : preserves f (shutil_move src dst).
Proof.
  pose proof (still_log f silent_still) as Hlog.
  pose proof (still_fs f silent_still) as Hfs.
  pose proof (proj1 (proj2 (proj2 f_silent))) as Hfaults.
  intros w r w' H. unfold shutil_move in H. run_inv H;
    rewrite ?Hfs, ?Hfaults, ?Hlog; reflexivity.
Qed.

Lemma update_one_silent name entry dest_root args :
  preserves f (_update_one E name entry dest_root args).
Proof.
  pose proof silent_still as Hs.
  unfold _update_one, _replace_skill, _is_same_skill.
  repeat first
    [ apply stage_candidate_still; exact Hs
    | still_step Hs
    | apply makedirs_still; exact Hs
    | apply mkdtemp_still; exact Hs
    | apply rmtree_still; exact Hs
    | apply move_silent ].
Qed.

End Silent.

Lemma move_faults_still : still move_faults.
Proof. repeat split. Qed.


(** ** [_update_one]: the staging area *)

Lemma bind_ok {A B} (m : M A) (k : A -> M B) (w w' : world) (b : B) :
  bind m k w = (Ok b, w') ->
  exists a w1, m w = (Ok a, w1) /\ k a w1 = (Ok b, w').
Proof.
  unfold bind. destruct (m w) as [[a|e] w1]; [eauto | discriminate].
Qed.

Lemma validate_skill_dir_ok (p : path) (w w' : world) :
  _validate_skill_dir p w = (Ok tt, w') ->
  node_isdir (fs_lookup p (fs w')) = true
  /\ node_isfile (fs_lookup (p ++ ["SKILL.md"]) (fs w')) = true
  /\ fs w' = fs w.
Proof.
  unfold _validate_skill_dir, bind, os_path_isdir, os_path_isfile, raise, ret.
  cbn [fs log].
  destruct (node_isdir (fs_lookup p (fs w))) eqn:Hd; cbn [negb fs log];
    [|intros H; discriminate H].
  destruct (node_isfile (fs_lookup (p ++ ["SKILL.md"]) (fs w))) eqn:Hf;
    cbn [negb]; [|intros H; discriminate H].
  intros H. inversion H; subst. cbn [fs log]. auto.
Qed.

(** What [stage_candidate] returns has passed [_validate_skill_dir]. *)
Lemma stage_candidate_ok
        (E : env) (name : string) (entry : json) (args : update_args)
        (tmp_root new_path : path) (w1 w2 : world) :
  stage_candidate E name entry args tmp_root w1 = (Ok new_path, w2) ->
  new_path = tmp_root ++ ["stage"; name]
  /\ node_isdir (fs_lookup new_path (fs w2)) = true
  /\ node_isfile (fs_lookup (new_path ++ ["SKILL.md"]) (fs w2)) = true.
Proof.
  unfold stage_candidate. intros H.
  apply bind_ok in H. destruct H as ([] & wa & _ & H).
  apply bind_ok in H. destruct H as (has_local & wb & _ & H).
  apply bind_ok in H. destruct H as ([] & wc & _ & H).
  apply bind_ok in H. destruct H as ([] & wd & Hval & H).
  unfold ret in H. inversion H; subst.
  destruct (validate_skill_dir_ok _ _ _ Hval) as (Hd & Hf & _).
  rewrite <- !app_assoc in *. simpl in *. auto.
Qed.

(** X15.  What leaves the staging area has been checked: whenever
    [stage_candidate] (lines 180 to 190 of [_update_one]) returns, whether
    the candidate was copied from a local path or left by the installer,
    the path it returns is [<tmp_root>/stage/<name>], that path is a
    directory and the regular file [SKILL.md] is in it; and the staging
    has issued no [shutil.move].  An installer that exits with status zero
    without leaving such a directory makes the update fail instead. *)
Theorem stage_candidate_yields_valid_skill
        (E : env) (name : string) (entry : json) (args : update_args)
        (tmp_root new_path : path) (w1 w2 : world) :
  stage_candidate E name entry args tmp_root w1 = (Ok new_path, w2) ->
  new_path = tmp_root ++ ["stage"; name]
  /\ node_isdir (fs_lookup new_path (fs w2)) = true
  /\ node_isfile (fs_lookup (new_path ++ ["SKILL.md"]) (fs w2)) = true
  /\ calls_where is_move w2 = calls_where is_move w1
  /\ move_faults w2 = move_faults w1.
Proof.
  intros H.
  destruct (stage_candidate_ok _ _ _ _ _ _ _ _ H) as (Hp & Hd & Hf).
  split; [exact Hp|]. split; [exact Hd|]. split; [exact Hf|]. split.
  - exact (stage_candidate_no_move E name entry args tmp_root _ _ _ H).
  - exact (stage_candidate_still E move_faults move_faults_still
             name entry args tmp_root _ _ _ H).
Qed.

Lemma stage_candidate_yields_valid_skill_witness :
  let w := Sample.start (Sample.root Sample.text_local []) [] in
  let w1 := snd (tempfile_mkdtemp Sample.environment "skill-update-" w) in
  let run := stage_candidate Sample.environment "foo" Sample.local_entry
               Sample.default_args ["tmp"; "skill-update-abc123"] w1 in
  fst run = Ok ["tmp"; "skill-update-abc123"; "stage"; "foo"]
  /\ node_isfile (fs_lookup ["tmp"; "skill-update-abc123"; "stage"; "foo"; "SKILL.md"]
                            (fs (snd run))) = true.
Proof.
  intros w w1 run. split; [reflexivity|].
  exact (proj1 (proj2 (proj2 (stage_candidate_yields_valid_skill
                                Sample.environment "foo"
                                Sample.local_entry Sample.default_args
                                ["tmp"; "skill-update-abc123"]
                                ["tmp"; "skill-update-abc123"; "stage"; "foo"]
                                w1 (snd run) eq_refl)))).
Defined.



(** ** [_cmd_update]: what a batch writes and reports *)





Lemma stdout_silent : silent stdout.
Proof. repeat split. Qed.

Lemma stderr_silent : silent stderr.
Proof. repeat split. Qed.

(** X18.  Every attempted update is reported exactly once, and nothing
    else is printed by the loop: the standard output gains, in order, one
    line for each attempt that returned ([更新完成] when the skill was
    replaced, [已是最新] when it was up to date), the standard error one
    line for each attempt that raised, with the text of the error; and the
    attempts are the targets whose record is not empty, in the order
    given, whatever the earlier ones did. *)
Theorem update_loop_reports_each_attempt
        (E : env) (skills : list (string * json)) (dest_root : path)
        (args : update_args) (targets : list string) :
  forall (errors : bool) (w : world),
    let run := update_loop E skills dest_root args targets errors w in
    let tries := attempts E skills dest_root args targets w in
    stdout (snd run) = stdout w ++ flat_map report_out tries
    /\ stderr (snd run) = stderr w ++ flat_map report_err tries
    /\ map fst tries = filter (fun name => Py.truthy (entry_of skills name)) targets.
Proof.
  induction targets as [|name rest IH]; intros errors w; simpl.
  - rewrite !app_nil_r. auto.
  - destruct (Py.truthy (entry_of skills name)) eqn:Ht; simpl; [|apply IH].
    unfold bind.
    assert (Hrep : forall r w1,
               _update_one E name (entry_of skills name) dest_root args w = (r, w1) ->
               exists failed w2,
                 update_and_report E name (entry_of skills name) dest_root args w
                 = (Ok failed, w2)
                 /\ stdout w2 = stdout w ++ report_out (name, r)
                 /\ stderr w2 = stderr w ++ report_err (name, r)).
    { intros r w1 Hone.
      pose proof (update_one_silent E stdout stdout_silent _ _ _ _ _ _ _ Hone) as Ho.
      pose proof (update_one_silent E stderr stderr_silent _ _ _ _ _ _ _ Hone) as He.
      unfold update_and_report, try_except, bind. rewrite Hone.
      destruct r as [[|]|e]; simpl; eexists _, _;
        (split; [reflexivity|]); simpl; rewrite Ho, He, ?app_nil_r; auto. }
    destruct (_update_one E name (entry_of skills name) dest_root args w)
      as [r w1] eqn:Hone.
    destruct (Hrep r w1 eq_refl) as (failed & w2 & Hrun & Ho & He).
    rewrite Hrun. simpl.
    destruct (IH (errors || failed) w2) as (I1 & I2 & I3).
    rewrite I1, I2, I3, Ho, He, <- !app_assoc. auto.
Qed.

(** ** [_install_from_github]: what reaches the installer *)

Lemma subprocess_run_calls (E : env) (cmd : list json) (out : path)
      (w w' : world) (r : result unit) :
  subprocess_run E cmd out w = (r, w') -> calls w' = calls w ++ [C_run cmd].
Proof.
  unfold subprocess_run. intros H.
  destruct (all_strings cmd) as [argv|]; [|inversion H; reflexivity].
  destruct (run_installer E argv) as [left ok]. inversion H; subst.
  destruct left as [tree|]; [|reflexivity].
  destruct (fs_bind _ _ _ _); reflexivity.
Qed.

Lemma optional_flags {A} (cmd r m : list A) (br bm : bool) :
  exists opts,
    (if bm then (if br then cmd ++ r else cmd) ++ m
     else if br then cmd ++ r else cmd) = cmd ++ opts.
Proof.
  destruct bm, br.
  - exists (r ++ m). rewrite app_assoc. reflexivity.
  - exists m. reflexivity.
  - exists r. reflexivity.
  - exists []. rewrite app_nil_r. reflexivity.
Qed.

Ltac install_refused H := inversion H; subst; left; split; reflexivity.

Ltac install_checked s H :=
  match goal with
  | |- context [assoc "repo" ?fields] =>
      let repo := fresh "repo" in
      let Hrepo := fresh "Hrepo" in
      let Hval := fresh "Hval" in
      destruct (assoc "repo" fields) as [repo|] eqn:Hrepo;
      [|cbn [Py.truthy negb orb] in H; install_refused H];
      destruct (negb (Py.truthy repo) || negb (Py.truthy (JStr s)));
      [install_refused H|];
      destruct (_validate_repo_path s) as [[]|?] eqn:Hval;
      [|install_refused H];
      apply subprocess_run_calls in H;
      match type of H with
      | _ = _ ++ [C_run (if ?bm then (if ?br then ?cmd ++ ?r else _) ++ ?m else _)] =>
          let opts := fresh "opts" in
          let Hopts := fresh "Hopts" in
          destruct (optional_flags cmd r m br bm) as [opts Hopts];
          rewrite Hopts in H;
          right; exists repo, s, opts;
          split; [auto|];
          split; [reflexivity|];
          split; [exact Hval|];
          split; [destruct (PosixPath.isabs s) eqn:Ha; [|reflexivity];
                  rewrite (validate_rejects_absolute s Ha) in Hval; discriminate|];
          split; [destruct (leaves_root s) eqn:Hl; [|reflexivity];
                  rewrite (validate_rejects_climbing s Hl) in Hval; discriminate|];
          rewrite H; reflexivity
      end
  end.

(** X19.  For a record without [url], the installer is run only with a
    repository path that passed [_validate_repo_path]: either
    [_install_from_github] raises with no call issued and the world as it
    was, or it issues the one [subprocess.run], and then the record's
    [path] is a string (or a list of one string) that is relative and does
    not climb above the repository root, and that string is what follows
    [--path] on the command line, after the record's [repo]. *)
Theorem install_runs_only_validated_paths
        (E : env) (fields : list (string * json)) (name : string)
        (stage_root installer_path : path) (w w' : world) (r : result unit) :
  assoc "url" fields = None ->
  _install_from_github E (JObj fields) name stage_root installer_path w = (r, w') ->
  (w' = w /\ raised r = true)
  \/ exists repo p opts,
      (assoc "path" fields = Some (JStr p)
       \/ assoc "path" fields = Some (JList [JStr p]))
      /\ assoc "repo" fields = Some repo
      /\ _validate_repo_path p = Ok tt
      /\ PosixPath.isabs p = false
      /\ leaves_root p = false
      /\ calls w'
         = calls w
             ++ [C_run ([JStr (sys_executable E); JStr (path_str installer_path);
                         JStr "--dest"; JStr (path_str stage_root);
                         JStr "--name"; JStr name;
                         JStr "--repo"; repo; JStr "--path"; JStr p] ++ opts)].
Proof.
  intros Hurl Hrun.
  unfold _install_from_github, bind, lift, ret, raise in Hrun.
  cbn [Py.contains Py.get Py.getitem] in Hrun. rewrite Hurl in Hrun.
  cbn beta iota zeta in Hrun.
  destruct (assoc "path" fields) as [[| |n|s|items|fields0]|] eqn:Hpath.
  - cbn [Py.truthy negb orb] in Hrun. rewrite orb_true_r in Hrun. install_refused Hrun.
  - destruct (negb (Py.truthy _) || _) in Hrun; install_refused Hrun.
  - destruct (negb (Py.truthy _) || _) in Hrun; install_refused Hrun.
  - install_checked s Hrun.
  - destruct items as [|item [|item2 rest]];
      [install_refused Hrun | | install_refused Hrun].
    cbn [List.length Nat.eqb negb nth] in Hrun.
    destruct item as [| |n|s|items|fields0];
      try (destruct (negb (Py.truthy _) || _) in Hrun; install_refused Hrun; fail).
    install_checked s Hrun.
  - destruct (negb (Py.truthy _) || _) in Hrun; install_refused Hrun.
  - cbn [Py.truthy negb orb] in Hrun. rewrite orb_true_r in Hrun. install_refused Hrun.
Qed.

Lemma install_runs_only_validated_paths_witness :
  let w := Sample.start (Sample.root Sample.text_local []) [] in
  let run := _install_from_github Sample.environment (JObj Cases.remote_fields)
               "bar" ["tmp"; "t"; "stage"] ["opt"; "install.py"] w in
  (snd run = w /\ raised (fst run) = true)
  \/ exists repo p opts,
      (assoc "path" Cases.remote_fields = Some (JStr p)
       \/ assoc "path" Cases.remote_fields = Some (JList [JStr p]))
      /\ assoc "repo" Cases.remote_fields = Some repo
      /\ _validate_repo_path p = Ok tt
      /\ PosixPath.isabs p = false
      /\ leaves_root p = false
      /\ calls (snd run)
         = calls w
             ++ [C_run ([JStr "python3"; JStr "/opt/install.py";
                         JStr "--dest"; JStr "/tmp/t/stage";
                         JStr "--name"; JStr "bar";
                         JStr "--repo"; repo; JStr "--path"; JStr p] ++ opts)].
Proof.
  intros w run.
  exact (install_runs_only_validated_paths Sample.environment Cases.remote_fields
           "bar" ["tmp"; "t"; "stage"] ["opt"; "install.py"] w (snd run) (fst run)
           eq_refl eq_refl).
Defined.

(** ** [_validate_repo_path]: what is accepted *)

Lemma join_slash_cons (c d : string) (rest : list string) :
  PyStr.join_slash (c :: d :: rest)
  = (c ++ String "/" (PyStr.join_slash (d :: rest)))%string.
Proof. reflexivity. Qed.

Lemma split_slash_app (c s : string) :
  PyStr.has_slash c = false ->
  PyStr.split_slash (c ++ String "/" s) = c :: PyStr.split_slash s.
Proof.
  induction c as [|a c IH]; intros H.
  - reflexivity.
  - simpl in H. apply orb_false_iff in H. destruct H as [Ha Hc].
    change (PyStr.split_slash (String a c ++ String "/" s))
      with (if Ascii.eqb a "/" then EmptyString :: PyStr.split_slash (c ++ String "/" s)
            else match PyStr.split_slash (c ++ String "/" s) with
                 | [] => [String a EmptyString]
                 | w :: ws => String a w :: ws
                 end).
    rewrite Ha, (IH Hc). reflexivity.
Qed.

Lemma plain_inv (c : string) :
  plain c = true ->
  c <> "" /\ c <> "." /\ c <> ".." /\ PyStr.has_slash c = false.
Proof.
  unfold plain. rewrite !andb_true_iff, !negb_true_iff, !String.eqb_neq. tauto.
Qed.

Lemma split_slash_join (c : string) (rest : list string) :
  forallb plain (c :: rest) = true ->
  PyStr.split_slash (PyStr.join_slash (c :: rest)) = c :: rest.
Proof.
  revert c. induction rest as [|d rest IH]; intros c H.
  - simpl in H. rewrite andb_true_r in H. apply plain_inv in H.
    apply split_slash_no_slash. tauto.
  - change (forallb plain (c :: d :: rest))
      with (plain c && forallb plain (d :: rest)) in H.
    apply andb_true_iff in H. destruct H as [Hc Hrest].
    apply plain_inv in Hc.
    rewrite join_slash_cons, split_slash_app by tauto.
    rewrite (IH d Hrest). reflexivity.
Qed.

Lemma normpath_step_plain (comps acc : list string) :
  forallb plain comps = true ->
  fold_left (PosixPath.normpath_step 0) comps acc = acc ++ comps.
Proof.
  revert acc. induction comps as [|c comps IH]; intros acc H; simpl.
  - rewrite app_nil_r. reflexivity.
  - simpl in H. apply andb_true_iff in H. destruct H as [Hc Hrest].
    apply plain_inv in Hc. destruct Hc as (H1 & H2 & H3 & _).
    unfold PosixPath.normpath_step at 2.
    apply String.eqb_neq in H1, H2, H3. rewrite H1, H2, H3. simpl.
    rewrite (IH _ Hrest), <- app_assoc. reflexivity.
Qed.

Lemma string_app_nil_r (s : string) : (s ++ "")%string = s.
Proof. induction s as [|a s IH]; simpl; [reflexivity | rewrite IH; reflexivity]. Qed.

Lemma prefix_slash_false (a : ascii) (s : string) :
  Ascii.eqb a "/" = false -> String.prefix "/" (String a s) = false.
Proof.
  intros H.
  change (String.prefix "/" (String a s))
    with (if ascii_dec "/" a then String.prefix "" s else false).
  destruct (ascii_dec "/" a) as [<-|]; [discriminate | reflexivity].
Qed.

(** X20.  Ordinary relative paths pass the check: a path made of one or
    more names joined by slashes, none of them empty, [.] or [..], is
    accepted by [_validate_repo_path] unless its first name begins with two
    dots, and this condition cannot be dropped, since such a first name
    makes the check fail. *)
Theorem validate_accepts_plain_paths (c : string) (rest : list string) :
  forallb plain (c :: rest) = true ->
  (_validate_repo_path (PyStr.join_slash (c :: rest)) = Ok tt
   <-> PyStr.startswith c ".." = false).
Proof.
  intros Hplain.
  pose proof Hplain as Hall.
  change (forallb plain (c :: rest)) with (plain c && forallb plain rest) in Hplain.
  apply andb_true_iff in Hplain. destruct Hplain as [Hc _].
  apply plain_inv in Hc. destruct Hc as (Hne & Hdot & Hdd & Hslash).
  destruct c as [|a c']; [contradiction|].
  simpl in Hslash. apply orb_false_iff in Hslash. destruct Hslash as [Ha Hc'].
  set (p := PyStr.join_slash (String a c' :: rest)).
  assert (Hp : exists t, p = String a (c' ++ t)).
  { unfold p. destruct rest as [|d rest'].
    - exists "". simpl. rewrite string_app_nil_r. reflexivity. 
    - rewrite join_slash_cons. simpl. eauto. }
  destruct Hp as [t Hp].
  assert (Habs : PosixPath.isabs p = false).
  { unfold PosixPath.isabs, PyStr.startswith. rewrite Hp.
    apply prefix_slash_false. exact Ha. }
  assert (Hnorm : PosixPath.normpath p = p).
  { unfold PosixPath.normpath.
    assert (Hnil : (p =? "") = false) by (rewrite Hp; reflexivity).
    rewrite Hnil. unfold PosixPath.initial_slashes.
    unfold PosixPath.isabs in Habs. rewrite Habs.
    assert (Hsplit : PyStr.split_slash p = String a c' :: rest)
      by exact (split_slash_join _ _ Hall).
    rewrite Hsplit, (normpath_step_plain _ [] Hall). simpl app.
    cbn [PosixPath.slashes String.append]. fold p. rewrite Hnil. reflexivity. }
  assert (Hsame : PyStr.startswith p ".." = PyStr.startswith (String a c') "..").
  { unfold PyStr.startswith. rewrite Hp.
    change (String.prefix ".." (String a (c' ++ t)))
      with (if ascii_dec "." a then String.prefix "." (c' ++ t) else false).
    change (String.prefix ".." (String a c'))
      with (if ascii_dec "." a then String.prefix "." c' else false).
    destruct (ascii_dec "." a) as [<-|]; [|reflexivity].
    destruct c' as [|b c'']; [contradiction Hdot; reflexivity|].
    change (String.prefix "." (String b c'' ++ t))
      with (if ascii_dec "." b then String.prefix "" (c'' ++ t) else false).
    change (String.prefix "." (String b c''))
      with (if ascii_dec "." b then String.prefix "" c'' else false).
    destruct (ascii_dec "." b); [|reflexivity].
    destruct (c'' ++ t)%string, c''; reflexivity. }
  unfold _validate_repo_path. rewrite Habs, Hnorm, Hsame. cbn [orb].
  destruct (PyStr.startswith (String a c') ".."); split;
    intros H; try reflexivity; discriminate H.
Qed.

Lemma validate_accepts_plain_paths_witness :
  _validate_repo_path "skills/.curated/pdf" = Ok tt.
Proof.
  exact (proj2 (validate_accepts_plain_paths "skills" [".curated"; "pdf"] eq_refl)
               eq_refl).
Defined.

(** ** [_cmd_list] *)

Lemma list_line_pure (repr : json -> string) (name : string) (entry : json) :
  exists r, forall w, list_line repr name entry w = (r, w).
Proof.
  unfold list_line, bind, lift, ret.
  destruct (Py.contains "local_path" entry) as [[|]|e]; cbn beta iota;
    [| |eexists; intros; reflexivity].
  - destruct (Py.getitem entry "local_path"); eexists; intros; reflexivity.
  - destruct (Py.contains "url" entry) as [[|]|e]; cbn beta iota;
      [| |eexists; intros; reflexivity];
      (destruct (get_or entry "ref" (JStr "")) as [ref|e]; cbn beta iota;
       [|eexists; intros; reflexivity]);
      (destruct (get_or entry "method" (JStr "")) as [method|e]; cbn beta iota;
       [|eexists; intros; reflexivity]);
      (destruct (suffix_of ref method) as [suffix|e]; cbn beta iota;
       [|eexists; intros; reflexivity]).
    + destruct (Py.getitem entry "url"); eexists; intros; reflexivity.
    + destruct (Py.get entry "repo"); cbn beta iota;
        [|eexists; intros; reflexivity].
      destruct (Py.get entry "path"); eexists; intros; reflexivity.
Qed.

Lemma list_loop (repr : json -> string) (skills : list (string * json))
      (names : list string) :
  (forall name, In name names -> In name (map fst skills)) ->
  forall (w w' : world) (r : result unit),
    for_each names
             (fun name =>
                entry <- lift (Py.getitem (JObj skills) name) ;;
                line <- list_line repr name entry ;;
                print line) w = (r, w') ->
    fs w' = fs w /\ calls w' = calls w /\ stderr w' = stderr w
    /\ exists lines,
        stdout w' = stdout w ++ lines
        /\ (r = Ok tt ->
            Forall2 (fun name line =>
                       forall w0, list_line repr name (entry_of skills name) w0
                                  = (Ok line, w0))
                    names lines).
Proof.
  induction names as [|name names IH]; intros Hin w w' r H.
  - simpl in H. inversion H; subst. repeat split; try reflexivity.
    exists []. rewrite app_nil_r. split; [reflexivity|]. constructor.
  - simpl in H. unfold bind at 1 in H.
    assert (Hkey : exists entry, assoc name skills = Some entry).
    { destruct (assoc name skills) eqn:Ha; [eauto|].
      apply assoc_None in Ha. exfalso. apply Ha. apply Hin. left. reflexivity. }
    destruct Hkey as [entry Hentry].
    assert (Hof : entry_of skills name = entry) by (unfold entry_of; rewrite Hentry; reflexivity).
    unfold bind at 1, lift at 1 in H. cbn [Py.getitem] in H. rewrite Hentry in H.
    destruct (list_line_pure repr name entry) as [rl Hpure].
    unfold bind at 1 in H. rewrite Hpure in H.
    destruct rl as [line|e].
    + unfold print at 1 in H.
      apply IH in H; [|intros n Hn; apply Hin; right; exact Hn].
      cbn [fs calls stderr stdout] in H.
      destruct H as (H1 & H2 & H3 & lines & H4 & H5).
      repeat split; try assumption.
      exists (line :: lines). rewrite H4, <- app_assoc. split; [reflexivity|].
      intros ->. constructor; [|auto].
      intros w0. rewrite Hof. apply Hpure.
    + inversion H; subst. repeat split; try reflexivity.
      exists []. rewrite app_nil_r. split; [reflexivity | discriminate].
Qed.

(** X21.  [list] only reads and prints: it issues no call that writes and
    leaves the tree and the standard error as they were.  For an empty
    registry it prints the one line [暂无来源记录]; otherwise, when it
    returns, it has printed one line for each record, in the sorted order
    of the names, each the line [list_line] makes of the name and its
    record.  The status is 0 in both cases. *)
Theorem cmd_list_prints_sorted_records
        (E : env) (repr : json -> string) (sources : option path)
        (dest_root : path) (w w1 w' : world) (data : json) (n : nat) :
  _load_sources E (sources_path_of sources dest_root) w = (Ok data, w1) ->
  _cmd_list E repr sources dest_root w = (Ok n, w') ->
  n = 0
  /\ fs w' = fs w
  /\ calls_where writing_call w' = calls_where writing_call w
  /\ stderr w' = stderr w
  /\ exists lines,
      stdout w' = stdout w ++ lines
      /\ (skills_of data = [] -> lines = [msg_no_records])
      /\ (skills_of data <> [] ->
          Forall2 (fun name line =>
                     forall w0,
                       list_line repr name (entry_of (skills_of data) name) w0
                       = (Ok line, w0))
                  (sorted (map fst (skills_of data))) lines).
Proof.
  intros Hload Hrun.
  pose proof (@load_sources_look E _ fs _ (fun _ _ => eq_refl) _ _ _ Hload) as Hfs.
  pose proof (@load_sources_look E _ stdout _ (fun _ _ => eq_refl) _ _ _ Hload) as Hout.
  pose proof (@load_sources_look E _ stderr _ (fun _ _ => eq_refl) _ _ _ Hload) as Herr.
  pose proof (@load_sources_calls E writing_call _ eq_refl eq_refl _ _ _ Hload) as Hc.
  unfold _cmd_list, bind in Hrun. rewrite Hload in Hrun.
  destruct (skills_of data) as [|[k v] rest] eqn:Hsk.
  - simpl in Hrun. inversion Hrun; subst. cbn [fs stdout stderr].
    repeat split; try assumption.
    exists [msg_no_records]. rewrite Hout. split; [reflexivity|].
    split; [reflexivity | intros H; contradiction].
  - cbn [PosixPath.is_nil] in Hrun.
    match type of Hrun with
    | context [for_each ?l ?body w1] =>
        destruct (for_each l body w1) as [[[]|e] w2] eqn:Hloop; [|discriminate]
    end.
    unfold ret in Hrun. inversion Hrun; subst.
    apply list_loop in Hloop;
      [|intros name Hn; apply (proj1 (In_sorted _ _)) in Hn; exact Hn].
    destruct Hloop as (L1 & L2 & L3 & lines & L4 & L5).
    split; [reflexivity|]. split; [congruence|].
    split; [unfold calls_where in *; rewrite L2; exact Hc|].
    split; [congruence|].
    exists lines. split; [rewrite L4, Hout; reflexivity|].
    split; [discriminate|]. intros _. exact (L5 eq_refl).
Qed.

Lemma cmd_list_prints_sorted_records_witness :
  let w := Sample.start (Sample.root Sample.text_local []) [] in
  let run := _cmd_list Sample.environment (fun _ => "") None Sample.dest_root w in
  fst run = Ok 0
  /\ stdout (snd run) = ["foo: 本地 /src/foo"]
  /\ fs (snd run) = fs w.
Proof.
  intros w run. split; [reflexivity|]. split; [reflexivity|].
  exact (proj1 (proj2 (cmd_list_prints_sorted_records Sample.environment
                         (fun _ => "") None Sample.dest_root w
                         (snd (_load_sources Sample.environment
                                 (Sample.dest_root ++ [DEFAULT_SOURCES_NAME]) w))
                         (snd run) (Sample.registry [("foo", Sample.local_entry)]) 0
                         eq_refl eq_refl))).
Defined.

(** ** [main] *)

Lemma cmd_add_status (E : env) (args : add_args) (dest_root : path)
      (w w' : world) (n : nat) :
  _cmd_add E args dest_root w = (Ok n, w') -> n = 0.
Proof.
  unfold _cmd_add. intros H.
  apply bind_ok in H. destruct H as (data & wa & _ & H).
  apply bind_ok in H. destruct H as (entry & wb & _ & H).
  apply bind_ok in H. destruct H as ([] & wc & _ & H).
  apply bind_ok in H. destruct H as ([] & wd & _ & H).
  inversion H. reflexivity.
Qed.

Lemma cmd_list_status (E : env) (repr : json -> string) (sources : option path)
      (dest_root : path) (w w' : world) (n : nat) :
  _cmd_list E repr sources dest_root w = (Ok n, w') -> n = 0.
Proof.
  unfold _cmd_list. intros H.
  apply bind_ok in H. destruct H as (data & wa & _ & H).
  destruct (PosixPath.is_nil (skills_of data));
    apply bind_ok in H; destruct H as ([] & wb & _ & H);
    inversion H; reflexivity.
Qed.

Lemma cmd_remove_status (E : env) (sources : option path) (names : list string)
      (dest_root : path) (w w' : world) (n : nat) :
  _cmd_remove E sources names dest_root w = (Ok n, w') -> n = 0.
Proof.
  unfold _cmd_remove. intros H.
  apply bind_ok in H. destruct H as (data & wa & _ & H).
  destruct (remove_names names (skills_of data)) as [skills removed].
  apply bind_ok in H. destruct H as ([] & wb & _ & H).
  inversion H. reflexivity.
Qed.

Lemma cmd_update_status (E : env) (args : update_args) (dest_root : path)
      (w w' : world) (n : nat) :
  _cmd_update E args dest_root w = (Ok n, w') -> n = 0 \/ n = 1.
Proof.
  unfold _cmd_update. intros H.
  apply bind_ok in H. destruct H as (ex & wa & _ & H).
  destruct (negb ex).
  - apply bind_ok in H. destruct H as ([] & wb & _ & H). inversion H. auto.
  - apply bind_ok in H. destruct H as (data & wb & _ & H).
    destruct (PosixPath.is_nil _).
    + apply bind_ok in H. destruct H as ([] & wc & _ & H). inversion H. auto.
    + apply bind_ok in H. destruct H as ([] & wc & _ & H).
      apply bind_ok in H. destruct H as (errors & wd & _ & H).
      inversion H. destruct errors; auto.
Qed.

(** X22.  The process status is 0 or 1 and no exception leaves [main],
    whatever the subcommand and the state of the file system: when the
    subcommand returns, its status, which is 0 for [add], [list] and
    [remove] and 0 or 1 for [update], is the status of [main]; when the
    subcommand raises, [main] prints the one line [错误: ...] with the text
    of the error on the standard error, leaves the rest of the world as
    the subcommand left it, and returns 1. *)
Theorem main_exit_status
        (E : env) (repr : json -> string) (dest : option string)
        (cmd : command) (w : world) :
  let body := dispatch E repr cmd (dest_root_of E dest) w in
  exists n w',
    main E repr dest cmd w = (Ok n, w')
    /\ (n = 0 \/ n = 1)
    /\ (match cmd with Cmd_update _ => True | _ => raised (fst body) = false -> n = 0 end)
    /\ match fst body with
       | Ok m => n = m /\ w' = snd body
       | Raise e =>
           n = 1
           /\ stderr w' = stderr (snd body) ++ [msg_error e]
           /\ stdout w' = stdout (snd body)
           /\ fs w' = fs (snd body)
           /\ calls w' = calls (snd body)
       end.
Proof.
  intros body. unfold main, try_except. fold body.
  destruct body as [[m|e] wb] eqn:Hbody.
  - exists m, wb. split; [reflexivity|].
    assert (Hm : match cmd with
                 | Cmd_update _ => m = 0 \/ m = 1
                 | _ => m = 0
                 end).
    { unfold body, dispatch in Hbody. destruct cmd.
      - exact (cmd_add_status _ _ _ _ _ _ Hbody).
      - exact (cmd_list_status _ _ _ _ _ _ _ Hbody).
      - exact (cmd_remove_status _ _ _ _ _ _ _ Hbody).
      - exact (cmd_update_status _ _ _ _ _ _ Hbody). }
    cbn [fst snd].
    destruct cmd; (split; [auto|]); (split; [auto|]); auto.
  - eexists 1, _. split; [reflexivity|]. cbn [fst snd fs stderr stdout calls].
    split; [auto|]. split; [destruct cmd; auto; discriminate|].
    repeat split.
Qed.

(** ** [_update_one]: a successful update, end to end *)

Lemma prefix_comparable (p q a b : path) :
  p ++ a = q ++ b -> is_prefix p q = true \/ is_prefix q p = true.
Proof.
  revert q. induction p as [|c p IH]; intros q H.
  - left. reflexivity.
  - destruct q as [|d q]; [right; reflexivity|].
    simpl in H. inversion H; subst. simpl. rewrite String.eqb_refl. simpl.
    apply IH. assumption.
Qed.

Lemma apart_app (p q r s : path) : apart p q -> apart (p ++ r) (q ++ s).
Proof.
  intros [H1 H2]. split.
  - destruct (is_prefix (p ++ r) (q ++ s)) eqn:H; [|reflexivity].
    apply is_prefix_iff in H. destruct H as [x Hx]. rewrite <- app_assoc in Hx.
    destruct (prefix_comparable p q (r ++ x) s (eq_sym Hx)); congruence.
  - destruct (is_prefix (q ++ s) (p ++ r)) eqn:H; [|reflexivity].
    apply is_prefix_iff in H. destruct H as [x Hx]. rewrite <- app_assoc in Hx.
    destruct (prefix_comparable q p (s ++ x) r (eq_sym Hx)); congruence.
Qed.

Lemma apart_app_l (p q r : path) : apart p q -> apart (p ++ r) q.
Proof. intros H. rewrite <- (app_nil_r q). apply apart_app. exact H. Qed.



(** What lies apart from a directory lies apart from everything in it. *)
Lemma apart_below (p q r : path) : apart p q -> apart (p ++ r) q.
Proof. apply apart_app_l. Qed.

Lemma is_same_skill_run (E : env) (d n : path) (w : world) :
  exists w',
    _is_same_skill E d n w
    = (Ok (node_isdir (fs_lookup d (fs w))
           && (fingerprint E (fs_lookup d (fs w))
               =? fingerprint E (fs_lookup n (fs w)))), w')
    /\ fs w' = fs w /\ move_faults w' = move_faults w /\ clock w' = clock w.
Proof.
  unfold _is_same_skill, bind, os_path_isdir, _hash_directory, ret.
  cbn [fs log].
  destruct (node_isdir (fs_lookup d (fs w))); cbn [negb andb];
    eexists; (split; [reflexivity|]); repeat split.
Qed.



(** ** [_is_same_skill]: what counts as the same *)

(** X24.  A candidate that differs from the installed directory only in
    clutter and in the order of enumeration is judged the same: when both
    trees, with entries the digest passes over taken out, are the same
    tree up to the order of the entries, [_is_same_skill] answers [True]
    and leaves the tree as it was, so that [_update_one] reports the
    skill as up to date and replaces nothing. *)
Theorem is_same_skill_up_to_order_and_clutter
        (E : env) (dest_path new_path : path) (w : world)
        (t1 t2 c1 c2 : node) :
  fs_lookup dest_path (fs w) = Some t1 ->
  is_dir_entry t1 = true ->
  fs_lookup new_path (fs w) = Some t2 ->
  well_formed t1 = true ->
  well_formed t2 = true ->
  sheds t1 c1 -> sheds t2 c2 -> reorder c1 c2 ->
  exists w',
    _is_same_skill E dest_path new_path w = (Ok true, w')
    /\ fs w' = fs w
    /\ calls_where writing_call w' = calls_where writing_call w.
Proof.
  intros H1 Hd H2 W1 W2 S1 S2 R.
  destruct (is_same_skill_run E dest_path new_path w) as (w' & Hrun & Hfs & _).
  assert (Hsame : fingerprint E (fs_lookup dest_path (fs w))
                  = fingerprint E (fs_lookup new_path (fs w))).
  { rewrite H1, H2. unfold fingerprint. f_equal.
    rewrite (walk_hash_sheds _ _ S1 W1), (walk_hash_sheds _ _ S2 W2).
    exact (walk_hash_reorder _ _ R (sheds_well_formed _ _ S1 W1) [] []). }
  rewrite Hsame, String.eqb_refl, H1 in Hrun. simpl in Hrun. rewrite Hd in Hrun.
  exists w'. split; [exact Hrun|]. split; [exact Hfs|].
  assert (Hp : preserves (calls_where writing_call) (_is_same_skill E dest_path new_path))
    by (unfold _is_same_skill; frame).
  exact (Hp _ _ _ Hrun).
Qed.

Lemma reorder_clean : reorder Cases.skill_clean Cases.skill_clean_reordered.
Proof.
  apply reorder_here. apply perm_swap.
Qed.

Lemma is_same_skill_up_to_order_and_clutter_witness :
  exists w',
    _is_same_skill Sample.environment ["installed"] ["staged"]
      (Cases.holding_both Cases.skill_cluttered Cases.skill_clean_reordered)
    = (Ok true, w')
    /\ fs w' = fs (Cases.holding_both Cases.skill_cluttered Cases.skill_clean_reordered).
Proof.
  destruct (is_same_skill_up_to_order_and_clutter Sample.environment
              ["installed"] ["staged"]
              (Cases.holding_both Cases.skill_cluttered Cases.skill_clean_reordered)
              Cases.skill_cluttered Cases.skill_clean_reordered
              Cases.skill_clean Cases.skill_clean_reordered
              eq_refl eq_refl eq_refl eq_refl eq_refl
              sheds_clutter (sheds_refl _) reorder_clean)
    as (w' & Hrun & Hfs & _).
  exists w'. auto.
Defined.
